(** * Storefront theme behaviours: header overlap controller and review carousel

    A shallow embedding of [assets/header-hero-header.js] and
    [assets/review-banner-carousel.js].

    Numbers.  JavaScript numbers are IEEE doubles; the development
    idealises them as exact rationals ([Q]): pixel coordinates, widths,
    offsets, timestamps and momenta are [Q], values produced by
    [parseInt] and array indices are [Z].  [NaN] only arises from
    [parseInt], where it is [None].  Comparisons are the boolean tests
    the source performs. *)

From Stdlib Require Import ZArith QArith Qabs Qminmax Qround Lqa Lia List String Ascii Bool.
From stdpp Require Import gmap strings.
Import ListNotations.
Local Open Scope Q_scope.

(** ** JavaScript primitives used by both files *)

(** [x < y] on numbers. *)
Definition Qltb (x y : Q) : bool := negb (Qle_bool y x).

(** [x <= y] is [Qle_bool x y]; [x >= y] is [Qle_bool y x]. *)

(** [Math.max] and [Math.min] are [Qmax] and [Qmin] on [Q], [Z.max] and
    [Z.min] on [Z]; [Math.abs] is [Qabs]. *)


(** A [classList]: a set of class names. *)
Abbreviation ClassList := (gset string).

Definition classList_add (c : string) (l : ClassList) : ClassList := {[ c ]} ∪ l.
Definition classList_remove (c : string) (l : ClassList) : ClassList := l ∖ {[ c ]}.

(** ** The header overlap controller (header-hero-header.js) *)

Module Header.

(** The part of a [DOMRect] that [updateState] reads. *)
Record DOMRect := { rect_top : Q; rect_bottom : Q }.

(** The two elements whose classes are written, and the pending frame
    request. *)
Record HeaderState := {
  wrapperClasses : ClassList;
  rootClasses : ClassList;
  rafId : option Z
}.

(** The local [overlapping] of [updateState]: [heroRect] is [null] when
    the page has no hero section, and [null && ...] is falsy. *)
Definition overlapping (heroRect : option DOMRect) (headerRect : DOMRect) : bool :=
  match heroRect with
  | None => false
  | Some h =>
      Qltb (rect_top h) (rect_bottom headerRect)
      && Qltb (rect_top headerRect) (rect_bottom h)
  end.

(** [updateState] (lines 30-48); the rectangles are what
    [getBoundingClientRect] returns at the time of the call. *)
Definition updateState (heroRect : option DOMRect) (headerRect : DOMRect)
    (s : HeaderState) : HeaderState :=
  if overlapping heroRect headerRect then
    {| wrapperClasses :=
         classList_remove "is-solid" (classList_add "is-transparent" (wrapperClasses s));
       rootClasses := classList_add "header-overlap" (rootClasses s);
       rafId := None |}
  else
    {| wrapperClasses :=
         classList_add "is-solid" (classList_remove "is-transparent" (wrapperClasses s));
       rootClasses := classList_remove "header-overlap" (rootClasses s);
       rafId := None |}.

(** [onScrollOrResize] (lines 50-52): at most one measurement is
    requested per frame; [fresh] is the handle the browser returns. *)
Definition onScrollOrResize (fresh : Z) (s : HeaderState) : HeaderState :=
  match rafId s with
  | Some id => if (id =? 0)%Z
               then {| wrapperClasses := wrapperClasses s;
                       rootClasses := rootClasses s; rafId := Some fresh |}
               else s
  | None => {| wrapperClasses := wrapperClasses s;
               rootClasses := rootClasses s; rafId := Some fresh |}
  end.

(** The two visual states of the header. *)
Definition transparent_state (s : HeaderState) : Prop :=
  ("is-transparent"%string ∈ wrapperClasses s)
  ∧ ("is-solid"%string ∉ wrapperClasses s)
  ∧ ("header-overlap"%string ∈ rootClasses s).

Definition solid_state (s : HeaderState) : Prop :=
  ("is-solid"%string ∈ wrapperClasses s)
  ∧ ("is-transparent"%string ∉ wrapperClasses s)
  ∧ ("header-overlap"%string ∉ rootClasses s).

(** A header before any measurement: no class set, no frame requested. *)
Definition freshHeader : HeaderState :=
  {| wrapperClasses := ∅; rootClasses := ∅; rafId := None |}.

End Header.

(** ** The review carousel (review-banner-carousel.js) *)

Module Carousel.

(** *** Configuration: [parseInt], [||] and [parseConfig] *)

(** White space skipped by [parseInt]; strings are byte strings here,
    so only the ASCII white space and line terminators occur. *)
Definition is_js_space (c : ascii) : bool :=
  let n := Z.of_nat (nat_of_ascii c) in
  ((n =? 32) || ((9 <=? n) && (n <=? 13)))%Z.

Fixpoint trim_start (s : string) : string :=
  match s with
  | String c r => if is_js_space c then trim_start r else s
  | EmptyString => s
  end.

(** Value of a character as a digit, for radices up to 36. *)
Definition digit_value (c : ascii) : option Z :=
  let n := Z.of_nat (nat_of_ascii c) in
  if ((48 <=? n) && (n <=? 57))%Z then Some (n - 48)%Z
  else if ((97 <=? n) && (n <=? 122))%Z then Some (n - 87)%Z
  else if ((65 <=? n) && (n <=? 90))%Z then Some (n - 55)%Z
  else None.

(** Longest prefix of digits of the radix; [None] when it is empty. *)
Fixpoint parse_digits (radix : Z) (s : string) (acc : option Z) : option Z :=
  match s with
  | EmptyString => acc
  | String c r =>
      match digit_value c with
      | Some d =>
          if (d <? radix)%Z
          then parse_digits radix r
                 (Some (match acc with Some a => a * radix + d | None => d end)%Z)
          else acc
      | None => acc
      end
  end.

(** [parseInt(s)] with no radix argument: leading white space, a sign,
    a [0x] prefix selecting radix 16, then digits; [None] is [NaN]. *)
Definition parseInt (s : string) : option Z :=
  let s1 := trim_start s in
  let '(sign, s2) :=
    match s1 with
    | String "-"%char r => ((-1)%Z, r)
    | String "+"%char r => (1%Z, r)
    | _ => (1%Z, s1)
    end in
  let '(radix, s3) :=
    match s2 with
    | String "0"%char (String x r) =>
        if (Ascii.eqb x "x" || Ascii.eqb x "X")%char then (16%Z, r) else (10%Z, s2)
    | _ => (10%Z, s2)
    end in
  option_map (Z.mul sign) (parse_digits radix s3 None).

(** [parseInt(element.dataset.k)]: a missing attribute is [undefined],
    which converts to the string ["undefined"] and parses to [NaN]. *)
Definition parseIntAttr (v : option string) : option Z :=
  match v with
  | Some s => parseInt s
  | None => None
  end.

(** [n || d] on a number: [NaN] and [0] are falsy. *)
Definition num_or (n : option Z) (d : Z) : Z :=
  match n with
  | Some 0%Z | None => d
  | Some v => v
  end.

(** [s || d] on a string or [undefined]: the empty string is falsy. *)
Definition str_or (s : option string) (d : string) : string :=
  match s with
  | Some EmptyString | None => d
  | Some v => v
  end.

(** [v !== 'false'] on a string or [undefined]. *)
Definition not_false (v : option string) : bool :=
  match v with
  | Some s => negb (String.eqb s "false")
  | None => true
  end.

Record Config := {
  speed : Z;
  direction : string;
  pauseOnHover : bool;
  autoplay : bool;
  gap : Z;
  gapMobile : Z;
  dragEnabled : bool;
  keyboardEnabled : bool;
  imageStrategy : string;
  reducedMotion : bool
}.

(** What the code reads from [window], [document] and [performance] at
    the time of a call. *)
Record Env := {
  innerWidth : Q;
  docDir : string;
  docHidden : bool;
  prefersReducedMotion : bool;
  perfNow : Q
}.

(** [element.dataset], keyed by the camel-case property names. *)
Abbreviation Dataset := (gmap string string).

(** [parseConfig] (lines 227-241). *)
Definition parseConfig (dataset : Dataset) (env : Env) : Config :=
  {| speed := num_or (parseIntAttr (dataset !! "scrollSpeed"%string)) 60;
     direction := str_or (dataset !! "direction"%string) "left";
     pauseOnHover := not_false (dataset !! "pauseOnHover"%string);
     autoplay := not_false (dataset !! "autoplay"%string);
     gap := num_or (parseIntAttr (dataset !! "gap"%string)) 24;
     gapMobile := num_or (parseIntAttr (dataset !! "gapMobile"%string)) 16;
     dragEnabled := not_false (dataset !! "dragEnabled"%string);
     keyboardEnabled := not_false (dataset !! "keyboardEnabled"%string);
     imageStrategy := str_or (dataset !! "imageStrategy"%string) "lazy";
     reducedMotion := prefersReducedMotion env |}.

(** [window.innerWidth >= 750 ? gap : gapMobile]. *)
Definition activeGap (env : Env) (c : Config) : Q :=
  if Qle_bool 750 (innerWidth env) then inject_Z (gap c) else inject_Z (gapMobile c).

(** *** Numbers *)

(** A JavaScript number where the code can be handed any: the argument
    of [navigateTo] and the slide index it stores.  Finite numbers are
    exact rationals. *)
Inductive Number :=
| NaN
| Infinity (negative : bool)
| Finite (q : Q).

(** [Math.min] and [Math.max] of two numbers. *)
Definition Math_min (a b : Number) : Number :=
  match a, b with
  | NaN, _ => NaN
  | _, NaN => NaN
  | Infinity true, _ => Infinity true
  | _, Infinity true => Infinity true
  | Infinity false, x => x
  | x, Infinity false => x
  | Finite p, Finite q => Finite (Qmin p q)
  end.

Definition Math_max (a b : Number) : Number :=
  match a, b with
  | NaN, _ => NaN
  | _, NaN => NaN
  | Infinity false, _ => Infinity false
  | _, Infinity false => Infinity false
  | Infinity true, x => x
  | x, Infinity true => x
  | Finite p, Finite q => Finite (Qmax p q)
  end.

(** [clamp] (line 5) on numbers of any kind. *)
Definition clampNumber (value min max : Number) : Number :=
  Math_max min (Math_min max value).

(** [a === b] on numbers: NaN equals nothing. *)
Definition strictEq (a b : Number) : bool :=
  match a, b with
  | Finite p, Finite q => Qeq_bool p q
  | Infinity s, Infinity t => Bool.eqb s t
  | _, _ => false
  end.

(** [x + d] for a finite [d]. *)
Definition addNumber (x : Number) (d : Q) : Number :=
  match x with
  | Finite q => Finite (q + d)
  | _ => x
  end.

(** *** Instance state *)

(** [this.state] (lines 189-203).  [slides] holds, for each slide, the
    width its [getBoundingClientRect] reports; [clones] counts the
    clone groups the instance references.  [startX] and [lastX] are
    absent until the first pointer-down and only read while
    [dragging], which only [handlePointerDown] sets. *)
Record State := {
  initialized : bool;
  playing : bool;
  visible : bool;
  dragging : bool;
  offset : Q;
  velocity : Q;
  baseWidth : Q;
  cloneCount : nat;
  animationId : option Z;
  lastTimestamp : Q;
  slides : list Q;
  clones : nat;
  currentSlideIndex : Number;
  startX : Q;
  lastX : Q
}.

(** Events recorded by [CarouselAnalytics.track] (time stamps left out). *)
Inductive AnalyticsEvent :=
| TrackInit (slideCount : nat)
| TrackPlay
| TrackPause
| TrackDragStart
| TrackDragEnd (distance : Q).

(** What the instance writes to the page: classes and inline style of
    the wrapper element, the track's transform ([None] is the empty
    string, [Some x] is [translate3d(x px, 0, 0)]), the clone groups
    attached to the track, the slide carrying [tabindex="0"], the
    focused slide, the announcements [(K, N)] for "Review K of N", the
    custom events dispatched, the analytics log, whether the
    observers and the document and window listeners are attached, and
    the click listeners on the play-pause control of [.rbc-controls]
    ([None] when the page has no such control). *)
Record Dom := {
  classes : ClassList;
  cursor : string;
  transform : option Q;
  cloneNodes : nat;
  tabStop : option Z;
  focused : option Z;
  announcements : list (Z * Z);
  dispatched : list string;
  tracked : list AnalyticsEvent;
  observing : bool;
  listening : bool;
  playPauseListeners : option nat
}.

(** Callbacks the instance hands to [requestAnimationFrame]: the bound
    [animate], the closure [momentumAnimation] with the current value
    of its captured [momentum], and the arrow function of
    [measureDimensions]. *)
Inductive Callback :=
| CbAnimate
| CbMomentum (momentum : Q)
| CbMeasure.

(** A constructed instance: configuration, state, its view of the
    page, and the frame requests it has pending ([nextFrame] is the
    next handle the browser will hand out; handles are positive and
    never reused). *)
Record Widget := {
  config : Config;
  state : State;
  dom : Dom;
  nextFrame : Z;
  frames : list (Z * Callback)
}.

Definition with_state (f : State -> State) (w : Widget) : Widget :=
  {| config := config w; state := f (state w); dom := dom w;
     nextFrame := nextFrame w; frames := frames w |}.

Definition with_dom (f : Dom -> Dom) (w : Widget) : Widget :=
  {| config := config w; state := state w; dom := f (dom w);
     nextFrame := nextFrame w; frames := frames w |}.

Definition with_config (f : Config -> Config) (w : Widget) : Widget :=
  {| config := f (config w); state := state w; dom := dom w;
     nextFrame := nextFrame w; frames := frames w |}.

(** Assignments to the fields of [this.state]. *)
Definition set_initialized (b : bool) (s : State) : State :=
  {| initialized := b; playing := playing s; visible := visible s;
     dragging := dragging s; offset := offset s; velocity := velocity s;
     baseWidth := baseWidth s; cloneCount := cloneCount s;
     animationId := animationId s; lastTimestamp := lastTimestamp s;
     slides := slides s; clones := clones s;
     currentSlideIndex := currentSlideIndex s;
     startX := startX s; lastX := lastX s |}.

Definition set_playing (b : bool) (s : State) : State :=
  {| initialized := initialized s; playing := b; visible := visible s;
     dragging := dragging s; offset := offset s; velocity := velocity s;
     baseWidth := baseWidth s; cloneCount := cloneCount s;
     animationId := animationId s; lastTimestamp := lastTimestamp s;
     slides := slides s; clones := clones s;
     currentSlideIndex := currentSlideIndex s;
     startX := startX s; lastX := lastX s |}.

Definition set_visible (b : bool) (s : State) : State :=
  {| initialized := initialized s; playing := playing s; visible := b;
     dragging := dragging s; offset := offset s; velocity := velocity s;
     baseWidth := baseWidth s; cloneCount := cloneCount s;
     animationId := animationId s; lastTimestamp := lastTimestamp s;
     slides := slides s; clones := clones s;
     currentSlideIndex := currentSlideIndex s;
     startX := startX s; lastX := lastX s |}.

Definition set_dragging (b : bool) (s : State) : State :=
  {| initialized := initialized s; playing := playing s; visible := visible s;
     dragging := b; offset := offset s; velocity := velocity s;
     baseWidth := baseWidth s; cloneCount := cloneCount s;
     animationId := animationId s; lastTimestamp := lastTimestamp s;
     slides := slides s; clones := clones s;
     currentSlideIndex := currentSlideIndex s;
     startX := startX s; lastX := lastX s |}.

Definition set_offset (x : Q) (s : State) : State :=
  {| initialized := initialized s; playing := playing s; visible := visible s;
     dragging := dragging s; offset := x; velocity := velocity s;
     baseWidth := baseWidth s; cloneCount := cloneCount s;
     animationId := animationId s; lastTimestamp := lastTimestamp s;
     slides := slides s; clones := clones s;
     currentSlideIndex := currentSlideIndex s;
     startX := startX s; lastX := lastX s |}.

Definition set_measure (width v : Q) (s : State) : State :=
  {| initialized := initialized s; playing := playing s; visible := visible s;
     dragging := dragging s; offset := offset s; velocity := v;
     baseWidth := width; cloneCount := cloneCount s;
     animationId := animationId s; lastTimestamp := lastTimestamp s;
     slides := slides s; clones := clones s;
     currentSlideIndex := currentSlideIndex s;
     startX := startX s; lastX := lastX s |}.

Definition set_animationId (a : option Z) (s : State) : State :=
  {| initialized := initialized s; playing := playing s; visible := visible s;
     dragging := dragging s; offset := offset s; velocity := velocity s;
     baseWidth := baseWidth s; cloneCount := cloneCount s;
     animationId := a; lastTimestamp := lastTimestamp s;
     slides := slides s; clones := clones s;
     currentSlideIndex := currentSlideIndex s;
     startX := startX s; lastX := lastX s |}.

Definition set_lastTimestamp (t : Q) (s : State) : State :=
  {| initialized := initialized s; playing := playing s; visible := visible s;
     dragging := dragging s; offset := offset s; velocity := velocity s;
     baseWidth := baseWidth s; cloneCount := cloneCount s;
     animationId := animationId s; lastTimestamp := t;
     slides := slides s; clones := clones s;
     currentSlideIndex := currentSlideIndex s;
     startX := startX s; lastX := lastX s |}.

Definition set_slides (l : list Q) (s : State) : State :=
  {| initialized := initialized s; playing := playing s; visible := visible s;
     dragging := dragging s; offset := offset s; velocity := velocity s;
     baseWidth := baseWidth s; cloneCount := cloneCount s;
     animationId := animationId s; lastTimestamp := lastTimestamp s;
     slides := l; clones := clones s;
     currentSlideIndex := currentSlideIndex s;
     startX := startX s; lastX := lastX s |}.

Definition set_clones (n : nat) (s : State) : State :=
  {| initialized := initialized s; playing := playing s; visible := visible s;
     dragging := dragging s; offset := offset s; velocity := velocity s;
     baseWidth := baseWidth s; cloneCount := cloneCount s;
     animationId := animationId s; lastTimestamp := lastTimestamp s;
     slides := slides s; clones := n;
     currentSlideIndex := currentSlideIndex s;
     startX := startX s; lastX := lastX s |}.

Definition set_currentSlideIndex (i : Number) (s : State) : State :=
  {| initialized := initialized s; playing := playing s; visible := visible s;
     dragging := dragging s; offset := offset s; velocity := velocity s;
     baseWidth := baseWidth s; cloneCount := cloneCount s;
     animationId := animationId s; lastTimestamp := lastTimestamp s;
     slides := slides s; clones := clones s;
     currentSlideIndex := i;
     startX := startX s; lastX := lastX s |}.

Definition set_startX (x : Q) (s : State) : State :=
  {| initialized := initialized s; playing := playing s; visible := visible s;
     dragging := dragging s; offset := offset s; velocity := velocity s;
     baseWidth := baseWidth s; cloneCount := cloneCount s;
     animationId := animationId s; lastTimestamp := lastTimestamp s;
     slides := slides s; clones := clones s;
     currentSlideIndex := currentSlideIndex s;
     startX := x; lastX := lastX s |}.

Definition set_lastX (x : Q) (s : State) : State :=
  {| initialized := initialized s; playing := playing s; visible := visible s;
     dragging := dragging s; offset := offset s; velocity := velocity s;
     baseWidth := baseWidth s; cloneCount := cloneCount s;
     animationId := animationId s; lastTimestamp := lastTimestamp s;
     slides := slides s; clones := clones s;
     currentSlideIndex := currentSlideIndex s;
     startX := startX s; lastX := x |}.

(** Writes to the page. *)
Definition set_classes (f : ClassList -> ClassList) (d : Dom) : Dom :=
  {| classes := f (classes d); cursor := cursor d; transform := transform d;
     cloneNodes := cloneNodes d; tabStop := tabStop d; focused := focused d;
     announcements := announcements d; dispatched := dispatched d;
     tracked := tracked d; observing := observing d; listening := listening d;
     playPauseListeners := playPauseListeners d |}.

Definition set_cursor (c : string) (d : Dom) : Dom :=
  {| classes := classes d; cursor := c; transform := transform d;
     cloneNodes := cloneNodes d; tabStop := tabStop d; focused := focused d;
     announcements := announcements d; dispatched := dispatched d;
     tracked := tracked d; observing := observing d; listening := listening d;
     playPauseListeners := playPauseListeners d |}.

Definition set_transform (t : option Q) (d : Dom) : Dom :=
  {| classes := classes d; cursor := cursor d; transform := t;
     cloneNodes := cloneNodes d; tabStop := tabStop d; focused := focused d;
     announcements := announcements d; dispatched := dispatched d;
     tracked := tracked d; observing := observing d; listening := listening d;
     playPauseListeners := playPauseListeners d |}.

Definition set_cloneNodes (n : nat) (d : Dom) : Dom :=
  {| classes := classes d; cursor := cursor d; transform := transform d;
     cloneNodes := n; tabStop := tabStop d; focused := focused d;
     announcements := announcements d; dispatched := dispatched d;
     tracked := tracked d; observing := observing d; listening := listening d;
     playPauseListeners := playPauseListeners d |}.

Definition set_tabStop (t : option Z) (d : Dom) : Dom :=
  {| classes := classes d; cursor := cursor d; transform := transform d;
     cloneNodes := cloneNodes d; tabStop := t; focused := focused d;
     announcements := announcements d; dispatched := dispatched d;
     tracked := tracked d; observing := observing d; listening := listening d;
     playPauseListeners := playPauseListeners d |}.

Definition set_focused (t : option Z) (d : Dom) : Dom :=
  {| classes := classes d; cursor := cursor d; transform := transform d;
     cloneNodes := cloneNodes d; tabStop := tabStop d; focused := t;
     announcements := announcements d; dispatched := dispatched d;
     tracked := tracked d; observing := observing d; listening := listening d;
     playPauseListeners := playPauseListeners d |}.

Definition add_announcement (a : Z * Z) (d : Dom) : Dom :=
  {| classes := classes d; cursor := cursor d; transform := transform d;
     cloneNodes := cloneNodes d; tabStop := tabStop d; focused := focused d;
     announcements := announcements d ++ [a]; dispatched := dispatched d;
     tracked := tracked d; observing := observing d; listening := listening d;
     playPauseListeners := playPauseListeners d |}.

Definition add_dispatched (e : string) (d : Dom) : Dom :=
  {| classes := classes d; cursor := cursor d; transform := transform d;
     cloneNodes := cloneNodes d; tabStop := tabStop d; focused := focused d;
     announcements := announcements d; dispatched := dispatched d ++ [e];
     tracked := tracked d; observing := observing d; listening := listening d;
     playPauseListeners := playPauseListeners d |}.

Definition add_tracked (e : AnalyticsEvent) (d : Dom) : Dom :=
  {| classes := classes d; cursor := cursor d; transform := transform d;
     cloneNodes := cloneNodes d; tabStop := tabStop d; focused := focused d;
     announcements := announcements d; dispatched := dispatched d;
     tracked := tracked d ++ [e]; observing := observing d; listening := listening d;
     playPauseListeners := playPauseListeners d |}.

Definition set_observing (b : bool) (d : Dom) : Dom :=
  {| classes := classes d; cursor := cursor d; transform := transform d;
     cloneNodes := cloneNodes d; tabStop := tabStop d; focused := focused d;
     announcements := announcements d; dispatched := dispatched d;
     tracked := tracked d; observing := b; listening := listening d;
     playPauseListeners := playPauseListeners d |}.

Definition set_listening (b : bool) (d : Dom) : Dom :=
  {| classes := classes d; cursor := cursor d; transform := transform d;
     cloneNodes := cloneNodes d; tabStop := tabStop d; focused := focused d;
     announcements := announcements d; dispatched := dispatched d;
     tracked := tracked d; observing := observing d; listening := b;
     playPauseListeners := playPauseListeners d |}.

Definition set_playPauseListeners (n : option nat) (d : Dom) : Dom :=
  {| classes := classes d; cursor := cursor d; transform := transform d;
     cloneNodes := cloneNodes d; tabStop := tabStop d; focused := focused d;
     announcements := announcements d; dispatched := dispatched d;
     tracked := tracked d; observing := observing d; listening := listening d;
     playPauseListeners := n |}.

(** *** Browser services *)

(** [requestAnimationFrame(cb)]: queues the callback and returns its
    handle. *)
Definition requestAnimationFrame (cb : Callback) (w : Widget) : Z * Widget :=
  (nextFrame w,
   {| config := config w; state := state w; dom := dom w;
      nextFrame := (nextFrame w + 1)%Z;
      frames := frames w ++ [(nextFrame w, cb)] |}).

(** [cancelAnimationFrame(id)]. *)
Definition cancelAnimationFrame (id : Z) (w : Widget) : Widget :=
  {| config := config w; state := state w; dom := dom w;
     nextFrame := nextFrame w;
     frames := List.filter (fun p => negb (fst p =? id)%Z) (frames w) |}.

(** [dispatchEvent] (lines 801-808) and [CarouselAnalytics.track]. *)
Definition dispatchEvent (eventName : string) (w : Widget) : Widget :=
  with_dom (add_dispatched eventName) w.

Definition track (e : AnalyticsEvent) (w : Widget) : Widget :=
  with_dom (add_tracked e) w.

(** *** Animation and movement *)

(** [updateTransform] (lines 576-579). *)
Definition updateTransform (w : Widget) : Widget :=
  with_dom (set_transform (Some (offset (state w)))) w.

(** The wrap distance computed by [wrapOffset]. *)
Definition wrapPoint (env : Env) (w : Widget) : Q :=
  baseWidth (state w) + activeGap env (config w).

(** [wrapOffset] (lines 562-574). *)
Definition wrapOffset (env : Env) (w : Widget) : Widget :=
  let wp := wrapPoint env w in
  if String.eqb (direction (config w)) "left" then
    if Qle_bool (offset (state w)) (- wp)
    then with_state (set_offset (offset (state w) + wp)) w
    else w
  else
    if Qle_bool wp (offset (state w))
    then with_state (set_offset (offset (state w) - wp)) w
    else w.

(** The signed velocity of one frame (lines 551-553). *)
Definition frameVelocity (env : Env) (w : Widget) : Q :=
  let direction := if String.eqb (direction (config w)) "left" then -1 else 1 in
  let rtlMultiplier := if String.eqb (docDir env) "rtl" then -1 else 1 in
  direction * rtlMultiplier * velocity (state w).

(** [animate] (lines 545-560). *)
Definition animate (env : Env) (timestamp : Q) (w : Widget) : Widget :=
  if negb (playing (state w)) then w else
  let deltaTime := Qmin ((timestamp - lastTimestamp (state w)) / 1000) (1 / 30) in
  let w := with_state (set_lastTimestamp timestamp) w in
  let velocity := frameVelocity env w in
  let w := with_state (set_offset (offset (state w) + velocity * deltaTime)) w in
  let w := wrapOffset env w in
  let w := updateTransform w in
  let '(id, w) := requestAnimationFrame CbAnimate w in
  with_state (set_animationId (Some id)) w.

(** [play] (lines 514-524).  The two readings of [performance.now()],
    in [play] and in the default argument of [animate], are taken at
    the same instant. *)
Definition play (env : Env) (w : Widget) : Widget :=
  if negb (initialized (state w)) || playing (state w) || reducedMotion (config w)
  then w else
  let w := with_state (set_playing true) w in
  let w := with_state (set_lastTimestamp (perfNow env)) w in
  let w := animate env (perfNow env) w in
  let w := with_dom (set_classes (classList_remove "is-paused")) w in
  let w := dispatchEvent "rbc:play" w in
  track TrackPlay w.

(** [pause] (lines 526-538); a handle is truthy unless it is [0]. *)
Definition pause (w : Widget) : Widget :=
  if negb (playing (state w)) then w else
  let w := with_state (set_playing false) w in
  let w :=
    match animationId (state w) with
    | Some id =>
        if (id =? 0)%Z then w
        else with_state (set_animationId None) (cancelAnimationFrame id w)
    | None => w
    end in
  let w := with_dom (set_classes (classList_add "is-paused")) w in
  let w := dispatchEvent "rbc:pause" w in
  track TrackPause w.

(** [resume] (lines 540-543). *)
Definition resume (env : Env) (w : Widget) : Widget :=
  if negb (autoplay (config w)) || playing (state w)
     || negb (visible (state w)) || reducedMotion (config w)
  then w else play env w.

(** *** Measuring and cloning *)

(** The loop of [measureDimensions] (lines 323-329): [index] is the
    position of the head of [l] in the list of [len] slides. *)
Fixpoint totalWidth (gap : Q) (len : nat) (index : nat) (l : list Q) (acc : Q) : Q :=
  match l with
  | [] => acc
  | width :: rest =>
      let acc := acc + width in
      let acc := if (Z.of_nat index <? Z.of_nat len - 1)%Z then acc + gap else acc in
      totalWidth gap len (S index) rest acc
  end.

(** The divisor of the velocity formula (line 332). *)
Definition velocityDivisor (c : Config) : Q := Qmax 1 (inject_Z (speed c)).

(** The frame callback of [measureDimensions] (lines 320-334). *)
Definition measureCallback (env : Env) (w : Widget) : Widget :=
  let gap := activeGap env (config w) in
  let total := totalWidth gap (length (slides (state w))) 0 (slides (state w)) 0 in
  let w := with_state (set_measure total (total / velocityDivisor (config w))) w in
  updateTransform w.

(** [measureDimensions] (lines 318-336) only requests the frame. *)
Definition measureDimensions (w : Widget) : Widget :=
  snd (requestAnimationFrame CbMeasure w).

(** [createClones] (lines 338-361). *)
Definition createClones (w : Widget) : Widget :=
  let w := with_dom (fun d => set_cloneNodes (cloneNodes d - clones (state w))%nat d) w in
  let w := with_state (set_clones 0) w in
  match slides (state w) with
  | [] => w
  | _ =>
      let n := cloneCount (state w) in
      let w := with_dom (fun d => set_cloneNodes (cloneNodes d + n)%nat d) w in
      with_state (set_clones n) w
  end.

(** *** Pointer interaction *)

(** [handlePointerDown] (lines 582-596); [onLinkOrButton] is
    [e.target.closest('a, button')] being non-null. *)
Definition handlePointerDown (clientX : Q) (onLinkOrButton : bool) (w : Widget) : Widget :=
  if negb (dragEnabled (config w)) || onLinkOrButton then w else
  let w := with_state (set_dragging true) w in
  let w := pause w in
  let w := with_state (set_startX clientX) w in
  let w := with_state (set_lastX clientX) w in
  let w := with_dom (set_classes (classList_add "rbc-dragging")) w in
  let w := with_dom (set_cursor "grabbing") w in
  track TrackDragStart w.

(** [handlePointerMove] (lines 598-605), for the events the 16 ms
    throttle lets through. *)
Definition handlePointerMove (clientX : Q) (w : Widget) : Widget :=
  if negb (dragging (state w)) then w else
  let deltaX := clientX - lastX (state w) in
  let w := with_state (set_offset (offset (state w) + deltaX)) w in
  let w := updateTransform w in
  with_state (set_lastX clientX) w.

(** The closure [momentumAnimation] of [addMomentum] (lines 633-641),
    called with the current value of its variable [momentum]. *)
Definition momentumAnimation (momentum : Q) (w : Widget) : Widget :=
  if Qltb (Qabs momentum) 0.1 then w else
  let w := with_state (set_offset (offset (state w) + momentum)) w in
  let w := updateTransform w in
  snd (requestAnimationFrame (CbMomentum (momentum * 0.95)) w).

(** [addMomentum] (lines 629-644). *)
Definition addMomentum (w : Widget) : Widget :=
  let dragVelocity := (lastX (state w) - startX (state w)) * 0.1 in
  momentumAnimation dragVelocity w.

(** The local [dragDistance] of [handlePointerUp]. *)
Definition dragDistance (w : Widget) : Q :=
  Qabs (lastX (state w) - startX (state w)).

(** [handlePointerUp] (lines 607-627).  The 100 ms timer it sets is
    delivered later, as [dragTimer]. *)
Definition handlePointerUp (w : Widget) : Widget :=
  if negb (dragging (state w)) then w else
  let w := with_state (set_dragging false) w in
  let w := with_dom (set_classes (classList_remove "rbc-dragging")) w in
  let w := with_dom (set_cursor "") w in
  let distance := dragDistance w in
  let w := if Qltb 50 distance then addMomentum w else w in
  track (TrackDragEnd distance) w.

Definition dragTimer (env : Env) (w : Widget) : Widget :=
  if autoplay (config w) && visible (state w) then resume env w else w.

(** *** Keyboard and discrete navigation *)

(** The argument of [navigateTo]: a number, ['prev'], ['next'], or
    anything else. *)
Inductive NavTarget :=
| NavNumber (x : Number)
| NavPrev
| NavNext
| NavOther.

(** A slide position as argument. *)
Definition NavIndex (i : Z) : NavTarget := NavNumber (Finite (inject_Z i)).

Definition slideCount (w : Widget) : Z := Z.of_nat (length (slides (state w))).

(** [this.state.slides[index]] is defined: [index] is an integer from
    0 to [length - 1]; [indexOf] is then its position. *)
Definition hasSlide (index : Number) (w : Widget) : bool :=
  match index with
  | Finite q =>
      Qeq_bool q (inject_Z (Qfloor q))
      && (0 <=? Qfloor q)%Z && (Qfloor q <? slideCount w)%Z
  | _ => false
  end.

Definition indexOf (index : Number) : Z :=
  match index with
  | Finite q => Qfloor q
  | _ => 0%Z
  end.

(** [focusSlide] (lines 693-703). *)
Definition focusSlide (index : Number) (w : Widget) : Widget :=
  let w := with_dom (set_tabStop None) w in
  if hasSlide index w
  then with_dom (set_focused (Some (indexOf index)))
         (with_dom (set_tabStop (Some (indexOf index))) w)
  else w.

(** [announceSlide] (lines 705-711). *)
Definition announceSlide (index : Number) (w : Widget) : Widget :=
  if hasSlide index w
  then with_dom (add_announcement ((indexOf index + 1)%Z, slideCount w)) w
  else w.

(** The local [targetIndex] of [navigateTo] before it is clamped
    (lines 674-682).  With an argument that is neither a number nor
    ['prev'] nor ['next'] it stays [undefined], which [Math.min]
    converts to NaN. *)
Definition targetOf (target : NavTarget) (w : Widget) : Number :=
  match target with
  | NavNumber x => x
  | NavPrev => addNumber (currentSlideIndex (state w)) (-1)
  | NavNext => addNumber (currentSlideIndex (state w)) 1
  | NavOther => NaN
  end.

(** [navigateTo] (lines 673-691). *)
Definition navigateTo (target : NavTarget) (w : Widget) : Widget :=
  let targetIndex := targetOf target w in
  let targetIndex :=
    clampNumber targetIndex (Finite 0) (Finite (inject_Z (slideCount w - 1))) in
  if strictEq targetIndex (currentSlideIndex (state w)) then w else
  let w := with_state (set_currentSlideIndex targetIndex) w in
  let w := focusSlide targetIndex w in
  announceSlide targetIndex w.

(** [handleKeyDown] (lines 646-671); [key] is [e.key]. *)
Definition handleKeyDown (env : Env) (key : string) (w : Widget) : Widget :=
  if negb (keyboardEnabled (config w)) then w else
  if String.eqb key "ArrowLeft" then navigateTo NavPrev w
  else if String.eqb key "ArrowRight" then navigateTo NavNext w
  else if String.eqb key " " then
    if playing (state w) then pause w else resume env w
  else if String.eqb key "Home" then navigateTo (NavIndex 0) w
  else if String.eqb key "End" then navigateTo (NavIndex (slideCount w - 1)) w
  else w.

(** *** Observers and lifecycle *)

(** [handleResize] (lines 724-733), for the calls the 250 ms debounce
    lets through. *)
Definition handleResize (env : Env) (w : Widget) : Widget :=
  if negb (initialized (state w)) then w else
  let w := measureDimensions w in
  let w := createClones w in
  if playing (state w) then play env w else w.

(** [handleVisibilityChange] (lines 735-741). *)
Definition handleVisibilityChange (env : Env) (w : Widget) : Widget :=
  if docHidden env then pause w
  else if autoplay (config w) && visible (state w) then resume env w
  else w.

(** The intersection observer's callback, for one entry (lines 441-450). *)
Definition handleIntersection (env : Env) (isIntersecting : bool) (w : Widget) : Widget :=
  let w := with_state (set_visible isIntersecting) w in
  if isIntersecting && autoplay (config w) && negb (reducedMotion (config w))
  then resume env w
  else pause w.

Definition set_reducedMotion (b : bool) (c : Config) : Config :=
  {| speed := speed c; direction := direction c; pauseOnHover := pauseOnHover c;
     autoplay := autoplay c; gap := gap c; gapMobile := gapMobile c;
     dragEnabled := dragEnabled c; keyboardEnabled := keyboardEnabled c;
     imageStrategy := imageStrategy c; reducedMotion := b |}.

(** [enableStaticMode] and [disableStaticMode] (lines 744-752). *)
Definition enableStaticMode (w : Widget) : Widget :=
  with_dom (set_classes (classList_add "rbc-static-mode")) w.

Definition disableStaticMode (w : Widget) : Widget :=
  with_dom (set_classes (classList_remove "rbc-static-mode")) w.

(** The listener on the reduced-motion media query (lines 396-405). *)
Definition handleMotionChange (env : Env) (matches : bool) (w : Widget) : Widget :=
  let w := with_config (set_reducedMotion matches) w in
  if matches then enableStaticMode (pause w)
  else
    let w := disableStaticMode w in
    if autoplay (config w) then play env w else w.

(** The click listener of the play-pause control (lines 428-434). *)
Definition handlePlayPauseClick (env : Env) (w : Widget) : Widget :=
  if playing (state w) then pause w else play env w.

(** A click on the play-pause control: the browser calls the listeners
    attached to it one after the other. *)
Definition clickPlayPause (env : Env) (w : Widget) : Widget :=
  match playPauseListeners (dom w) with
  | Some n => Nat.iter n (handlePlayPauseClick env) w
  | None => w
  end.

(** [setupStructure] (lines 296-307); [children] are the children of
    the content block at the time of the call.  Emptying the track and
    moving the content block takes the slides out of the document for
    a moment, so a focused slide loses the focus;
    [updateSlideAttributes] gives the first slide the tab stop. *)
Definition setupStructure (children : list Q) (w : Widget) : Widget :=
  let w := with_dom (set_cloneNodes 0) w in
  let w := with_dom (set_focused None) w in
  let w := with_state (set_slides children) w in
  match children with
  | [] => with_dom (set_tabStop None) w
  | _ => with_dom (set_tabStop (Some 0%Z)) w
  end.

(** [setupControls] (lines 411-436), as far as the play-pause control
    goes: every call adds a click listener, a new arrow function each
    time, which nothing removes. *)
Definition setupControls (w : Widget) : Widget :=
  with_dom (fun d => set_playPauseListeners (option_map S (playPauseListeners d)) d) w.

(** [init] up to its first [await] (line 245). *)
Definition initBegin (w : Widget) : Widget :=
  with_dom (set_classes (classList_add "rbc-initializing")) w.

(** [init] after [await this.waitForImages()] (lines 248-265).
    [setupInteractions] and [setupObservers] attach the listeners and
    the observers; ARIA attributes and image loading are not part of
    the model. *)
Definition initResume (env : Env) (children : list Q) (w : Widget) : Widget :=
  let w := setupStructure children w in
  let w := measureDimensions w in
  let w := createClones w in
  let w := with_dom (set_listening true) w in
  let w := setupControls w in
  let w := with_dom (set_observing true) w in
  let w := with_state (set_initialized true) w in
  let w := with_dom (set_classes (classList_remove "rbc-initializing")) w in
  let w := with_dom (set_classes (classList_add "rbc-ready")) w in
  let w := if autoplay (config w) && negb (reducedMotion (config w))
           then play env w else w in
  let w := dispatchEvent "rbc:ready" w in
  track (TrackInit (length (slides (state w)))) w.

(** [destroy] (lines 760-785). *)
Definition destroy (removeListeners : bool) (w : Widget) : Widget :=
  let w := pause w in
  let w := with_dom (set_observing false) w in
  let w := if removeListeners then with_dom (set_listening false) w else w in
  let w := with_dom (set_classes
             (fun l => classList_remove "rbc-static-mode"
                         (classList_remove "rbc-dragging"
                            (classList_remove "is-paused"
                               (classList_remove "rbc-ready" l))))) w in
  let w := with_dom (set_cursor "") w in
  let w := with_dom (set_transform None) w in
  let w := with_dom (fun d => set_cloneNodes (cloneNodes d - clones (state w))%nat d) w in
  dispatchEvent "rbc:destroy" w.

(** [reinitialize] (lines 755-758); its 100 ms timer is delivered
    later, as [initBegin] followed by [initResume]. *)
Definition reinitialize (w : Widget) : Widget := destroy false w.

(** [updateConfig] (lines 795-798), with [merged] the spread of the
    old configuration and the new one. *)
Definition updateConfig (merged : Config) (w : Widget) : Widget :=
  reinitialize (with_config (fun _ => merged) w).

(** The state the constructor assigns (lines 189-203). *)
Definition initialState (c : Config) : State :=
  {| initialized := false; playing := autoplay c; visible := false;
     dragging := false; offset := 0; velocity := 0; baseWidth := 0;
     cloneCount := 3; animationId := None; lastTimestamp := 0;
     slides := []; clones := 0; currentSlideIndex := Finite 0;
     startX := 0; lastX := 0 |}.

(** A page element handed to [initCarousel]: its data attributes,
    whether it has the track and the content block, and what the
    instance will find on it. *)
Record Element := {
  dataset : Dataset;
  hasTrack : bool;
  hasContent : bool;
  elementDom : Dom
}.

(** An object created by [new AdvancedReviewCarousel(element)].  When
    the track or the content block is missing the constructor returns
    at line 182, before [config], [state] and [observers] are
    assigned: the object is [Partial]. *)
Inductive Instance :=
| Partial
| Built (w : Widget).

(** The constructor (lines 174-225), up to the first [await] of the
    [init] it starts. *)
Definition construct (el : Element) (env : Env) : Instance :=
  if negb (hasTrack el) || negb (hasContent el) then Partial
  else
    let c := parseConfig (dataset el) env in
    Built (initBegin {| config := c; state := initialState c;
                        dom := elementDom el; nextFrame := 1; frames := [] |}).

(** *** The event loop *)

(** What the browser and the host page can deliver to a constructed
    instance: the callbacks of its listeners, observers, timers and
    frame requests, and calls of its public methods.  Listeners are
    taken as attached throughout, whatever the configuration said when
    [setupInteractions] ran: more runs than the page allows.  A click
    event is one call of one click listener; a control that carries
    several, as after a re-initialisation, delivers as many in a row. *)
Inductive Event :=
| EvInitResume (children : list Q)
| EvInitTimer
| EvMutation
| EvUpdateConfig (merged : Config)
| EvFrame (id : Z) (timestamp : Q)
| EvMouseEnter
| EvMouseLeave
| EvPointerDown (clientX : Q) (onLinkOrButton : bool)
| EvPointerMove (clientX : Q)
| EvPointerUp
| EvDragTimer
| EvKeyDown (key : string)
| EvClickPrev
| EvClickNext
| EvClickPlayPause
| EvIntersection (isIntersecting : bool)
| EvResize
| EvVisibilityChange
| EvMotionChange (matches : bool)
| EvPlay
| EvPause
| EvResume
| EvNavigate (target : NavTarget)
| EvDestroy (removeListeners : bool).

Definition runCallback (env : Env) (cb : Callback) (timestamp : Q) (w : Widget) : Widget :=
  match cb with
  | CbAnimate => animate env timestamp w
  | CbMomentum m => momentumAnimation m w
  | CbMeasure => measureCallback env w
  end.

(** The browser runs the pending frame request [id]. *)
Definition runFrame (env : Env) (id : Z) (timestamp : Q) (w : Widget) : Widget :=
  match List.find (fun p => (fst p =? id)%Z) (frames w) with
  | Some (_, cb) => runCallback env cb timestamp (cancelAnimationFrame id w)
  | None => w
  end.

Definition step (env : Env) (e : Event) (w : Widget) : Widget :=
  match e with
  | EvInitResume children => initResume env children w
  | EvInitTimer => initBegin w
  | EvMutation => reinitialize w
  | EvUpdateConfig merged => updateConfig merged w
  | EvFrame id timestamp => runFrame env id timestamp w
  | EvMouseEnter => pause w
  | EvMouseLeave => resume env w
  | EvPointerDown x b => handlePointerDown x b w
  | EvPointerMove x => handlePointerMove x w
  | EvPointerUp => handlePointerUp w
  | EvDragTimer => dragTimer env w
  | EvKeyDown key => handleKeyDown env key w
  | EvClickPrev => navigateTo NavPrev w
  | EvClickNext => navigateTo NavNext w
  | EvClickPlayPause => handlePlayPauseClick env w
  | EvIntersection b => handleIntersection env b w
  | EvResize => handleResize env w
  | EvVisibilityChange => handleVisibilityChange env w
  | EvMotionChange b => handleMotionChange env b w
  | EvPlay => play env w
  | EvPause => pause w
  | EvResume => resume env w
  | EvNavigate target => navigateTo target w
  | EvDestroy b => destroy b w
  end.

(** A run: each event with the environment it is delivered in. *)
Fixpoint run (events : list (Env * Event)) (w : Widget) : Widget :=
  match events with
  | [] => w
  | (env, e) :: rest => run rest (step env e w)
  end.

(** The widgets an element can be in: a run from its construction. *)
Definition reachable (w : Widget) : Prop :=
  exists el env events w0, construct el env = Built w0 /\ run events w0 = w.

(** The pending requests for [animate]: the running frame loops. *)
Definition isAnimate (p : Z * Callback) : bool :=
  match snd p with
  | CbAnimate => true
  | _ => false
  end.

Definition animateFrames (w : Widget) : list (Z * Callback) :=
  List.filter isAnimate (frames w).

(** *** The momentum loop of one release *)

(** The values [momentumAnimation] adds to the offset, frame after
    frame, from a first value of [momentum]; [None] when [fuel] frames
    do not reach the stop test. *)
Fixpoint momentumFrames (fuel : nat) (momentum : Q) : option (list Q) :=
  if Qltb (Qabs momentum) 0.1 then Some []
  else
    match fuel with
    | O => None
    | S fuel' => option_map (cons momentum) (momentumFrames fuel' (momentum * 0.95))
    end.

(** A momentum sequence decays: each value is the one before times
    the friction factor, and smaller in magnitude. *)
Fixpoint decaying (l : list Q) : Prop :=
  match l with
  | a :: ((b :: _) as rest) => b == a * 0.95 /\ Qabs b < Qabs a /\ decaying rest
  | _ => True
  end.


(** Frames within which the momentum loop of a release of the given
    drag distance stops. *)
Definition momentumBound (distance : Q) : nat := Z.to_nat (Qceiling (19 * distance)).

(** *** The instance registry *)

(** Elements are named by numbers.  [instances] is the [WeakMap];
    [released] keeps the instances deleted from it, which the page
    still shows. *)
Record Page := {
  instances : gmap nat Instance;
  released : gmap nat Widget
}.

(** A call either returns or throws. *)
Inductive Completion (A : Type) :=
| Normal (a : A)
| Throw (error : string).
Arguments Normal {A} a.
Arguments Throw {A} error.

(** [instance.destroy()]: on a [Partial] object [this.pause()] reads
    [this.state.playing] with [this.state] undefined. *)
Definition destroyInstance (i : Instance) : Completion Widget :=
  match i with
  | Built w => Normal (destroy true w)
  | Partial => Throw "TypeError: this.state is undefined"
  end.

(** [initCarousel] (lines 820-826). *)
Definition initCarousel (key : nat) (el : Element) (env : Env) (p : Page) : Page :=
  match instances p !! key with
  | Some _ => p
  | None => {| instances := <[key := construct el env]> (instances p);
               released := released p |}
  end.

(** [destroyCarousel] (lines 828-834). *)
Definition destroyCarousel (key : nat) (p : Page) : Completion Page :=
  match instances p !! key with
  | Some instance =>
      match destroyInstance instance with
      | Normal w => Normal {| instances := delete key (instances p);
                              released := <[key := w]> (released p) |}
      | Throw e => Throw e
      end
  | None => Normal p
  end.

(** *** The frame-loop invariant *)

(** Handles are positive and below the next one to be handed out. *)
Definition framesOk (w : Widget) : Prop :=
  (0 < nextFrame w)%Z
  /\ Forall (fun p => (0 < fst p < nextFrame w)%Z) (frames w).

(** At most one request for [animate] is pending; when one is, the
    instance is playing and [animationId] is its handle. *)
Definition loopInvariant (w : Widget) : Prop :=
  framesOk w
  /\ (animateFrames w = []
      \/ (playing (state w) = true
          /\ exists id, animationId (state w) = Some id
                        /\ animateFrames w = [(id, CbAnimate)])).

(** What the invariant reads of a widget. *)
Definition core (w : Widget) : Z * list (Z * Callback) * bool * option Z :=
  (nextFrame w, frames w, playing (state w), animationId (state w)).

(** The browser runs the pending momentum requests, frame after frame,
    until none is left; [None] when [fuel] frames do not get there. *)
Definition isMomentum (p : Z * Callback) : bool :=
  match snd p with
  | CbMomentum _ => true
  | _ => false
  end.

Fixpoint runMomentum (fuel : nat) (env : Env) (w : Widget) : option Widget :=
  match List.find isMomentum (frames w) with
  | None => Some w
  | Some (id, _) =>
      match fuel with
      | O => None
      | S fuel' => runMomentum fuel' env (runFrame env id (perfNow env) w)
      end
  end.

(** The browser runs the request [id] and then, frame after frame, the
    request that call of the closure made, until the closure returns
    without one; every call is a frame, and the requests of other
    callbacks stay pending.  Gives the values of [momentum] the calls
    added to the offset; [None] when [id] is not a pending momentum
    request or [fuel] frames do not get there. *)
Fixpoint followMomentum (fuel : nat) (env : Env) (id : Z) (w : Widget)
    : option (list Q * Widget) :=
  match fuel with
  | O => None
  | S fuel' =>
      match List.find (fun p => (fst p =? id)%Z) (frames w) with
      | Some (_, CbMomentum m) =>
          let w' := runFrame env id (perfNow env) w in
          if Qltb (Qabs m) 0.1 then Some ([], w')
          else option_map (fun r => (m :: fst r, snd r))
                 (followMomentum fuel' env (nextFrame w) w')
      | _ => None
      end
  end.

(** Sum of a list of numbers. *)
Definition total (l : list Q) : Q := fold_right Qplus 0 l.

(** *** Slide positions *)



(** *** The wrap period *)

(** The offset is within one wrap distance of zero. *)
Definition offsetWithinWrap (env : Env) (w : Widget) : Prop :=
  0 <= Qabs (offset (state w)) /\ Qabs (offset (state w)) < wrapPoint env w.

(** The offset is in the period on the side the configured direction
    travels to: below zero for ['left'], above zero otherwise. *)
Definition offsetInPeriod (env : Env) (w : Widget) : Prop :=
  if String.eqb (direction (config w)) "left"
  then - wrapPoint env w < offset (state w) /\ offset (state w) <= 0
  else 0 <= offset (state w) /\ offset (state w) < wrapPoint env w.

(** The velocity is the one [measureDimensions] computes from the
    current width. *)
Definition measured (w : Widget) : Prop :=
  velocity (state w) == baseWidth (state w) / velocityDivisor (config w).

(** Successive frames of the loop, with their time stamps. *)
Fixpoint animateAll (env : Env) (timestamps : list Q) (w : Widget) : Widget :=
  match timestamps with
  | [] => w
  | t :: rest => animateAll env rest (animate env t w)
  end.

(** Time stamps that never go back, from [t] on. *)
Fixpoint ascending (t : Q) (timestamps : list Q) : Prop :=
  match timestamps with
  | [] => True
  | x :: rest => t <= x /\ ascending x rest
  end.

(** *** Views of a widget, for properties kept along a run *)

(** A relation between what [viewS] reads of the state and what [viewD]
    reads of the page. *)
Definition holds {V1 V2 : Type} (viewS : State -> V1) (viewD : Dom -> V2)
    (R : V1 -> V2 -> Prop) (w : Widget) : Prop :=
  R (viewS (state w)) (viewD (dom w)).

(** The track shows the current offset, when it shows any. *)
Definition transformShown (w : Widget) : Prop :=
  holds offset transform (fun o t => t = None \/ t = Some o) w.

(** The offset is still [before], or the track shows it. *)
Definition renderedSince (before : Q) (w : Widget) : Prop :=
  holds offset transform (fun o t => o = before \/ t = Some o) w.

(** No more clone groups are attached than the instance references, and
    it references no more than [cloneCount]. *)
Definition clonesBounded (w : Widget) : Prop :=
  holds (fun s => (clones s, cloneCount s)) cloneNodes
        (fun c n => (n <= fst c)%nat /\ (fst c <= snd c)%nat /\ snd c = 3%nat) w.

(** How often a name occurs in the dispatched events, and how many
    recorded analytics events satisfy a test. *)
Definition occurrences (name : string) (l : list string) : Z :=
  Z.of_nat (length (List.filter (String.eqb name) l)).

Definition recorded (f : AnalyticsEvent -> bool) (l : list AnalyticsEvent) : Z :=
  Z.of_nat (length (List.filter f l)).

Definition isTrackPlay (e : AnalyticsEvent) : bool :=
  match e with TrackPlay => true | _ => false end.

Definition isTrackPause (e : AnalyticsEvent) : bool :=
  match e with TrackPause => true | _ => false end.

(** Play and pause events are dispatched and recorded in pairs, and
    their numbers differ by what [playing] changed by since [start]. *)
Definition balance (start : bool) (isPlaying : bool)
    (logs : list string * list AnalyticsEvent) : Prop :=
  occurrences "rbc:play" (fst logs) = recorded isTrackPlay (snd logs)
  /\ occurrences "rbc:pause" (fst logs) = recorded isTrackPause (snd logs)
  /\ (occurrences "rbc:play" (fst logs) - occurrences "rbc:pause" (fst logs)
      = Z.b2z isPlaying - Z.b2z start)%Z.

Definition playPauseBalanced (start : bool) (w : Widget) : Prop :=
  holds playing (fun d => (dispatched d, tracked d)) (balance start) w.



(** The play-pause control carries [n] click listeners. *)
Definition listenersAre (n : option nat) (w : Widget) : Prop :=
  holds (fun _ : State => tt) playPauseListeners (fun _ p => p = n) w.

(** The pointer moves through the positions [xs], in order. *)
Definition dragThrough (xs : list Q) (w : Widget) : Widget :=
  fold_left (fun w x => handlePointerMove x w) xs w.

(** A whole re-initialisation: [reinitialize], its timer, and [init]
    resumed after its [await]. *)
Definition reinitialized (env : Env) (children : list Q) (w : Widget) : Widget :=
  initResume env children (initBegin (reinitialize w)).

(** The sum of the slide widths. *)
Definition widthSum (l : list Q) : Q := fold_right Qplus 0 l.

(** *** Sample inputs *)

(** A desktop viewport, left-to-right page, no reduced-motion
    preference. *)
Definition desktopEnv : Env :=
  {| innerWidth := 1024; docDir := ""; docHidden := false;
     prefersReducedMotion := false; perfNow := 0 |}.

(** The same page with the reduced-motion preference set. *)
Definition reducedMotionEnv : Env :=
  {| innerWidth := 1024; docDir := ""; docHidden := false;
     prefersReducedMotion := true; perfNow := 0 |}.

Definition blankDom : Dom :=
  {| classes := ∅; cursor := ""; transform := None; cloneNodes := 0;
     tabStop := None; focused := None; announcements := [];
     dispatched := []; tracked := []; observing := false; listening := false;
     playPauseListeners := Some 0%nat |}.

(** A wrapper with the required markup and no data attributes. *)
Definition plainElement : Element :=
  {| dataset := ∅; hasTrack := true; hasContent := true; elementDom := blankDom |}.

(** A wrapper without the track element. *)
Definition trackless : Element :=
  {| dataset := ∅; hasTrack := false; hasContent := true; elementDom := blankDom |}.

(** The widget the constructor builds for [plainElement]. *)
Definition freshWidget (env : Env) : Widget :=
  let c := parseConfig (dataset plainElement) env in
  initBegin {| config := c; state := initialState c;
               dom := elementDom plainElement; nextFrame := 1; frames := [] |}.

(** It initialised with two slides of 100 px and was measured. *)
Definition twoSlides : Widget :=
  run [(desktopEnv, EvInitResume [100; 100]); (desktopEnv, EvFrame 1 0)]
      (freshWidget desktopEnv).

(** It initialised with a content block that has no children. *)
Definition noSlides : Widget :=
  run [(desktopEnv, EvInitResume [])] (freshWidget desktopEnv).

(** [twoSlides] after the pointer entered and left the wrapper while it
    was on screen: the frame loop is running. *)
Definition scrolling : Widget :=
  run [(desktopEnv, EvIntersection true); (desktopEnv, EvMouseEnter);
       (desktopEnv, EvMouseLeave)] twoSlides.

(** [scrolling] after a drag of 600 px to the right, its release and
    the 100 ms timer, which resumes the loop. *)
Definition flung : Widget :=
  run [(desktopEnv, EvPointerDown 0 false); (desktopEnv, EvPointerMove 600);
       (desktopEnv, EvPointerUp); (desktopEnv, EvDragTimer)] scrolling.

(** The next frame of the loop, 16 ms later. *)
Definition afterFling : Widget := runFrame desktopEnv 4 16 flung.

(** A widget under the reduced-motion preference, on screen. *)
Definition motionless : Widget :=
  run [(reducedMotionEnv, EvInitResume [100; 100]); (reducedMotionEnv, EvFrame 1 0);
       (reducedMotionEnv, EvIntersection true)] (freshWidget reducedMotionEnv).

(** [scrolling] with the pointer down at 100 and moved to [x]. *)
Definition draggedTo (x : Q) : Widget :=
  run [(desktopEnv, EvPointerDown 100 false); (desktopEnv, EvPointerMove x)] scrolling.

(** [flung] caught again while the momentum of the fling still runs,
    and dragged 80 px to the right. *)
Definition secondDrag : Widget :=
  run [(desktopEnv, EvPointerDown 0 false); (desktopEnv, EvPointerMove 80)] flung.

Definition emptyPage : Page := {| instances := ∅; released := ∅ |}.

(** The page after [initCarousel] on the wrapper without a track. *)
Definition brokenPage : Page := initCarousel 0 trackless desktopEnv emptyPage.

(** The page after [initCarousel] on the plain wrapper. *)
Definition livePage : Page := initCarousel 0 plainElement desktopEnv emptyPage.

(** A right-to-left page. *)
Definition rtlEnv : Env :=
  {| innerWidth := 1024; docDir := "rtl"; docHidden := false;
     prefersReducedMotion := false; perfNow := 0 |}.

(** A wrapper with [data-scroll-speed="1"] on the right-to-left page,
    initialised with two slides, measured, on screen, its loop started. *)
Definition rtlScrolling : Widget :=
  match construct {| dataset := {[ "scrollSpeed"%string := "1"%string ]};
                     hasTrack := true; hasContent := true;
                     elementDom := blankDom |} rtlEnv with
  | Built w0 =>
      run [(rtlEnv, EvInitResume [100; 100]); (rtlEnv, EvFrame 1 0);
           (rtlEnv, EvIntersection true); (rtlEnv, EvMouseEnter);
           (rtlEnv, EvMouseLeave)] w0
  | Partial => freshWidget rtlEnv
  end.

(** Forty frames, 40 ms apart. *)
Definition fortyFrames : list Q :=
  List.map (fun k => inject_Z (40 * Z.of_nat k)) (seq 1 40).

(** A wrapper with [data-autoplay="false"], initialised and on screen. *)
Definition manual : Widget :=
  match construct {| dataset := {[ "autoplay"%string := "false"%string ]};
                     hasTrack := true; hasContent := true;
                     elementDom := blankDom |} desktopEnv with
  | Built w0 =>
      run [(desktopEnv, EvInitResume [100; 100]); (desktopEnv, EvFrame 1 0);
           (desktopEnv, EvIntersection true)] w0
  | Partial => freshWidget desktopEnv
  end.

(** Initialisation, a measuring frame, and a short drag. *)
Definition shortDrag : list (Env * Event) :=
  [(desktopEnv, EvInitResume [100; 100]); (desktopEnv, EvFrame 1 0);
   (desktopEnv, EvPointerDown 0 false); (desktopEnv, EvPointerMove 70);
   (desktopEnv, EvPointerUp)].

(** Initialisation with the element on screen, a change of the
    content, and the re-initialisation it brings about 100 ms later. *)
Definition reinitialisation : list (Env * Event) :=
  [(desktopEnv, EvInitResume [100; 100]); (desktopEnv, EvFrame 1 0);
   (desktopEnv, EvIntersection true); (desktopEnv, EvMutation);
   (desktopEnv, EvInitTimer); (desktopEnv, EvInitResume [100; 100; 100])].

(** Initialisation, two resizes and a change of the content. *)
Definition resizes : list (Env * Event) :=
  [(desktopEnv, EvInitResume [100; 100]); (desktopEnv, EvResize);
   (desktopEnv, EvResize); (desktopEnv, EvMutation)].

(** Initialisation, the element coming into view, and the pointer
    entering and leaving twice. *)
Definition hovers : list (Env * Event) :=
  [(desktopEnv, EvInitResume [100; 100]); (desktopEnv, EvIntersection true);
   (desktopEnv, EvMouseEnter); (desktopEnv, EvMouseLeave);
   (desktopEnv, EvMouseEnter); (desktopEnv, EvMouseLeave)].

End Carousel.

(** ** Utilities of review-banner-carousel.js (lines 5-29) *)

Module Utils.


(** [throttle(func, limit)] (lines 8-17): the closure's flag
    [inThrottle] (undefined, hence falsy, at first), the argument lists
    [func] was applied to, and the pending timers that will clear the
    flag. *)
Record Throttle (A : Type) := {
  inThrottle : bool;
  applied : list A;
  clearTimers : nat
}.
Arguments inThrottle {A} t.
Arguments applied {A} t.
Arguments clearTimers {A} t.

Definition throttle {A : Type} : Throttle A :=
  {| inThrottle := false; applied := []; clearTimers := 0 |}.

(** A call of the throttled function with arguments [a]. *)
Definition throttleCall {A : Type} (a : A) (t : Throttle A) : Throttle A :=
  if negb (inThrottle t)
  then {| inThrottle := true; applied := applied t ++ [a];
          clearTimers := S (clearTimers t) |}
  else t.

(** One of its timers expires: [inThrottle = false]. *)
Definition throttleTimeout {A : Type} (t : Throttle A) : Throttle A :=
  match clearTimers t with
  | O => t
  | S n => {| inThrottle := false; applied := applied t; clearTimers := n |}
  end.

Inductive TimedCall (A : Type) :=
| Call (a : A)
| Timeout.
Arguments Call {A} a.
Arguments Timeout {A}.

Definition throttleStep {A : Type} (t : Throttle A) (e : TimedCall A) : Throttle A :=
  match e with
  | Call a => throttleCall a t
  | Timeout => throttleTimeout t
  end.

Definition isTimeout {A : Type} (e : TimedCall A) : bool :=
  match e with Timeout => true | Call _ => false end.

(** The arguments of the calls in a sequence. *)
Fixpoint callsOf {A : Type} (es : list (TimedCall A)) : list A :=
  match es with
  | [] => []
  | Call a :: rest => a :: callsOf rest
  | Timeout :: rest => callsOf rest
  end.

(** [debounce(func, wait)] (lines 19-29): the arguments the armed
    timer will pass on ([None] when no timer is armed) and the argument
    lists [func] was applied to. *)
Record Debounce (A : Type) := {
  armed : option A;
  fired : list A
}.
Arguments armed {A} d.
Arguments fired {A} d.

Definition debounce {A : Type} : Debounce A := {| armed := None; fired := [] |}.

(** A call: the pending timer is cleared and a new one is set. *)
Definition debounceCall {A : Type} (a : A) (d : Debounce A) : Debounce A :=
  {| armed := Some a; fired := fired d |}.

(** The armed timer expires: [later] applies [func]. *)
Definition debounceTimeout {A : Type} (d : Debounce A) : Debounce A :=
  match armed d with
  | Some a => {| armed := None; fired := fired d ++ [a] |}
  | None => d
  end.

Definition debounceStep {A : Type} (d : Debounce A) (e : TimedCall A) : Debounce A :=
  match e with
  | Call a => debounceCall a d
  | Timeout => debounceTimeout d
  end.

End Utils.

(** ** The image loader of review-banner-carousel.js (lines 32-105) *)

Module ImageLoader.

(** What [loadImage] reads and writes of an [img] element:
    [data-src], [src] (the empty string when absent), [data-loaded] and
    the class list. *)
Record Img := {
  dataSrc : option string;
  src : string;
  dataLoaded : option string;
  imgClasses : ClassList
}.

(** A string or [undefined] is truthy unless it is empty. *)
Definition truthy (v : option string) : bool :=
  match v with
  | Some EmptyString | None => false
  | Some _ => true
  end.

(** The local [src] of [loadImage]: [img.dataset.src || img.src]. *)
Definition sourceOf (img : Img) : string :=
  if truthy (dataSrc img) then match dataSrc img with Some s => s | None => src img end
  else src img.

(** [loadImage] (lines 59-90), up to [imageLoader.src = src]: the image
    and the address requested, if any. *)
Definition loadImage (img : Img) : Img * option string :=
  if truthy (dataLoaded img) then (img, None)
  else
    let s := sourceOf img in
    if String.eqb s "" then (img, None)
    else ({| dataSrc := dataSrc img; src := src img; dataLoaded := dataLoaded img;
             imgClasses := classList_add "loading" (imgClasses img) |}, Some s).

(** The [onload] handler set for the request of [s] (lines 68-82); the
    blur placeholder it hides is left out. *)
Definition onload (s : string) (img : Img) : Img :=
  {| dataSrc := dataSrc img;
     src := if truthy (dataSrc img) then s else src img;
     dataLoaded := Some "true"%string;
     imgClasses := classList_add "loaded" (classList_remove "loading" (imgClasses img)) |}.

(** The [onerror] handler (lines 84-87). *)
Definition onerror (img : Img) : Img :=
  {| dataSrc := dataSrc img; src := src img; dataLoaded := dataLoaded img;
     imgClasses := classList_remove "loading" (imgClasses img) |}.

(** An image to be loaded lazily from its [data-src]. *)
Definition lazyImg : Img :=
  {| dataSrc := Some "review.jpg"%string; src := ""; dataLoaded := None;
     imgClasses := ∅ |}.

End ImageLoader.

(** ** The pointer-move listener of review-banner-carousel.js (line 220) *)

Module Pointer.
Import Carousel.
Import Utils.

(** The [pointermove] listener is [throttle(handlePointerMove, 16)]:
    the closure's flag and timers beside the instance.  A move that
    arrives while the flag is set is dropped; [applied] lists the
    positions handed on to [handlePointerMove]. *)
Definition pointerMove (s : Throttle Q * Widget) (e : TimedCall Q) : Throttle Q * Widget :=
  match e with
  | Call clientX =>
      if negb (inThrottle (fst s))
      then (throttleCall clientX (fst s), handlePointerMove clientX (snd s))
      else s
  | Timeout => (throttleTimeout (fst s), snd s)
  end.

(** A sequence of pointer moves and timer expirations. *)
Definition pointerMoves (es : list (TimedCall Q)) (s : Throttle Q * Widget)
    : Throttle Q * Widget :=
  fold_left pointerMove es s.

(** The closure has a timer pending exactly while its flag is set. *)
Definition timerPending (t : Throttle Q) : Prop :=
  clearTimers t = (if inThrottle t then 1 else 0)%nat.

(** Two moves within one window of the throttle, and the same moves
    with a timer expiry between them. *)
Definition quickMoves : list (TimedCall Q) := [Call 120; Call 180].

Definition slowMoves : list (TimedCall Q) := [Call 120; Timeout; Call 180].

End Pointer.

(** * Properties *)

(** ** Comparisons *)

Lemma Qltb_lt (x y : Q) : Qltb x y = true <-> x < y.
Proof.
  unfold Qltb. rewrite negb_true_iff. split; intros H.
  - apply Qnot_le_lt. intros Hle. apply Qle_bool_iff in Hle. congruence.
  - destruct (Qle_bool y x) eqn:E; [|reflexivity].
    apply Qle_bool_iff in E. lra.
Qed.

Lemma Qltb_ge (x y : Q) : Qltb x y = false <-> y <= x.
Proof.
  unfold Qltb. rewrite negb_false_iff. apply Qle_bool_iff.
Qed.

Lemma Qle_bool_gt (x y : Q) : Qle_bool x y = false <-> y < x.
Proof.
  rewrite <- Qltb_lt. unfold Qltb. now rewrite negb_true_iff.
Qed.

(** ** Header overlap *)

Module HeaderFacts.
Import Header.

Lemma overlapping_iff (h headerRect : DOMRect) :
  overlapping (Some h) headerRect = true
  <-> rect_top h < rect_bottom headerRect /\ rect_top headerRect < rect_bottom h.
Proof.
  unfold overlapping. rewrite andb_true_iff, !Qltb_lt. reflexivity.
Qed.

Lemma updateState_transparent heroRect headerRect s :
  overlapping heroRect headerRect = true ->
  transparent_state (updateState heroRect headerRect s).
Proof.
  intros H. unfold updateState, transparent_state. rewrite H. cbn.
  unfold classList_add, classList_remove.
  repeat (rewrite elem_of_union || rewrite elem_of_difference
          || rewrite elem_of_singleton).
  intuition congruence.
Qed.

Lemma updateState_solid heroRect headerRect s :
  overlapping heroRect headerRect = false ->
  solid_state (updateState heroRect headerRect s).
Proof.
  intros H. unfold updateState, solid_state. rewrite H. cbn.
  unfold classList_add, classList_remove.
  repeat (rewrite elem_of_union || rewrite elem_of_difference
          || rewrite elem_of_singleton).
  intuition congruence.
Qed.

(** C2.  With a hero region present, the overlap flag computed by
    [updateState] is true exactly when the hero's top edge is above the
    header's bottom edge and the hero's bottom edge is below the
    header's top edge; the header is then put in the transparent
    state, and in the solid state otherwise. *)
Theorem updateState_overlap_flag (h headerRect : DOMRect) (s : HeaderState) :
  (overlapping (Some h) headerRect = true
     <-> rect_top h < rect_bottom headerRect /\ rect_bottom h > rect_top headerRect)
  /\ (overlapping (Some h) headerRect = true ->
        transparent_state (updateState (Some h) headerRect s))
  /\ (overlapping (Some h) headerRect = false ->
        solid_state (updateState (Some h) headerRect s)).
Proof.
  split; [apply overlapping_iff|].
  split; [apply updateState_transparent | apply updateState_solid].
Qed.

(** The two measurements given with the claim: hero from 0 to 500
    under a header from 0 to 80 overlaps; a hero ending at -10 does
    not. *)
Example overlap_examples :
  overlapping (Some {| rect_top := 0; rect_bottom := 500 |})
              {| rect_top := 0; rect_bottom := 80 |} = true
  /\ overlapping (Some {| rect_top := -510; rect_bottom := -10 |})
                 {| rect_top := 0; rect_bottom := 80 |} = false.
Proof. split; reflexivity. Qed.

(** The header stays in exactly one of its two states. *)
Lemma updateState_classes (heroRect : option DOMRect) (headerRect : DOMRect)
    (s : HeaderState) :
  ("is-transparent"%string ∈ wrapperClasses (updateState heroRect headerRect s))
  <-> ("is-solid"%string ∉ wrapperClasses (updateState heroRect headerRect s)).
Proof.
  destruct (overlapping heroRect headerRect) eqn:E.
  - destruct (updateState_transparent heroRect headerRect s E) as (H1 & H2 & _). tauto.
  - destruct (updateState_solid heroRect headerRect s E) as (H1 & H2 & _). tauto.
Qed.

(** X7.  Without a hero section the header is put in the solid state;
    whatever the rectangles, it ends up with exactly one of
    [is-transparent] and [is-solid], and measuring again with the same
    rectangles changes nothing. *)
Theorem updateState_settles (heroRect : option DOMRect) (headerRect : DOMRect)
    (s : HeaderState) :
  solid_state (updateState None headerRect s)
  /\ (("is-transparent"%string ∈ wrapperClasses (updateState heroRect headerRect s))
      <-> ("is-solid"%string ∉ wrapperClasses (updateState heroRect headerRect s)))
  /\ updateState heroRect headerRect (updateState heroRect headerRect s)
     = updateState heroRect headerRect s.
Proof.
  split; [now apply updateState_solid|]. split; [apply updateState_classes|].
  unfold updateState. destruct (overlapping heroRect headerRect); cbn;
    unfold classList_add, classList_remove; f_equal; apply set_eq; intros x;
    repeat (rewrite elem_of_union || rewrite elem_of_difference
            || rewrite elem_of_singleton); tauto.
Qed.

(** X8.  Scroll and resize events request one measurement per frame:
    with none requested the first event requests one, further events
    before it runs change nothing, and once [updateState] has run the
    next event requests again.  The events never touch the classes. *)
Theorem scroll_requests_one_measurement (f1 f2 f3 : Z) (heroRect : option DOMRect)
    (headerRect : DOMRect) (s : HeaderState) :
  rafId s = None -> f1 <> 0%Z ->
  let s1 := onScrollOrResize f1 s in
  rafId s1 = Some f1
  /\ onScrollOrResize f2 s1 = s1
  /\ wrapperClasses s1 = wrapperClasses s /\ rootClasses s1 = rootClasses s
  /\ rafId (onScrollOrResize f3 (updateState heroRect headerRect s1)) = Some f3.
Proof.
  intros Hs Hf. unfold onScrollOrResize at 1 2. rewrite Hs. cbn.
  destruct (Z.eqb_spec f1 0) as [E|_]; [contradiction|].
  repeat split. unfold updateState, onScrollOrResize.
  destruct (overlapping heroRect _); reflexivity.
Qed.

Lemma scroll_requests_one_measurement_witness :
  let s1 := onScrollOrResize 7 freshHeader in
  rafId s1 = Some 7%Z
  /\ onScrollOrResize 8 s1 = s1
  /\ wrapperClasses s1 = wrapperClasses freshHeader
  /\ rootClasses s1 = rootClasses freshHeader
  /\ rafId (onScrollOrResize 9
              (updateState None {| rect_top := 0; rect_bottom := 80 |} s1)) = Some 9%Z.
Proof.
  apply (scroll_requests_one_measurement 7 8 9 None
           {| rect_top := 0; rect_bottom := 80 |} freshHeader).
  - reflexivity.
  - discriminate.
Defined.

End HeaderFacts.

(** ** The carousel *)

Module CarouselFacts.
Import Carousel.

(** *** Configuration *)

Lemma not_false_false (v : option string) :
  not_false v = false <-> v = Some "false"%string.
Proof.
  destruct v as [s|]; cbn.
  - rewrite negb_false_iff, String.eqb_eq. split; congruence.
  - split; discriminate.
Qed.

Lemma not_false_true (v : option string) :
  not_false v = true <-> v <> Some "false"%string.
Proof.
  rewrite <- not_false_false. destruct (not_false v); split; congruence.
Qed.

(** C10.  Each boolean flag of the configuration is false exactly when
    its data attribute is the string "false"; an absent attribute and any
    other value give true. *)
Theorem parseConfig_boolean_flags (dataset : Dataset) (env : Env) :
  let c := parseConfig dataset env in
  (autoplay c = false <-> dataset !! "autoplay"%string = Some "false"%string)
  /\ (pauseOnHover c = false <-> dataset !! "pauseOnHover"%string = Some "false"%string)
  /\ (dragEnabled c = false <-> dataset !! "dragEnabled"%string = Some "false"%string)
  /\ (keyboardEnabled c = false <-> dataset !! "keyboardEnabled"%string = Some "false"%string)
  /\ (autoplay c = true <-> dataset !! "autoplay"%string <> Some "false"%string)
  /\ (pauseOnHover c = true <-> dataset !! "pauseOnHover"%string <> Some "false"%string)
  /\ (dragEnabled c = true <-> dataset !! "dragEnabled"%string <> Some "false"%string)
  /\ (keyboardEnabled c = true <-> dataset !! "keyboardEnabled"%string <> Some "false"%string).
Proof.
  cbn. repeat split; try apply not_false_false; try apply not_false_true;
    try (apply not_false_false; assumption); try (apply not_false_true; assumption).
Qed.

(** The values named with the claim. *)
Example not_false_examples :
  not_false None = true
  /\ not_false (Some "false"%string) = false
  /\ not_false (Some "FALSE"%string) = true
  /\ not_false (Some "0"%string) = true
  /\ not_false (Some "no"%string) = true
  /\ not_false (Some ""%string) = true.
Proof. repeat split. Qed.

Example parseInt_examples :
  parseInt "60" = Some 60%Z
  /\ parseInt "  -12px" = Some (-12)%Z
  /\ parseInt "0x1F" = Some 31%Z
  /\ parseInt "fast" = None
  /\ parseInt "" = None
  /\ num_or (parseInt "0") 60 = 60%Z
  /\ num_or (parseIntAttr None) 24 = 24%Z.
Proof. repeat split. Qed.

(** *** Velocity *)

Lemma velocityDivisor_ge_1 (c : Config) : 1 <= velocityDivisor c.
Proof. unfold velocityDivisor. apply Q.le_max_l. Qed.

Lemma velocityDivisor_nonzero (c : Config) : ~ velocityDivisor c == 0.
Proof. pose proof (velocityDivisor_ge_1 c). lra. Qed.

Lemma measureCallback_velocity (env : Env) (w : Widget) :
  velocity (state (measureCallback env w))
  = baseWidth (state (measureCallback env w)) / velocityDivisor (config w).
Proof. reflexivity. Qed.

(** C8.  The divisor of the velocity formula is at least 1 for every
    configuration, so the division is never by zero; with no slides the
    measured width is 0 and the velocity is 0, as it is whenever the
    measured width is 0. *)
Theorem measure_without_slides (env : Env) (w : Widget) :
  slides (state w) = [] ->
  (forall c : Config, 1 <= velocityDivisor c /\ ~ velocityDivisor c == 0)
  /\ baseWidth (state (measureCallback env w)) = 0
  /\ velocity (state (measureCallback env w)) == 0
  /\ (forall env' w', baseWidth (state (measureCallback env' w')) == 0 ->
                      velocity (state (measureCallback env' w')) == 0).
Proof.
  intros Hs. split; [|split; [|split]].
  - intros c. split; [apply velocityDivisor_ge_1 | apply velocityDivisor_nonzero].
  - unfold measureCallback. cbn. rewrite Hs. reflexivity.
  - unfold measureCallback. cbn. rewrite Hs. cbn.
    unfold Qdiv. lra.
  - intros env' w' H. rewrite measureCallback_velocity, H. unfold Qdiv. lra.
Qed.

(** *** Play, pause and resume *)

(** Case analysis on every test left in the goal. *)
Ltac case_tests :=
  repeat (match goal with
          | |- context [if ?b then _ else _] => destruct b eqn:?
          end; cbn in *).

Lemma state_with_dom (f : Dom -> Dom) (w : Widget) : state (with_dom f w) = state w.
Proof. reflexivity. Qed.

Lemma wrapOffset_playing (env : Env) (w : Widget) :
  playing (state (wrapOffset env w)) = playing (state w).
Proof. unfold wrapOffset. case_tests; reflexivity. Qed.

Lemma animate_playing (env : Env) (timestamp : Q) (w : Widget) :
  playing (state (animate env timestamp w)) = playing (state w).
Proof.
  unfold animate. destruct (playing (state w)) eqn:E; cbn; [|exact E].
  rewrite wrapOffset_playing. exact E.
Qed.

Lemma pause_not_playing (w : Widget) : playing (state (pause w)) = false.
Proof.
  unfold pause. destruct (playing (state w)) eqn:E; cbn; [|exact E].
  destruct (animationId (state w)) as [id|]; [destruct (id =? 0)%Z|]; reflexivity.
Qed.

Lemma play_playing (env : Env) (w : Widget) :
  initialized (state w) = true ->
  playing (state w) = false ->
  reducedMotion (config w) = false ->
  playing (state (play env w)) = true.
Proof.
  intros Hi Hp Hr. unfold play. rewrite Hi, Hp, Hr. cbn [negb orb].
  unfold track, dispatchEvent. rewrite !state_with_dom, animate_playing.
  reflexivity.
Qed.

Lemma play_reduced_motion (env : Env) (w : Widget) :
  reducedMotion (config w) = true -> play env w = w.
Proof.
  intros Hr. unfold play. rewrite Hr, !orb_true_r. reflexivity.
Qed.

Lemma resume_reduced_motion (env : Env) (w : Widget) :
  reducedMotion (config w) = true -> resume env w = w.
Proof.
  intros Hr. unfold resume. rewrite Hr, !orb_true_r. reflexivity.
Qed.

Lemma handleKeyDown_space (env : Env) (w : Widget) :
  keyboardEnabled (config w) = true ->
  handleKeyDown env " " w = if playing (state w) then pause w else resume env w.
Proof.
  intros Hk. unfold handleKeyDown. rewrite Hk. reflexivity.
Qed.

(** C7, as the code has it.  With keyboard handling enabled, the space
    key pauses a playing instance; it starts a paused one when the
    instance is initialised, autoplay is on, the element is visible and
    reduced motion is off; under reduced motion a paused instance stays
    paused. *)
Theorem space_key_play_pause (env : Env) (w : Widget) :
  keyboardEnabled (config w) = true ->
  (playing (state w) = true ->
     playing (state (handleKeyDown env " " w)) = false)
  /\ (playing (state w) = false ->
      initialized (state w) = true ->
      autoplay (config w) = true ->
      visible (state w) = true ->
      reducedMotion (config w) = false ->
      playing (state (handleKeyDown env " " w)) = true)
  /\ (playing (state w) = false ->
      reducedMotion (config w) = true ->
      handleKeyDown env " " w = w).
Proof.
  intros Hk. rewrite (handleKeyDown_space env w Hk). repeat split.
  - intros Hp. rewrite Hp. apply pause_not_playing.
  - intros Hp Hi Ha Hv Hr. rewrite Hp. unfold resume.
    rewrite Ha, Hp, Hv, Hr. cbn. now apply play_playing.
  - intros Hp Hr. rewrite Hp. now apply resume_reduced_motion.
Qed.

(** *** Discrete navigation *)






Lemma strictEq_NaN (a : Number) : strictEq NaN a = false.
Proof. reflexivity. Qed.













(** *** One frame loop at a time *)

Lemma filter_Forall {A} (P : A -> Prop) (f : A -> bool) (l : list A) :
  Forall P l -> Forall P (List.filter f l).
Proof.
  induction 1 as [|x l Hx Hl IH]; cbn; [constructor|].
  destruct (f x); [constructor|]; assumption.
Qed.

Lemma filter_filter_comm {A} (f g : A -> bool) (l : list A) :
  List.filter f (List.filter g l) = List.filter g (List.filter f l).
Proof.
  induction l as [|x l IH]; cbn; [reflexivity|].
  destruct (f x) eqn:Ef, (g x) eqn:Eg; cbn; rewrite ?Ef, ?Eg, IH; reflexivity.
Qed.

Lemma filter_id_Forall {A} (f : A -> bool) (l : list A) :
  Forall (fun x => f x = true) l -> List.filter f l = l.
Proof.
  induction 1 as [|x l Hx Hl IH]; cbn; [reflexivity|].
  now rewrite Hx, IH.
Qed.

Lemma loopInvariant_core (w w' : Widget) :
  core w' = core w -> loopInvariant w -> loopInvariant w'.
Proof.
  unfold core, loopInvariant, framesOk, animateFrames.
  intros [= -> -> -> ->]. tauto.
Qed.

Lemma framesOk_core (w w' : Widget) :
  nextFrame w' = nextFrame w -> frames w' = frames w -> framesOk w -> framesOk w'.
Proof. unfold framesOk. intros -> ->. tauto. Qed.

Lemma framesOk_request (cb : Callback) (w : Widget) :
  framesOk w -> framesOk (snd (requestAnimationFrame cb w)).
Proof.
  unfold framesOk. cbn. intros [Hn Hf]. split; [lia|].
  apply List.Forall_app. split.
  - eapply List.Forall_impl; [|exact Hf]. cbn. lia.
  - repeat constructor; cbn; lia.
Qed.

Lemma framesOk_cancel (id : Z) (w : Widget) :
  framesOk w -> framesOk (cancelAnimationFrame id w).
Proof.
  unfold framesOk. cbn. intros [Hn Hf]. split; [exact Hn|].
  now apply filter_Forall.
Qed.

Lemma animateFrames_request (cb : Callback) (w : Widget) :
  animateFrames (snd (requestAnimationFrame cb w)) =
  animateFrames w ++ (if isAnimate (nextFrame w, cb) then [(nextFrame w, cb)] else []).
Proof.
  unfold animateFrames. cbn [snd requestAnimationFrame frames].
  rewrite List.filter_app. reflexivity.
Qed.

Lemma animateFrames_cancel (id : Z) (w : Widget) :
  animateFrames (cancelAnimationFrame id w) =
  List.filter (fun p => negb (fst p =? id)%Z) (animateFrames w).
Proof. unfold animateFrames. cbn. apply filter_filter_comm. Qed.

(** Requests for other callbacks leave the loop alone. *)
Lemma loopInvariant_request (cb : Callback) (w : Widget) :
  cb <> CbAnimate ->
  loopInvariant w -> loopInvariant (snd (requestAnimationFrame cb w)).
Proof.
  intros Hcb [Hok Hl]. split; [now apply framesOk_request|].
  rewrite animateFrames_request.
  replace (isAnimate (nextFrame w, cb)) with false by (destruct cb; cbn; congruence).
  rewrite app_nil_r. exact Hl.
Qed.

Lemma loopInvariant_idle (w : Widget) :
  loopInvariant w -> playing (state w) = false -> animateFrames w = [].
Proof. intros [_ [H|[H _]]] Hp; [exact H | congruence]. Qed.

Lemma wrapOffset_core (env : Env) (w : Widget) : core (wrapOffset env w) = core w.
Proof. unfold wrapOffset. case_tests; reflexivity. Qed.

Lemma wrapOffset_frames (env : Env) (w : Widget) :
  frames (wrapOffset env w) = frames w /\ nextFrame (wrapOffset env w) = nextFrame w.
Proof. pose proof (wrapOffset_core env w) as [= -> -> _ _]. tauto. Qed.

(** [animate] on a widget with no loop pending starts exactly one. *)
Lemma animate_invariant (env : Env) (timestamp : Q) (w : Widget) :
  framesOk w -> animateFrames w = [] ->
  loopInvariant (animate env timestamp w).
Proof.
  intros Hok Hnone. unfold animate.
  destruct (playing (state w)) eqn:Hp; cbn [negb].
  - set (w1 := wrapOffset env _).
    assert (Hc : core w1 = core w) by (subst w1; now rewrite wrapOffset_core).
    injection Hc as Hn Hf Hpl _.
    cbn [requestAnimationFrame updateTransform with_dom with_state
         nextFrame frames state dom config].
    split.
    + unfold framesOk. cbn. rewrite Hn, Hf. destruct Hok as [H0 HF].
      split; [lia|]. apply List.Forall_app. split.
      * eapply List.Forall_impl; [|exact HF]. cbn. lia.
      * repeat constructor; cbn; lia.
    + right. cbn. split; [rewrite Hpl; exact Hp|].
      exists (nextFrame w1). split; [reflexivity|].
      unfold animateFrames. cbn. rewrite List.filter_app, Hf.
      fold (animateFrames w). rewrite Hnone. reflexivity.
  - split; [exact Hok | now left].
Qed.

Lemma pause_invariant (w : Widget) :
  loopInvariant w -> loopInvariant (pause w) /\ animateFrames (pause w) = [].
Proof.
  intros Hinv. pose proof Hinv as [Hok Hl]. unfold pause.
  destruct (playing (state w)) eqn:Hp; cbn [negb].
  2:{ split; [exact Hinv | now apply loopInvariant_idle]. }
  assert (Hgoal : forall w', framesOk w' -> animateFrames w' = [] ->
             loopInvariant (track TrackPause (dispatchEvent "rbc:pause"
               (with_dom (set_classes (classList_add "is-paused")) w')))
             /\ animateFrames (track TrackPause (dispatchEvent "rbc:pause"
               (with_dom (set_classes (classList_add "is-paused")) w'))) = []).
  { intros w' Hok' Hnone. split; [split; [exact Hok'|left; exact Hnone] | exact Hnone]. }
  cbn [with_state state set_playing animationId].
  destruct (animationId (state w)) as [id|] eqn:Hid.
  - destruct (id =? 0)%Z eqn:Hz.
    + apply Hgoal; [exact Hok|].
      destruct Hl as [H|[_ (id' & Hid' & Hfr)]]; [exact H|].
      exfalso. destruct Hok as [_ HF].
      assert (Hin : In (id', CbAnimate) (frames w)).
      { apply (proj1 (List.filter_In isAnimate _ _)).
        fold (animateFrames w). rewrite Hfr. now left. }
      rewrite List.Forall_forall in HF. specialize (HF _ Hin). cbn in HF.
      apply Z.eqb_eq in Hz. injection Hid' as <-. lia.
    + apply Hgoal.
      * apply (framesOk_cancel id (with_state (set_playing false) w)). exact Hok.
      * change (animateFrames (cancelAnimationFrame id w) = []).
        rewrite animateFrames_cancel.
        destruct Hl as [->|[_ (id' & Hid' & ->)]]; [reflexivity|].
        injection Hid' as <-. cbn. now rewrite Z.eqb_refl.
  - apply Hgoal; [exact Hok|].
    destruct Hl as [H|[_ (id' & Hid' & _)]]; [exact H | discriminate].
Qed.

Lemma inv_dom (f : Dom -> Dom) (w : Widget) :
  loopInvariant w -> loopInvariant (with_dom f w).
Proof. apply loopInvariant_core. reflexivity. Qed.

Lemma play_invariant (env : Env) (w : Widget) :
  loopInvariant w -> loopInvariant (play env w).
Proof.
  intros Hinv. unfold play.
  destruct (negb (initialized (state w)) || playing (state w)
            || reducedMotion (config w)) eqn:Hg; [exact Hinv|].
  apply orb_false_iff in Hg as [Hg _]. apply orb_false_iff in Hg as [_ Hp].
  unfold track, dispatchEvent. do 3 apply inv_dom.
  apply animate_invariant.
  - exact (proj1 Hinv).
  - exact (loopInvariant_idle w Hinv Hp).
Qed.

Lemma resume_invariant (env : Env) (w : Widget) :
  loopInvariant w -> loopInvariant (resume env w).
Proof.
  intros Hinv. unfold resume. case_tests; [exact Hinv | now apply play_invariant].
Qed.

Lemma inv_config (f : Config -> Config) (w : Widget) :
  loopInvariant w -> loopInvariant (with_config f w).
Proof. apply loopInvariant_core. reflexivity. Qed.

Lemma inv_state (f : State -> State) (w : Widget) :
  (forall s, playing (f s) = playing s /\ animationId (f s) = animationId s) ->
  loopInvariant w -> loopInvariant (with_state f w).
Proof.
  intros Hf. apply loopInvariant_core. unfold core. cbn.
  destruct (Hf (state w)) as [-> ->]. reflexivity.
Qed.

Lemma cancel_invariant (id : Z) (w : Widget) :
  loopInvariant w -> loopInvariant (cancelAnimationFrame id w).
Proof.
  intros [Hok Hl]. split; [now apply framesOk_cancel|].
  rewrite animateFrames_cancel.
  destruct Hl as [->|(Hp & id' & Hid & Hfr)]; [now left|].
  rewrite Hfr. cbn. destruct (id' =? id)%Z; cbn; [now left|].
  right. split; [exact Hp|]. now exists id'.
Qed.

(** One step of the invariant proof: peel the outermost operation. *)
Ltac inv_step :=
  match goal with
  | H : loopInvariant ?w |- loopInvariant ?w => exact H
  | |- loopInvariant (if ?b then _ else _) => destruct b eqn:?
  | |- loopInvariant (match ?x with _ => _ end) => destruct x eqn:?
  | |- loopInvariant (with_dom _ _) => apply inv_dom
  | |- loopInvariant (with_config _ _) => apply inv_config
  | |- loopInvariant (with_state _ _) =>
      apply inv_state; [intros; split; reflexivity|]
  | |- loopInvariant (pause _) => apply pause_invariant
  | |- loopInvariant (play _ _) => apply play_invariant
  | |- loopInvariant (resume _ _) => apply resume_invariant
  | |- loopInvariant (cancelAnimationFrame _ _) => apply cancel_invariant
  | |- loopInvariant (snd (requestAnimationFrame _ _)) =>
      apply loopInvariant_request; [discriminate|]
  end.

Ltac inv_auto := cbv zeta; repeat inv_step.

Lemma momentumAnimation_invariant (m : Q) (w : Widget) :
  loopInvariant w -> loopInvariant (momentumAnimation m w).
Proof. intros H. unfold momentumAnimation, updateTransform. inv_auto. Qed.

Lemma measureCallback_invariant (env : Env) (w : Widget) :
  loopInvariant w -> loopInvariant (measureCallback env w).
Proof. intros H. unfold measureCallback, updateTransform. inv_auto. Qed.

Lemma createClones_invariant (w : Widget) :
  loopInvariant w -> loopInvariant (createClones w).
Proof. intros H. unfold createClones. inv_auto. Qed.

Lemma measureDimensions_invariant (w : Widget) :
  loopInvariant w -> loopInvariant (measureDimensions w).
Proof. intros H. unfold measureDimensions. inv_auto. Qed.

Lemma navigateTo_invariant (t : NavTarget) (w : Widget) :
  loopInvariant w -> loopInvariant (navigateTo t w).
Proof.
  intros H. unfold navigateTo, announceSlide, focusSlide. inv_auto.
Qed.

Lemma destroy_invariant (b : bool) (w : Widget) :
  loopInvariant w -> loopInvariant (destroy b w).
Proof. intros H. unfold destroy, dispatchEvent. inv_auto. Qed.

Lemma initResume_invariant (env : Env) (children : list Q) (w : Widget) :
  loopInvariant w -> loopInvariant (initResume env children w).
Proof.
  intros H. unfold initResume, setupControls, track, dispatchEvent.
  assert (H1 : loopInvariant (createClones (measureDimensions (setupStructure children w)))).
  { apply createClones_invariant, measureDimensions_invariant.
    unfold setupStructure. inv_auto. }
  inv_auto.
Qed.

Lemma runFrame_invariant (env : Env) (id : Z) (timestamp : Q) (w : Widget) :
  loopInvariant w -> loopInvariant (runFrame env id timestamp w).
Proof.
  intros H. unfold runFrame.
  destruct (List.find _ (frames w)) as [[id' cb]|] eqn:Hfind; [|exact H].
  apply List.find_some in Hfind as [Hin Heq]. cbn in Heq.
  apply Z.eqb_eq in Heq. subst id'.
  destruct cb; cbn [runCallback].
  - apply animate_invariant; [apply framesOk_cancel, H|].
    rewrite animateFrames_cancel.
    assert (Hin' : In (id, CbAnimate) (animateFrames w)).
    { apply List.filter_In. split; [exact Hin | reflexivity]. }
    destruct H as [_ [Hnone|(_ & id' & _ & Hone)]].
    + rewrite Hnone in Hin'. destruct Hin'.
    + rewrite Hone in Hin' |- *. destruct Hin' as [[= ->]|[]].
      cbn. now rewrite Z.eqb_refl.
  - apply momentumAnimation_invariant, cancel_invariant, H.
  - apply measureCallback_invariant, cancel_invariant, H.
Qed.

Lemma step_invariant (env : Env) (e : Event) (w : Widget) :
  loopInvariant w -> loopInvariant (step env e w).
Proof.
  intros H. destruct e; cbn [step].
  - now apply initResume_invariant.
  - unfold initBegin. inv_auto.
  - now apply destroy_invariant.
  - unfold updateConfig, reinitialize. apply destroy_invariant. inv_auto.
  - now apply runFrame_invariant.
  - inv_auto.
  - inv_auto.
  - unfold handlePointerDown, track. inv_auto.
  - unfold handlePointerMove, updateTransform. inv_auto.
  - unfold handlePointerUp, track, addMomentum.
    inv_auto; try apply momentumAnimation_invariant; inv_auto.
  - unfold dragTimer. inv_auto.
  - unfold handleKeyDown. inv_auto; apply navigateTo_invariant; inv_auto.
  - now apply navigateTo_invariant.
  - now apply navigateTo_invariant.
  - unfold handlePlayPauseClick. inv_auto.
  - unfold handleIntersection. inv_auto.
  - unfold handleResize.
    assert (H1 : loopInvariant (createClones (measureDimensions w)))
      by now apply createClones_invariant, measureDimensions_invariant.
    inv_auto.
  - unfold handleVisibilityChange. inv_auto.
  - unfold handleMotionChange, enableStaticMode, disableStaticMode. inv_auto.
  - inv_auto.
  - inv_auto.
  - inv_auto.
  - now apply navigateTo_invariant.
  - now apply destroy_invariant.
Qed.

Lemma run_invariant (events : list (Env * Event)) (w : Widget) :
  loopInvariant w -> loopInvariant (run events w).
Proof.
  revert w. induction events as [|[env e] rest IH]; intros w H; cbn; [exact H|].
  now apply IH, step_invariant.
Qed.

Lemma construct_invariant (el : Element) (env : Env) (w : Widget) :
  construct el env = Built w -> loopInvariant w.
Proof.
  unfold construct. destruct (negb (hasTrack el) || negb (hasContent el)); [discriminate|].
  intros [= <-]. split; [split; [reflexivity | constructor] | now left].
Qed.

Lemma reachable_invariant (w : Widget) : reachable w -> loopInvariant w.
Proof.
  intros (el & env & events & w0 & Hc & <-).
  apply run_invariant. eapply construct_invariant, Hc.
Qed.

(** What a [play] that passes its guard leaves behind. *)
Lemma play_starts (env : Env) (w : Widget) :
  initialized (state w) = true ->
  playing (state w) = false ->
  reducedMotion (config w) = false ->
  frames (play env w) = frames w ++ [(nextFrame w, CbAnimate)]
  /\ nextFrame (play env w) = (nextFrame w + 1)%Z
  /\ animationId (state (play env w)) = Some (nextFrame w)
  /\ playing (state (play env w)) = true.
Proof.
  intros Hi Hp Hr. unfold play. rewrite Hi, Hp, Hr. cbn [negb orb].
  unfold animate. cbn [with_state state set_lastTimestamp set_playing playing negb].
  match goal with |- context [wrapOffset env ?x] =>
    pose proof (wrapOffset_core env x) as Hc; set (w1 := wrapOffset env x) in * end.
  injection Hc as Hn Hf Hpl _. cbn. rewrite Hn, Hf, Hpl. cbn. auto.
Qed.

Lemma play_idle (env : Env) (w : Widget) :
  playing (state w) = true -> play env w = w.
Proof. intros Hp. unfold play. rewrite Hp, orb_true_r. reflexivity. Qed.

Lemma pause_idle (w : Widget) : playing (state w) = false -> pause w = w.
Proof. intros Hp. unfold pause. now rewrite Hp. Qed.

Lemma filter_fresh (n : Z) (l : list (Z * Callback)) :
  Forall (fun p => (0 < fst p < n)%Z) l ->
  List.filter (fun p => negb (fst p =? n)%Z) l = l.
Proof.
  intros H. apply filter_id_Forall. eapply List.Forall_impl; [|exact H].
  cbn. intros p Hp. apply negb_true_iff, Z.eqb_neq. lia.
Qed.



Lemma scrolling_reachable : reachable scrolling.
Proof.
  exists plainElement, desktopEnv,
    [(desktopEnv, EvInitResume [100; 100]); (desktopEnv, EvFrame 1 0);
     (desktopEnv, EvIntersection true); (desktopEnv, EvMouseEnter);
     (desktopEnv, EvMouseLeave)], (freshWidget desktopEnv).
  split; vm_compute; reflexivity.
Defined.


Example scrolling_loop : animateFrames scrolling = [(2%Z, CbAnimate)].
Proof. vm_compute. reflexivity. Qed.

Lemma flung_reachable : reachable flung.
Proof.
  exists plainElement, desktopEnv,
    [(desktopEnv, EvInitResume [100; 100]); (desktopEnv, EvFrame 1 0);
     (desktopEnv, EvIntersection true); (desktopEnv, EvMouseEnter);
     (desktopEnv, EvMouseLeave);
     (desktopEnv, EvPointerDown 0 false); (desktopEnv, EvPointerMove 600);
     (desktopEnv, EvPointerUp); (desktopEnv, EvDragTimer)], (freshWidget desktopEnv).
  split; vm_compute; reflexivity.
Qed.

(** C3 fails as stated.  After a fling and the timer that resumes
    autoplay, the request of the momentum closure is pending beside the
    request of the frame loop, and both go on requesting frames; [play]
    followed at once by [pause] leaves the momentum request pending. *)
Lemma momentum_loop_beside_frame_loop :
  reachable flung
  /\ playing (state flung) = true
  /\ frames flung = [(3%Z, CbMomentum ((600 - 0) * 0.1 * 0.95)); (4%Z, CbAnimate)]
  /\ frames (runFrame desktopEnv 4 16 (runFrame desktopEnv 3 16 flung))
     = [(5%Z, CbMomentum ((600 - 0) * 0.1 * 0.95 * 0.95)); (6%Z, CbAnimate)]
  /\ frames (pause (play desktopEnv flung))
     = [(3%Z, CbMomentum ((600 - 0) * 0.1 * 0.95))]
  /\ frames (pause (play desktopEnv flung)) <> [].
Proof.
  split; [exact flung_reachable|].
  split; [vm_compute; reflexivity|].
  split; [vm_compute; reflexivity|].
  split; [vm_compute; reflexivity|].
  split; [vm_compute; reflexivity|].
  vm_compute. discriminate.
Qed.

(** *** The offset and the wrap period *)

Lemma measured_velocity_bounds (w : Widget) :
  0 <= baseWidth (state w) -> measured w ->
  0 <= velocity (state w) /\ velocity (state w) <= baseWidth (state w).
Proof.
  unfold measured. intros Hb Hv.
  pose proof (velocityDivisor_ge_1 (config w)) as Hd.
  set (d := velocityDivisor (config w)) in *.
  set (b := baseWidth (state w)) in *.
  assert (Hvd : velocity (state w) * d == b).
  { rewrite Hv. field. lra. }
  assert (H0 : 0 <= velocity (state w)).
  { rewrite Hv. apply Qle_shift_div_l; lra. }
  split; [exact H0|]. nra.
Qed.

Lemma deltaTime_bounds (timestamp last : Q) :
  last <= timestamp ->
  0 <= Qmin ((timestamp - last) / 1000) (1 / 30)
  /\ Qmin ((timestamp - last) / 1000) (1 / 30) <= 1 / 30.
Proof.
  intros H. split.
  - apply Q.min_glb; [|unfold Qle; cbn; lia]. apply Qle_shift_div_l; lra.
  - apply Q.le_min_r.
Qed.

(** What a frame of a playing widget does to the offset. *)
Lemma animate_offset (env : Env) (timestamp : Q) (w : Widget) :
  playing (state w) = true ->
  let x := offset (state w)
           + frameVelocity env w
             * Qmin ((timestamp - lastTimestamp (state w)) / 1000) (1 / 30) in
  let wp := wrapPoint env w in
  offset (state (animate env timestamp w)) =
    (if String.eqb (direction (config w)) "left"
     then if Qle_bool x (- wp) then x + wp else x
     else if Qle_bool wp x then x - wp else x).
Proof.
  intros Hp. unfold animate. rewrite Hp. cbn [negb].
  unfold wrapOffset, wrapPoint, frameVelocity.
  cbn [with_state state set_lastTimestamp set_offset config offset baseWidth velocity].
  case_tests; reflexivity.
Qed.

Lemma animate_unchanged (env : Env) (timestamp : Q) (w : Widget) :
  config (animate env timestamp w) = config w
  /\ baseWidth (state (animate env timestamp w)) = baseWidth (state w)
  /\ velocity (state (animate env timestamp w)) = velocity (state w).
Proof.
  unfold animate, wrapOffset. case_tests; auto.
Qed.

Lemma animate_lastTimestamp (env : Env) (timestamp : Q) (w : Widget) :
  lastTimestamp (state (animate env timestamp w)) =
  if playing (state w) then timestamp else lastTimestamp (state w).
Proof.
  unfold animate, wrapOffset.
  destruct (playing (state w)); cbn [negb]; case_tests; reflexivity.
Qed.

Section OneFrame.
Variable env : Env.
Variable w : Widget.
Hypothesis ltr : String.eqb (docDir env) "rtl" = false.
Hypothesis width_pos : 0 < baseWidth (state w).
Hypothesis gap_nonneg : 0 <= activeGap env (config w).
Hypothesis is_measured : measured w.

Lemma frame_step_bounds (timestamp : Q) :
  lastTimestamp (state w) <= timestamp ->
  let dt := Qmin ((timestamp - lastTimestamp (state w)) / 1000) (1 / 30) in
  0 <= velocity (state w) * dt /\ velocity (state w) * dt < wrapPoint env w.
Proof.
  intros Ht dt.
  destruct (deltaTime_bounds timestamp (lastTimestamp (state w)) Ht) as [Hd0 Hd1].
  fold dt in Hd0, Hd1.
  destruct (measured_velocity_bounds w) as [Hv0 Hv1]; [lra | exact is_measured |].
  unfold wrapPoint.
  set (v := velocity (state w)) in *. set (b := baseWidth (state w)) in *.
  assert (H30 : 1 / 30 == 1 # 30) by reflexivity.
  rewrite H30 in Hd1.
  split; [nra|].
  assert (v * dt <= b * (1 # 30)) by nra.
  lra.
Qed.

(** A frame keeps the offset in the travelled period. *)
Lemma animate_in_period (timestamp : Q) :
  lastTimestamp (state w) <= timestamp ->
  offsetInPeriod env w -> offsetInPeriod env (animate env timestamp w).
Proof.
  intros Ht Hin.
  destruct (playing (state w)) eqn:Hp.
  2:{ unfold animate. rewrite Hp. exact Hin. }
  destruct (frame_step_bounds timestamp Ht) as [Hs0 Hs1].
  unfold offsetInPeriod in *.
  destruct (animate_unchanged env timestamp w) as (Hc & Hb & _).
  unfold wrapPoint in *. rewrite Hc, Hb.
  rewrite (animate_offset env timestamp w Hp). unfold wrapPoint, frameVelocity.
  rewrite ltr.
  set (s := velocity (state w) * Qmin _ _) in *.
  set (wp := baseWidth (state w) + activeGap env (config w)) in *.
  set (x := offset (state w)) in *.
  destruct (String.eqb (direction (config w)) "left").
  - assert (Hx : x + -1 * 1 * velocity (state w)
                     * Qmin ((timestamp - lastTimestamp (state w)) / 1000) (1 / 30)
                 == x - s) by (subst s; ring).
    destruct (Qle_bool _ (- wp)) eqn:E.
    + apply Qle_bool_iff in E. rewrite Hx in E |- *. lra.
    + apply Qle_bool_gt in E. rewrite Hx in E |- *. lra.
  - assert (Hx : x + 1 * 1 * velocity (state w)
                     * Qmin ((timestamp - lastTimestamp (state w)) / 1000) (1 / 30)
                 == x + s) by (subst s; ring).
    destruct (Qle_bool wp _) eqn:E.
    + apply Qle_bool_iff in E. rewrite Hx in E |- *. lra.
    + apply Qle_bool_gt in E. rewrite Hx in E |- *. lra.
Qed.
End OneFrame.

Lemma offsetInPeriod_within (env : Env) (w : Widget) :
  offsetInPeriod env w -> offsetWithinWrap env w.
Proof.
  unfold offsetInPeriod, offsetWithinWrap. intros H.
  split; [apply Qabs_nonneg|]. apply Qabs_Qlt_condition.
  destruct (String.eqb (direction (config w)) "left"); lra.
Qed.

Lemma ascending_from (t t' : Q) (l : list Q) :
  t <= t' -> ascending t' l -> ascending t l.
Proof. destruct l as [|x l]; cbn; [tauto|]. intros H [H1 H2]. split; [lra|exact H2]. Qed.

(** C1, as the code has it.  On a left-to-right page, for a measured
    carousel of positive width and non-negative gap whose offset lies in
    the period on the side it travels to, every run of autoplay frames
    with time stamps that never go back keeps the offset in that period,
    hence [0 <= |offset| < wrapDistance] after each frame's wrap
    correction.  Pointer drags and momentum are not covered: they add to
    the offset with no wrap correction. *)
Theorem autoplay_offset_within_wrap (env : Env) (timestamps : list Q) (w : Widget) :
  String.eqb (docDir env) "rtl" = false ->
  0 < baseWidth (state w) ->
  0 <= activeGap env (config w) ->
  measured w ->
  offsetInPeriod env w ->
  ascending (lastTimestamp (state w)) timestamps ->
  offsetInPeriod env (animateAll env timestamps w)
  /\ offsetWithinWrap env (animateAll env timestamps w).
Proof.
  intros Hltr. revert w.
  induction timestamps as [|t rest IH]; intros w Hb Hg Hm Hin Hasc; cbn.
  - split; [exact Hin | now apply offsetInPeriod_within].
  - destruct Hasc as [Ht Hrest].
    destruct (animate_unchanged env t w) as (Hc & Hbw & Hv).
    apply IH.
    + now rewrite Hbw.
    + now rewrite Hc.
    + unfold measured. now rewrite Hc, Hbw, Hv.
    + now apply animate_in_period.
    + rewrite animate_lastTimestamp. destruct (playing (state w)); [exact Hrest|].
      now apply ascending_from with t.
Qed.

Lemma autoplay_offset_within_wrap_witness :
  offsetInPeriod desktopEnv (animateAll desktopEnv [16; 32; 48] scrolling)
  /\ offsetWithinWrap desktopEnv (animateAll desktopEnv [16; 32; 48] scrolling).
Proof.
  apply (autoplay_offset_within_wrap desktopEnv [16; 32; 48] scrolling).
  - reflexivity.
  - vm_compute. reflexivity.
  - vm_compute. discriminate.
  - vm_compute. reflexivity.
  - vm_compute. split; [reflexivity | discriminate].
  - vm_compute. repeat split; discriminate.
Defined.

Lemma afterFling_reachable : reachable afterFling.
Proof.
  exists plainElement, desktopEnv,
    [(desktopEnv, EvInitResume [100; 100]); (desktopEnv, EvFrame 1 0);
     (desktopEnv, EvIntersection true); (desktopEnv, EvMouseEnter);
     (desktopEnv, EvMouseLeave);
     (desktopEnv, EvPointerDown 0 false); (desktopEnv, EvPointerMove 600);
     (desktopEnv, EvPointerUp); (desktopEnv, EvDragTimer);
     (desktopEnv, EvFrame 4 16)], (freshWidget desktopEnv).
  split; vm_compute; reflexivity.
Defined.

(** C1 fails as stated.  A drag of 600 px to the right on a carousel
    that scrolls left, released, resumed by the timer: the next frame of
    the loop (16 ms later, positive width 224, wrap distance 248) leaves
    the offset above 659 after its wrap correction. *)
Lemma fling_leaves_wrap_period :
  reachable afterFling
  /\ afterFling = animate desktopEnv 16 (cancelAnimationFrame 4 flung)
  /\ playing (state flung) = true
  /\ lastTimestamp (state flung) <= 16
  /\ 0 < baseWidth (state afterFling)
  /\ wrapPoint desktopEnv afterFling == 248
  /\ 659 < offset (state afterFling)
  /\ ~ offsetWithinWrap desktopEnv afterFling.
Proof.
  split; [exact afterFling_reachable|].
  split; [vm_compute; reflexivity|].
  split; [vm_compute; reflexivity|].
  split; [vm_compute; discriminate|].
  split; [vm_compute; reflexivity|].
  split; [vm_compute; reflexivity|].
  split; [vm_compute; reflexivity|].
  intros [_ H]. vm_compute in H. discriminate H.
Qed.

(** The drag alone already does it, before any frame. *)
Example drag_leaves_wrap_period :
  ~ offsetWithinWrap desktopEnv
      (run [(desktopEnv, EvPointerDown 0 false); (desktopEnv, EvPointerMove 600)]
           scrolling).
Proof. intros [_ H]. vm_compute in H. discriminate H. Qed.

(** On a right-to-left page the frame velocity of a left-scrolling
    carousel is positive while [wrapOffset] still only tests the
    negative side: forty autoplay frames take the offset past the wrap
    distance. *)
Example rtl_autoplay_leaves_wrap_period :
  wrapPoint rtlEnv rtlScrolling == 248
  /\ offset (state (animateAll rtlEnv fortyFrames rtlScrolling)) == 896 # 3
  /\ ~ offsetWithinWrap rtlEnv (animateAll rtlEnv fortyFrames rtlScrolling).
Proof.
  split; [vm_compute; reflexivity|]. split; [vm_compute; reflexivity|].
  intros [_ H]. vm_compute in H. discriminate H.
Qed.

(** C7 fails as stated.  An initialised, visible, paused instance under
    the reduced-motion preference stays paused when space is pressed. *)
Lemma space_key_under_reduced_motion :
  initialized (state motionless) = true
  /\ keyboardEnabled (config motionless) = true
  /\ playing (state motionless) = false
  /\ playing (state (handleKeyDown reducedMotionEnv " " motionless)) = false.
Proof. vm_compute. repeat split. Qed.

Lemma space_key_play_pause_witness :
  (playing (state scrolling) = true ->
     playing (state (handleKeyDown desktopEnv " " scrolling)) = false)
  /\ (playing (state scrolling) = false ->
      initialized (state scrolling) = true ->
      autoplay (config scrolling) = true ->
      visible (state scrolling) = true ->
      reducedMotion (config scrolling) = false ->
      playing (state (handleKeyDown desktopEnv " " scrolling)) = true)
  /\ (playing (state scrolling) = false ->
      reducedMotion (config scrolling) = true ->
      handleKeyDown desktopEnv " " scrolling = scrolling).
Proof. apply (space_key_play_pause desktopEnv scrolling). reflexivity. Defined.

(** With autoplay off the space key does not start a paused instance,
    while the play-pause control does. *)
Example space_key_autoplay_off :
  playing (state manual) = false
  /\ playing (state (handleKeyDown desktopEnv " " manual)) = false
  /\ playing (state (handlePlayPauseClick desktopEnv manual)) = true.
Proof. vm_compute. repeat split. Qed.


(** It fails for a target that is not a number as well: NaN is stored,
    the arrow keys keep it, and only Home or End bring a slide position
    back. *)
Example navigation_to_NaN :
  let lost := navigateTo (NavNumber NaN) twoSlides in
  currentSlideIndex (state lost) = NaN
  /\ currentSlideIndex (state (navigateTo NavOther twoSlides)) = NaN
  /\ currentSlideIndex (state (handleKeyDown desktopEnv "ArrowLeft" lost)) = NaN
  /\ currentSlideIndex (state (handleKeyDown desktopEnv "ArrowRight" lost)) = NaN
  /\ tabStop (dom lost) = None
  /\ currentSlideIndex (state (handleKeyDown desktopEnv "Home" lost)) = Finite 0.
Proof. vm_compute. repeat split. Qed.

(** A number between two slide positions is stored as it is. *)
Example navigation_between_slides :
  currentSlideIndex (state (navigateTo (NavNumber (Finite 0.5)) twoSlides)) = Finite 0.5
  /\ tabStop (dom (navigateTo (NavNumber (Finite 0.5)) twoSlides)) = None
  /\ currentSlideIndex (state (navigateTo (NavNumber (Infinity false)) twoSlides))
     = Finite 1.
Proof. vm_compute. repeat split. Qed.


Lemma measure_without_slides_witness :
  (forall c : Config, 1 <= velocityDivisor c /\ ~ velocityDivisor c == 0)
  /\ baseWidth (state (measureCallback desktopEnv noSlides)) = 0
  /\ velocity (state (measureCallback desktopEnv noSlides)) == 0
  /\ (forall env' w', baseWidth (state (measureCallback env' w')) == 0 ->
                      velocity (state (measureCallback env' w')) == 0).
Proof. apply (measure_without_slides desktopEnv noSlides). reflexivity. Defined.

(** *** Momentum after a release *)

Lemma momentumAnimation_stop (m : Q) (w : Widget) :
  Qabs m < 0.1 -> momentumAnimation m w = w.
Proof. intros H. unfold momentumAnimation. apply Qltb_lt in H. now rewrite H. Qed.

Lemma momentumAnimation_go (m : Q) (w : Widget) :
  0.1 <= Qabs m ->
  offset (state (momentumAnimation m w)) = offset (state w) + m
  /\ transform (dom (momentumAnimation m w)) = Some (offset (state w) + m)
  /\ frames (momentumAnimation m w) = frames w ++ [(nextFrame w, CbMomentum (m * 0.95))]
  /\ nextFrame (momentumAnimation m w) = (nextFrame w + 1)%Z.
Proof.
  intros H. unfold momentumAnimation. apply Qltb_ge in H. rewrite H.
  repeat split.
Qed.

(** The frame a momentum step requests runs the closure again, with
    the momentum the step left. *)
Lemma runFrame_momentum (env : Env) (timestamp m : Q) (w : Widget) :
  framesOk w -> 0.1 <= Qabs m ->
  let w' := momentumAnimation m w in
  runFrame env (nextFrame w) timestamp w'
  = momentumAnimation (m * 0.95) (cancelAnimationFrame (nextFrame w) w')
  /\ frames (cancelAnimationFrame (nextFrame w) w') = frames w.
Proof.
  intros [Hn HF] Hm w'.
  destruct (momentumAnimation_go m w Hm) as (_ & _ & Hf & _). fold w' in Hf.
  assert (Hfind : List.find (fun p => (fst p =? nextFrame w)%Z) (frames w')
                  = Some (nextFrame w, CbMomentum (m * 0.95))).
  { rewrite Hf. clear Hf. induction HF as [|p l Hp Hl IH]; cbn.
    - now rewrite Z.eqb_refl.
    - destruct (Z.eqb_spec (fst p) (nextFrame w)); [lia | exact IH]. }
  split.
  - unfold runFrame. rewrite Hfind. reflexivity.
  - cbn [cancelAnimationFrame frames]. rewrite Hf, List.filter_app, filter_fresh by exact HF.
    cbn. rewrite Z.eqb_refl. apply app_nil_r.
Qed.

Lemma dragVelocity_abs (w : Widget) :
  Qabs ((lastX (state w) - startX (state w)) * 0.1) == dragDistance w * 0.1.
Proof. unfold dragDistance. rewrite Qabs_Qmult. reflexivity. Qed.

(** [handlePointerUp] on a dragging widget, unfolded. *)
Lemma handlePointerUp_dragging (w : Widget) :
  dragging (state w) = true ->
  let w1 := with_dom (set_cursor "")
              (with_dom (set_classes (classList_remove "rbc-dragging"))
                 (with_state (set_dragging false) w)) in
  handlePointerUp w =
  track (TrackDragEnd (dragDistance w))
        (if Qltb 50 (dragDistance w) then addMomentum w1 else w1).
Proof. intros Hd. unfold handlePointerUp. rewrite Hd. reflexivity. Qed.



(** A drag of 30 units: no momentum frame.  A drag of 80 units: the
    first momentum step is taken and the next one requested. *)
Example release_after_30 :
  dragDistance (draggedTo 130) == 30
  /\ frames (handlePointerUp (draggedTo 130)) = frames (draggedTo 130)
  /\ momentumFrames 0 0 = Some [].
Proof. vm_compute. repeat split. Qed.

Example release_after_80 :
  dragDistance (draggedTo 180) == 80
  /\ frames (handlePointerUp (draggedTo 180))
     = frames (draggedTo 180) ++ [(nextFrame (draggedTo 180), CbMomentum ((180 - 100) * 0.1 * 0.95))]
  /\ option_map (@length Q) (momentumFrames 100 8) = Some 86%nat.
Proof. vm_compute. repeat split. Qed.

(** The loop stops within [fuel] frames once [190 |m| < fuel + 19]:
    [0.95 ^ k <= 19 / (19 + k)]. *)
Lemma momentumFrames_stops (fuel : nat) :
  forall m : Q,
    190 * Qabs m < inject_Z (Z.of_nat fuel) + 19 ->
    exists l, momentumFrames fuel m = Some l
              /\ (length l <= fuel)%nat
              /\ decaying l
              /\ Forall (fun x => 0.1 <= Qabs x) l
              /\ match l with [] => Qabs m < 0.1 | x :: _ => x = m end.
Proof.
  induction fuel as [|fuel IH]; intros m Hm.
  - exists []. change (inject_Z (Z.of_nat 0)) with 0 in Hm.
    assert (H : Qabs m < 0.1) by lra.
    cbn. rewrite (proj2 (Qltb_lt _ _) H). repeat split; auto.
  - cbn [momentumFrames]. destruct (Qltb (Qabs m) 0.1) eqn:E.
    + exists []. apply Qltb_lt in E. repeat split; auto. cbn. lia.
    + apply Qltb_ge in E.
      assert (Habs : Qabs (m * 0.95) == Qabs m * 0.95).
      { rewrite Qabs_Qmult. reflexivity. }
      assert (Hf : inject_Z (Z.of_nat (S fuel)) == inject_Z (Z.of_nat fuel) + 1).
      { rewrite Nat2Z.inj_succ. unfold Z.succ. rewrite inject_Z_plus. reflexivity. }
      assert (H0 : 0 <= inject_Z (Z.of_nat fuel)).
      { change 0 with (inject_Z 0). rewrite <- Zle_Qle. lia. }
      destruct (IH (m * 0.95)) as (l & Hl & Hlen & Hdec & Hall & Hhd).
      { rewrite Habs. rewrite Hf in Hm. lra. }
      exists (m :: l). rewrite Hl. cbn [option_map length].
      split; [reflexivity|]. split; [lia|]. split; [|split; [|reflexivity]].
      * destruct l as [|x l']; [exact I|]. subst x.
        cbn [decaying]. split; [reflexivity|]. split; [|exact Hdec].
        rewrite Habs. lra.
      * constructor; assumption.
Qed.

Lemma momentumFrames_more (fuel fuel' : nat) (m : Q) (l : list Q) :
  momentumFrames fuel m = Some l -> (fuel <= fuel')%nat ->
  momentumFrames fuel' m = Some l.
Proof.
  revert fuel' m l. induction fuel as [|fuel IH]; intros fuel' m l H Hle.
  - cbn in H. destruct (Qltb (Qabs m) 0.1) eqn:E; [|discriminate].
    destruct fuel'; cbn; now rewrite E.
  - destruct fuel' as [|fuel']; [lia|]. cbn [momentumFrames] in *.
    destruct (Qltb (Qabs m) 0.1); [exact H|].
    destruct (momentumFrames fuel (m * 0.95)) as [l'|] eqn:E; [|discriminate].
    rewrite (IH fuel' _ l' E); [exact H | lia].
Qed.

Lemma momentumBound_enough (d : Q) :
  19 * d < inject_Z (Z.of_nat (momentumBound d)) + 19.
Proof.
  unfold momentumBound.
  pose proof (Qle_ceiling (19 * d)) as Hc.
  assert (H : inject_Z (Qceiling (19 * d)) <= inject_Z (Z.of_nat (Z.to_nat (Qceiling (19 * d))))).
  { rewrite <- Zle_Qle. lia. }
  lra.
Qed.

Lemma track_momentumAnimation (e : AnalyticsEvent) (m : Q) (w : Widget) :
  track e (momentumAnimation m w) = momentumAnimation m (track e w).
Proof. unfold momentumAnimation. destruct (Qltb (Qabs m) 0.1); reflexivity. Qed.

Lemma find_isMomentum_last (pre : list (Z * Callback)) (id : Z) (m : Q) :
  List.find isMomentum pre = None ->
  List.find isMomentum (pre ++ [(id, CbMomentum m)]) = Some (id, CbMomentum m).
Proof.
  induction pre as [|p pre IH]; cbn; [reflexivity|].
  destruct (isMomentum p); [discriminate | exact IH].
Qed.

(** The momentum loop on the widget: from a widget with no momentum
    request pending, the closure called with [m] and then the frames it
    requests, run by the browser, stop within [fuel] frames and leave
    the offset moved by the sum of the decaying sequence. *)
Lemma runMomentum_settles (env : Env) (fuel : nat) :
  forall (m : Q) (w l : _),
    framesOk w ->
    List.find isMomentum (frames w) = None ->
    momentumFrames fuel m = Some l ->
    exists w', runMomentum fuel env (momentumAnimation m w) = Some w'
               /\ offset (state w') == offset (state w) + total l
               /\ List.find isMomentum (frames w') = None
               /\ frames w' = frames w.
Proof.
  induction fuel as [|fuel IH]; intros m w l Hok Hnone Hl.
  - cbn in Hl. destruct (Qltb (Qabs m) 0.1) eqn:E; [|discriminate].
    injection Hl as <-. apply Qltb_lt in E.
    rewrite (momentumAnimation_stop m w E). exists w. cbn. rewrite Hnone.
    repeat split; auto. lra.
  - cbn [momentumFrames] in Hl. destruct (Qltb (Qabs m) 0.1) eqn:E.
    + injection Hl as <-. apply Qltb_lt in E.
      rewrite (momentumAnimation_stop m w E). exists w. cbn. rewrite Hnone.
      repeat split; auto. lra.
    + apply Qltb_ge in E.
      destruct (momentumFrames fuel (m * 0.95)) as [l'|] eqn:El'; [|discriminate].
      injection Hl as <-.
      destruct (momentumAnimation_go m w E) as (Ho & _ & Hf & Hn).
      destruct (runFrame_momentum env (perfNow env) m w Hok E) as [Hrun Hfr].
      set (w1 := momentumAnimation m w) in *.
      set (w2 := cancelAnimationFrame (nextFrame w) w1) in *.
      assert (Hok2 : framesOk w2).
      { destruct Hok as [H0 HF]. split.
        - subst w2. cbn [cancelAnimationFrame nextFrame]. rewrite Hn. lia.
        - rewrite Hfr. subst w2. cbn [cancelAnimationFrame nextFrame]. rewrite Hn.
          eapply List.Forall_impl; [|exact HF]. cbn. lia. }
      destruct (IH (m * 0.95) w2 l' Hok2) as (w' & Hw' & Hoff & Hnone' & Hfr');
        [now rewrite Hfr | exact El' |].
      exists w'. cbn [runMomentum]. rewrite Hf, (find_isMomentum_last _ _ _ Hnone).
      rewrite Hrun. split; [exact Hw'|]. split; [|split; [exact Hnone'|]].
      * rewrite Hoff. subst w2. cbn [cancelAnimationFrame state]. rewrite Ho.
        cbn [total fold_right]. fold (total l'). ring.
      * now rewrite Hfr', Hfr.
Qed.

Lemma find_request (cb : Callback) (w : Widget) :
  framesOk w ->
  List.find (fun p => (fst p =? nextFrame w)%Z) (frames w ++ [(nextFrame w, cb)])
  = Some (nextFrame w, cb).
Proof.
  intros [_ HF]. induction HF as [|p l Hp Hl IH]; cbn.
  - now rewrite Z.eqb_refl.
  - destruct (Z.eqb_spec (fst p) (nextFrame w)); [lia | exact IH].
Qed.

(** The loop of one closure on the widget, whatever else is pending:
    the closure called with [m], at least 0.1 in magnitude, and then the
    frames it requests, stops within the frames its sequence allows and
    leaves the offset moved by the sum of the sequence. *)
Lemma followMomentum_settles (env : Env) (fuel : nat) :
  forall (m : Q) (w : Widget) (l : list Q),
    framesOk w ->
    0.1 <= Qabs m ->
    momentumFrames fuel (m * 0.95) = Some l ->
    exists w', followMomentum (S fuel) env (nextFrame w) (momentumAnimation m w)
               = Some (l, w')
               /\ offset (state w') == offset (state w) + m + total l
               /\ frames w' = frames w
               /\ framesOk w'.
Proof.
  induction fuel as [|fuel IH]; intros m w l Hok Hm Hl.
  - destruct (momentumAnimation_go m w Hm) as (Ho & _ & Hf & Hn).
    destruct (runFrame_momentum env (perfNow env) m w Hok Hm) as [Hrun Hfr].
    cbn [momentumFrames] in Hl.
    destruct (Qltb (Qabs (m * 0.95)) 0.1) eqn:E; [|discriminate].
    injection Hl as <-.
    exists (cancelAnimationFrame (nextFrame w) (momentumAnimation m w)).
    cbn [followMomentum]. rewrite Hf, (find_request _ w Hok), E, Hrun.
    rewrite momentumAnimation_stop by now apply Qltb_lt.
    split; [reflexivity|]. split; [|split; [exact Hfr|]].
    + cbn [cancelAnimationFrame state]. rewrite Ho. cbn. ring.
    + destruct Hok as [H0 HF]. split.
      * cbn [cancelAnimationFrame nextFrame]. rewrite Hn. lia.
      * rewrite Hfr. cbn [cancelAnimationFrame nextFrame]. rewrite Hn.
        eapply List.Forall_impl; [|exact HF]. cbn. lia.
  - destruct (momentumAnimation_go m w Hm) as (Ho & _ & Hf & Hn).
    destruct (runFrame_momentum env (perfNow env) m w Hok Hm) as [Hrun Hfr].
    set (w1 := momentumAnimation m w) in *.
    set (w2 := cancelAnimationFrame (nextFrame w) w1) in *.
    assert (Hok2 : framesOk w2).
    { destruct Hok as [H0 HF]. split.
      - subst w2. cbn [cancelAnimationFrame nextFrame]. rewrite Hn. lia.
      - rewrite Hfr. subst w2. cbn [cancelAnimationFrame nextFrame]. rewrite Hn.
        eapply List.Forall_impl; [|exact HF]. cbn. lia. }
    cbn [momentumFrames] in Hl.
    change (followMomentum (S (S fuel)) env (nextFrame w) w1) with
      (match List.find (fun p => (fst p =? nextFrame w)%Z) (frames w1) with
       | Some (_, CbMomentum x) =>
           let w' := runFrame env (nextFrame w) (perfNow env) w1 in
           if Qltb (Qabs x) 0.1 then Some ([], w')
           else option_map (fun r => (x :: fst r, snd r))
                  (followMomentum (S fuel) env (nextFrame w1) w')
       | _ => None
       end).
    rewrite Hf, (find_request _ w Hok). cbv zeta. rewrite Hrun.
    destruct (Qltb (Qabs (m * 0.95)) 0.1) eqn:E.
    + injection Hl as <-. exists w2.
      rewrite momentumAnimation_stop by now apply Qltb_lt.
      split; [reflexivity|]. split; [|split; [exact Hfr | exact Hok2]].
      subst w2. cbn [cancelAnimationFrame state]. rewrite Ho. cbn. ring.
    + apply Qltb_ge in E.
      destruct (momentumFrames fuel (m * 0.95 * 0.95)) as [l'|] eqn:El'; [|discriminate].
      injection Hl as <-.
      destruct (IH (m * 0.95) w2 l' Hok2 E El') as (w' & Hw' & Hoff & Hfr' & Hok').
      assert (Hn2 : nextFrame w2 = nextFrame w1) by reflexivity.
      rewrite <- Hn2, Hw'. exists w'. cbn [option_map fst snd].
      split; [reflexivity|]. split; [|split; [now rewrite Hfr' | exact Hok']].
      rewrite Hoff. subst w2. cbn [cancelAnimationFrame state]. rewrite Ho.
      cbn [total fold_right]. fold (total l'). ring.
Qed.

(** With no other momentum request pending, running the momentum
    requests is following the one loop. *)
Lemma runMomentum_follow (env : Env) (fuel : nat) :
  forall (m : Q) (w : Widget) (l : list Q) (w' : Widget),
    framesOk w ->
    0.1 <= Qabs m ->
    List.find isMomentum (frames w) = None ->
    followMomentum (S fuel) env (nextFrame w) (momentumAnimation m w) = Some (l, w') ->
    runMomentum (S fuel) env (momentumAnimation m w) = Some w'.
Proof.
  induction fuel as [|fuel IH]; intros m w l w' Hok Hm Hnone Hfol;
    destruct (momentumAnimation_go m w Hm) as (Ho & _ & Hf & Hn);
    destruct (runFrame_momentum env (perfNow env) m w Hok Hm) as [Hrun Hfr];
    set (w1 := momentumAnimation m w) in *;
    set (w2 := cancelAnimationFrame (nextFrame w) w1) in *;
    assert (Hnone2 : List.find isMomentum (frames w2) = None) by (now rewrite Hfr).
  - cbn [followMomentum] in Hfol. rewrite Hf, (find_request _ w Hok), Hrun in Hfol.
    cbn [runMomentum]. rewrite Hf, (find_isMomentum_last _ _ _ Hnone), Hrun.
    destruct (Qltb (Qabs (m * 0.95)) 0.1) eqn:E; [|discriminate].
    injection Hfol as <- <-. rewrite momentumAnimation_stop by now apply Qltb_lt.
    now rewrite Hnone2.
  - assert (Hok2 : framesOk w2).
    { destruct Hok as [H0 HF]. split.
      - subst w2. cbn [cancelAnimationFrame nextFrame]. rewrite Hn. lia.
      - rewrite Hfr. subst w2. cbn [cancelAnimationFrame nextFrame]. rewrite Hn.
        eapply List.Forall_impl; [|exact HF]. cbn. lia. }
    change (followMomentum (S (S fuel)) env (nextFrame w) w1) with
      (match List.find (fun p => (fst p =? nextFrame w)%Z) (frames w1) with
       | Some (_, CbMomentum x) =>
           let w' := runFrame env (nextFrame w) (perfNow env) w1 in
           if Qltb (Qabs x) 0.1 then Some ([], w')
           else option_map (fun r => (x :: fst r, snd r))
                  (followMomentum (S fuel) env (nextFrame w1) w')
       | _ => None
       end) in Hfol.
    rewrite Hf, (find_request _ w Hok) in Hfol. cbv zeta in Hfol. rewrite Hrun in Hfol.
    change (runMomentum (S (S fuel)) env w1) with
      (match List.find isMomentum (frames w1) with
       | None => Some w1
       | Some (id, _) => runMomentum (S fuel) env (runFrame env id (perfNow env) w1)
       end).
    rewrite Hf, (find_isMomentum_last _ _ _ Hnone), Hrun.
    destruct (Qltb (Qabs (m * 0.95)) 0.1) eqn:E.
    + injection Hfol as <- <-. rewrite momentumAnimation_stop by now apply Qltb_lt.
      cbn [runMomentum]. now rewrite Hnone2.
    + apply Qltb_ge in E.
      assert (Hn2 : nextFrame w2 = nextFrame w1) by reflexivity.
      rewrite <- Hn2 in Hfol.
      destruct (followMomentum (S fuel) env (nextFrame w2) (momentumAnimation (m * 0.95) w2))
        as [[l0 w0]|] eqn:E0; [|discriminate].
      injection Hfol as <- <-.
      exact (IH (m * 0.95) w2 l0 w0 Hok2 E Hnone2 E0).
Qed.

(** C5.  After a release whose displacement exceeds 50, whatever
    requests are pending, the momentum values added to the offset form
    a sequence in which each value is 0.95 times the one before and
    strictly smaller in magnitude; the loop stops, at the first value
    below 0.1 in magnitude, within [momentumBound] frames of the
    release: the frames the closure requests add the values of the
    sequence one by one, leave the offset moved by its sum and every
    other request pending as it was.  When no earlier momentum request
    was pending, no momentum request is left. *)
Theorem momentum_decays_and_stops (env : Env) (w : Widget) :
  dragging (state w) = true ->
  framesOk w ->
  50 < dragDistance w ->
  let m := (lastX (state w) - startX (state w)) * 0.1 in
  let bound := momentumBound (dragDistance w) in
  exists l w',
    (forall fuel, (bound <= fuel)%nat -> momentumFrames fuel m = Some l)
    /\ (0 < length l <= bound)%nat
    /\ hd_error l = Some m
    /\ decaying l
    /\ Forall (fun x => 0.1 <= Qabs x) l
    /\ followMomentum bound env (nextFrame w) (handlePointerUp w) = Some (List.tl l, w')
    /\ offset (state w') == offset (state w) + total l
    /\ frames w' = frames w
    /\ (List.find isMomentum (frames w) = None ->
        runMomentum bound env (handlePointerUp w) = Some w'
        /\ List.find isMomentum (frames w') = None).
Proof.
  intros Hdrag Hok Hd m bound.
  assert (Habs : Qabs m == dragDistance w * 0.1) by apply dragVelocity_abs.
  assert (Hm : 0.1 <= Qabs m) by (rewrite Habs; lra).
  destruct (momentumFrames_stops bound m) as (l & Hl & Hlen & Hdec & Hall & Hhd).
  { rewrite Habs. pose proof (momentumBound_enough (dragDistance w)). fold bound in H. lra. }
  destruct l as [|x l']; [exfalso; lra|]. subst x.
  destruct bound as [|b] eqn:Eb; [cbn in Hlen; lia|].
  assert (Hl' : momentumFrames b (m * 0.95) = Some l').
  { cbn [momentumFrames] in Hl. rewrite (proj2 (Qltb_ge _ _) Hm) in Hl.
    destruct (momentumFrames b (m * 0.95)) as [l0|]; [|discriminate].
    injection Hl as <-. reflexivity. }
  pose proof (handlePointerUp_dragging w Hdrag) as Hup. cbv zeta in Hup.
  rewrite (proj2 (Qltb_lt _ _) Hd) in Hup. unfold addMomentum in Hup.
  rewrite track_momentumAnimation in Hup.
  match type of Hup with _ = momentumAnimation ?x ?v =>
    change x with m in Hup; set (u := v) in * end.
  assert (Hoku : framesOk u) by exact Hok.
  destruct (followMomentum_settles env b m u l' Hoku Hm Hl')
    as (w' & Hrun & Hoff & Hfr & _).
  exists (m :: l'), w'. rewrite Hup.
  split; [intros fuel Hle; now apply momentumFrames_more with (S b)|].
  split; [cbn [length] in *; lia|]. split; [reflexivity|].
  split; [exact Hdec|]. split; [exact Hall|].
  split; [exact Hrun|]. split; [|split; [exact Hfr|]].
  - rewrite Hoff. cbn [total fold_right]. fold (total l').
    change (offset (state u)) with (offset (state w)). ring.
  - intros Hnone. split.
    + exact (runMomentum_follow env b m u l' w' Hoku Hm Hnone Hrun).
    + rewrite Hfr. exact Hnone.
Qed.

Lemma momentum_decays_and_stops_witness :
  let w := secondDrag in
  let m := (lastX (state w) - startX (state w)) * 0.1 in
  let bound := momentumBound (dragDistance w) in
  exists l w',
    (forall fuel, (bound <= fuel)%nat -> momentumFrames fuel m = Some l)
    /\ (0 < length l <= bound)%nat
    /\ hd_error l = Some m
    /\ decaying l
    /\ Forall (fun x => 0.1 <= Qabs x) l
    /\ followMomentum bound desktopEnv (nextFrame w) (handlePointerUp w)
       = Some (List.tl l, w')
    /\ offset (state w') == offset (state w) + total l
    /\ frames w' = frames w
    /\ (List.find isMomentum (frames w) = None ->
        runMomentum bound desktopEnv (handlePointerUp w) = Some w'
        /\ List.find isMomentum (frames w') = None).
Proof.
  apply (momentum_decays_and_stops desktopEnv secondDrag).
  - reflexivity.
  - vm_compute. split; [reflexivity | repeat constructor].
  - vm_compute. reflexivity.
Defined.

(** An earlier momentum request is pending at the second release. *)
Example second_release :
  List.find isMomentum (frames secondDrag) = Some (3%Z, CbMomentum ((600 - 0) * 0.1 * 0.95))
  /\ dragDistance secondDrag == 80
  /\ momentumBound (dragDistance secondDrag) = 1520%nat
  /\ frames (handlePointerUp secondDrag)
     = [(3%Z, CbMomentum ((600 - 0) * 0.1 * 0.95));
        (5%Z, CbMomentum ((80 - 0) * 0.1 * 0.95))].
Proof.
  split; [vm_compute; reflexivity|]. split; [vm_compute; reflexivity|].
  split; vm_compute; reflexivity.
Qed.

(** *** Destroying twice *)

(** After a [destroyCarousel] that returned, a second one finds no
    instance and returns the page as it is. *)
Lemma destroyCarousel_second_call (key : nat) (p p' : Page) :
  destroyCarousel key p = Normal p' -> destroyCarousel key p' = Normal p'.
Proof.
  unfold destroyCarousel.
  destruct (instances p !! key) as [i|] eqn:E.
  - destruct (destroyInstance i) as [w|e]; [|discriminate].
    intros [= <-]. cbn [instances]. now rewrite lookup_delete_eq.
  - intros [= <-]. now rewrite E.
Qed.

(** It returns for every element whose instance was fully constructed. *)
Lemma destroyCarousel_built (key : nat) (p : Page) (w : Widget) :
  instances p !! key = Some (Built w) ->
  destroyCarousel key p
  = Normal {| instances := delete key (instances p);
              released := <[key := destroy true w]> (released p) |}.
Proof. intros E. unfold destroyCarousel. now rewrite E. Qed.

Lemma destroyCarousel_partial (key : nat) (p : Page) :
  instances p !! key = Some Partial ->
  destroyCarousel key p = Throw "TypeError: this.state is undefined".
Proof. intros E. unfold destroyCarousel. now rewrite E. Qed.

Lemma construct_trackless (env : Env) : construct trackless env = Partial.
Proof. reflexivity. Qed.

(** C9, at the failing input.  For a wrapper without its track the
    constructor returns early, [initCarousel] registers the object all
    the same, and [destroyCarousel] throws: the object stays registered,
    so every later call throws again. *)
Theorem destroyCarousel_partial_instance :
  instances brokenPage !! 0%nat = Some Partial
  /\ destroyCarousel 0 brokenPage = Throw "TypeError: this.state is undefined"
  /\ (forall p', destroyCarousel 0 brokenPage <> Normal p').
Proof.
  assert (H : instances brokenPage !! 0%nat = Some Partial).
  { unfold brokenPage, initCarousel, emptyPage. cbn [instances].
    rewrite lookup_empty. cbn [instances]. rewrite lookup_insert_eq.
    now rewrite construct_trackless. }
  split; [exact H|]. rewrite (destroyCarousel_partial 0 brokenPage H).
  split; [reflexivity | discriminate].
Qed.

(** For the plain wrapper the two calls behave as the claim says. *)
Example destroyCarousel_live_twice :
  exists p', destroyCarousel 0 livePage = Normal p'
             /\ destroyCarousel 0 p' = Normal p'
             /\ instances p' !! 0%nat = None.
Proof.
  assert (H : instances livePage !! 0%nat = Some (Built (freshWidget desktopEnv))).
  { unfold livePage, initCarousel, emptyPage. cbn [instances].
    rewrite lookup_empty. cbn [instances]. rewrite lookup_insert_eq. reflexivity. }
  eexists. split; [apply (destroyCarousel_built 0 livePage _ H)|].
  split.
  - eapply destroyCarousel_second_call, (destroyCarousel_built 0 livePage _ H).
  - cbn [instances]. apply lookup_delete_eq.
Qed.

(** [destroy] on a paused instance: the state and the frame queue stay,
    the page is reset, the destroy event is dispatched. *)
Lemma destroy_paused (w : Widget) :
  playing (state w) = false ->
  state (destroy true w) = state w
  /\ config (destroy true w) = config w
  /\ frames (destroy true w) = frames w
  /\ nextFrame (destroy true w) = nextFrame w
  /\ cloneNodes (dom (destroy true w)) = (cloneNodes (dom w) - clones (state w))%nat
  /\ cursor (dom (destroy true w)) = ""%string
  /\ transform (dom (destroy true w)) = None
  /\ tracked (dom (destroy true w)) = tracked (dom w)
  /\ dispatched (dom (destroy true w)) = dispatched (dom w) ++ ["rbc:destroy"%string].
Proof.
  intros Hp. unfold destroy. rewrite (pause_idle w Hp). repeat split.
Qed.

Lemma destroy_not_playing (b : bool) (w : Widget) : playing (state (destroy b w)) = false.
Proof. unfold destroy. destruct b; cbn; apply pause_not_playing. Qed.

(** The method itself, called twice on one instance, changes nothing
    the second time except that the destroy event is dispatched again. *)
Lemma destroy_twice (w : Widget) :
  state (destroy true (destroy true w)) = state (destroy true w)
  /\ frames (destroy true (destroy true w)) = frames (destroy true w)
  /\ dispatched (dom (destroy true (destroy true w)))
     = dispatched (dom (destroy true w)) ++ ["rbc:destroy"%string].
Proof.
  pose proof (destroy_paused (destroy true w) (destroy_not_playing true w)) as H.
  tauto.
Qed.

(** *** More on the configuration *)




Example parseConfig_reads_attributes :
  let c := parseConfig {[ "scrollSpeed"%string := "45"%string;
                          "gap"%string := "0"%string;
                          "direction"%string := "right"%string ]} desktopEnv in
  speed c = 45%Z /\ gap c = 24%Z /\ gapMobile c = 16%Z /\ direction c = "right"%string.
Proof. vm_compute. repeat split. Qed.

(** *** The measured width *)

Lemma totalWidth_closed (gap : Q) (len : nat) (l : list Q) :
  forall (index : nat) (acc : Q),
    (index + length l = len)%nat ->
    totalWidth gap len index l acc
    == acc + widthSum l + gap * inject_Z (Z.of_nat (length l) - 1)
       + (match l with [] => gap | _ => 0 end).
Proof.
  induction l as [|x l IH]; intros index acc Hlen.
  - cbn [totalWidth widthSum fold_right length].
    assert (H : inject_Z (Z.of_nat 0 - 1) == - (1)) by reflexivity.
    rewrite H. ring.
  - cbn [totalWidth]. cbn [length] in Hlen.
    destruct (Z.of_nat index <? Z.of_nat len - 1)%Z eqn:E.
    + apply Z.ltb_lt in E. rewrite IH by lia.
      destruct l as [|y l']; [cbn in Hlen; lia|].
      cbn [widthSum fold_right]. fold (widthSum (y :: l')).
      replace (Z.of_nat (length (x :: y :: l')) - 1)%Z
        with (Z.of_nat (length (y :: l')) - 1 + 1)%Z by (cbn [length]; lia).
      rewrite inject_Z_plus. change (inject_Z 1) with 1.
      cbn [widthSum fold_right]. ring.
    + apply Z.ltb_ge in E. destruct l as [|y l']; [|cbn [length] in Hlen; lia].
      cbn [totalWidth widthSum fold_right length].
      change (inject_Z (Z.of_nat 1 - 1)) with 0. ring.
Qed.

(** X10.  The measured base width is the sum of the slide widths plus
    one gap between each two neighbours (nothing for no slides), and the
    velocity is that width divided by [max(1, speed)]. *)
Theorem measured_width (env : Env) (w : Widget) :
  let n := Z.of_nat (length (slides (state w))) in
  let w' := measureCallback env w in
  baseWidth (state w')
  == (if (n =? 0)%Z then 0
      else widthSum (slides (state w)) + activeGap env (config w) * inject_Z (n - 1))
  /\ velocity (state w') == baseWidth (state w') / Qmax 1 (inject_Z (speed (config w)))
  /\ transform (dom w') = Some (offset (state w))
  /\ offset (state w') = offset (state w).
Proof.
  cbv zeta. split; [|repeat split].
  unfold measureCallback. cbn [updateTransform with_dom with_state state set_measure baseWidth].
  rewrite totalWidth_closed by lia.
  destruct (slides (state w)) as [|x l].
  - cbn [length widthSum fold_right].
    change (Z.of_nat 0 =? 0)%Z with true. cbv iota.
    assert (H : inject_Z (Z.of_nat 0 - 1) == - (1)) by reflexivity.
    rewrite H. ring.
  - replace (Z.of_nat (length (x :: l)) =? 0)%Z with false
      by (symmetry; apply Z.eqb_neq; cbn [length]; lia).
    ring.
Qed.

(** X11.  With a speed of at least 1 the velocity covers the base
    width in [speed] seconds; a speed below 1 (a negative attribute)
    counts as 1. *)
Theorem velocity_covers_width (env : Env) (w : Widget) :
  let w' := measureCallback env w in
  ((1 <= speed (config w))%Z ->
     velocity (state w') * inject_Z (speed (config w)) == baseWidth (state w'))
  /\ ((speed (config w) <= 1)%Z -> velocity (state w') == baseWidth (state w')).
Proof.
  cbv zeta. rewrite measureCallback_velocity. unfold velocityDivisor.
  set (b := baseWidth _). split; intros H.
  - assert (Hs : 1 <= inject_Z (speed (config w))).
    { change 1 with (inject_Z 1). now rewrite <- Zle_Qle. }
    rewrite (Q.max_r _ _ Hs). field. lra.
  - assert (Hs : inject_Z (speed (config w)) <= 1).
    { change 1 with (inject_Z 1). now rewrite <- Zle_Qle. }
    rewrite (Q.max_l _ _ Hs). field.
Qed.

(** X12.  However long the browser took to deliver it, a frame moves
    the offset by no more than a thirtieth of the velocity, apart from
    the one wrap distance [wrapOffset] may add or subtract. *)
Theorem frame_step_capped (env : Env) (timestamp : Q) (w : Widget) :
  playing (state w) = true ->
  0 <= velocity (state w) ->
  lastTimestamp (state w) <= timestamp ->
  let d := offset (state (animate env timestamp w)) - offset (state w) in
  let cap := velocity (state w) * (1 # 30) in
  Qabs d <= cap
  \/ Qabs (d - wrapPoint env w) <= cap
  \/ Qabs (d + wrapPoint env w) <= cap.
Proof.
  intros Hp Hv Ht. cbv zeta. rewrite (animate_offset env timestamp w Hp). cbv zeta.
  destruct (deltaTime_bounds timestamp (lastTimestamp (state w)) Ht) as [Hd0 Hd1].
  set (dt := Qmin _ _) in *.
  assert (H30 : 1 / 30 == 1 # 30) by reflexivity. rewrite H30 in Hd1.
  set (v := velocity (state w)) in *.
  assert (Hstep : Qabs (frameVelocity env w * dt) <= v * (1 # 30)).
  { unfold frameVelocity. fold v. rewrite !Qabs_Qmult.
    assert (Hones : forall b : bool, Qabs (if b then -1 else 1) == 1)
      by (intros []; reflexivity).
    rewrite !Hones. rewrite (Qabs_pos v Hv), (Qabs_pos dt Hd0). nra. }
  set (s := frameVelocity env w * dt) in *.
  set (x := offset (state w)) in *. set (wp := wrapPoint env w) in *.
  destruct (String.eqb (direction (config w)) "left").
  - destruct (Qle_bool (x + s) (- wp)).
    + right. left.
      assert (E : x + s + wp - x - wp == s) by ring. now rewrite E.
    + left. assert (E : x + s - x == s) by ring. now rewrite E.
  - destruct (Qle_bool wp (x + s)).
    + right. right.
      assert (E : x + s - wp - x + wp == s) by ring. now rewrite E.
    + left. assert (E : x + s - x == s) by ring. now rewrite E.
Qed.

Lemma frame_step_capped_witness :
  let d := offset (state (animate desktopEnv 5000 scrolling)) - offset (state scrolling) in
  let cap := velocity (state scrolling) * (1 # 30) in
  Qabs d <= cap
  \/ Qabs (d - wrapPoint desktopEnv scrolling) <= cap
  \/ Qabs (d + wrapPoint desktopEnv scrolling) <= cap.
Proof.
  apply (frame_step_capped desktopEnv 5000 scrolling).
  - reflexivity.
  - vm_compute. discriminate.
  - vm_compute. discriminate.
Defined.

(** *** Starting and stopping along the life cycle *)

Lemma pause_stops (w : Widget) :
  loopInvariant w ->
  loopInvariant (pause w)
  /\ playing (state (pause w)) = false
  /\ animateFrames (pause w) = [].
Proof.
  intros H. destruct (pause_invariant w H) as [H1 H2].
  split; [exact H1|]. split; [apply pause_not_playing | exact H2].
Qed.

(** The three ways through [pause]. *)
Ltac case_pause w :=
  unfold pause; destruct (playing (state w)) eqn:?; cbn [negb];
  [ cbn [with_state state set_playing animationId];
    destruct (animationId (state w)) as [?id|] eqn:?;
    [ destruct (id =? 0)%Z eqn:? | ] | ].

Lemma pause_config (w : Widget) : config (pause w) = config w.
Proof. case_pause w; reflexivity. Qed.

Lemma pause_keeps_state (w : Widget) :
  initialized (state (pause w)) = initialized (state w)
  /\ visible (state (pause w)) = visible (state w)
  /\ dragging (state (pause w)) = dragging (state w)
  /\ offset (state (pause w)) = offset (state w)
  /\ slides (state (pause w)) = slides (state w)
  /\ startX (state (pause w)) = startX (state w)
  /\ lastX (state (pause w)) = lastX (state w).
Proof. case_pause w; repeat split. Qed.

(** X18.  [resume] starts the loop exactly when autoplay is on, the
    element is visible, reduced motion is off, the instance is
    initialised and it is not playing; otherwise it changes nothing. *)
Theorem resume_starts_only_when_allowed (env : Env) (w : Widget) :
  let allowed := autoplay (config w) && visible (state w)
                 && negb (reducedMotion (config w))
                 && initialized (state w) && negb (playing (state w)) in
  (allowed = false -> resume env w = w)
  /\ (allowed = true ->
      playing (state (resume env w)) = true
      /\ frames (resume env w) = frames w ++ [(nextFrame w, CbAnimate)]
      /\ animationId (state (resume env w)) = Some (nextFrame w)).
Proof.
  cbv zeta. unfold resume.
  destruct (autoplay (config w)) eqn:Ha, (visible (state w)) eqn:Hv,
    (reducedMotion (config w)) eqn:Hr, (initialized (state w)) eqn:Hi,
    (playing (state w)) eqn:Hp; cbn [negb andb orb];
    split; try discriminate; try reflexivity; intros _.
  - destruct (play_starts env w Hi Hp Hr) as (Hf & _ & Hid & Hpl). auto.
  - unfold play. rewrite Hi. reflexivity.
Qed.

(** X13.  The first initialisation does not start the frame loop of an
    autoplay carousel: the constructor sets [playing] to the autoplay
    flag, so the [play] of [init] returns at its guard.  The instance
    is left marked as playing with no frame requested, and [play] and
    [resume] change nothing until something pauses it. *)
Theorem first_init_leaves_autoplay_idle (el : Element) (env0 env : Env)
    (children : list Q) (w0 : Widget) :
  construct el env0 = Built w0 ->
  autoplay (config w0) = true ->
  let w := initResume env children w0 in
  initialized (state w) = true
  /\ playing (state w) = true
  /\ animationId (state w) = None
  /\ frames w = [(1%Z, CbMeasure)]
  /\ ("rbc-ready"%string ∈ classes (dom w))
  /\ (forall env', play env' w = w /\ resume env' w = w).
Proof.
  unfold construct. destruct (negb (hasTrack el) || negb (hasContent el)); [discriminate|].
  intros [= <-] Ha. cbn [config initBegin with_dom] in Ha.
  set (c := parseConfig (dataset el) env0) in *.
  assert (Hw : initResume env children
                 (initBegin {| config := c; state := initialState c; dom := elementDom el;
                               nextFrame := 1; frames := [] |})
               = track (TrackInit (length children))
                   (dispatchEvent "rbc:ready"
                      (with_dom (set_classes (classList_add "rbc-ready"))
                         (with_dom (set_classes (classList_remove "rbc-initializing"))
                            (with_state (set_initialized true)
                               (with_dom (set_observing true)
                                  (setupControls
                                  (with_dom (set_listening true)
                                     (createClones
                                        (measureDimensions
                                           (setupStructure children
                                              (initBegin
                                                 {| config := c; state := initialState c;
                                                    dom := elementDom el;
                                                    nextFrame := 1; frames := [] |})))))))))))).
  { unfold initResume. cbv zeta.
    match goal with |- context [play env ?x] =>
      rewrite (play_idle env x)
        by (destruct children; cbn; exact Ha) end.
    destruct (autoplay _ && negb _); destruct children; reflexivity. }
  cbv zeta. rewrite Hw. clear Hw.
  assert (Hp : forall X, playing (state X) = true ->
                         forall env', play env' X = X /\ resume env' X = X).
  { intros X HX env'. split; [now apply play_idle|].
    unfold resume. rewrite HX, !orb_true_r. reflexivity. }
  unfold setupControls. destruct children; cbn;
    (split; [reflexivity|]); (split; [exact Ha|]); (split; [reflexivity|]);
    (split; [reflexivity|]);
    (split; [unfold classList_add; rewrite elem_of_union, elem_of_singleton;
             left; reflexivity|]);
    apply Hp; cbn; exact Ha.
Qed.

Lemma first_init_leaves_autoplay_idle_witness :
  let w := initResume desktopEnv [100; 100] (freshWidget desktopEnv) in
  initialized (state w) = true
  /\ playing (state w) = true
  /\ animationId (state w) = None
  /\ frames w = [(1%Z, CbMeasure)]
  /\ ("rbc-ready"%string ∈ classes (dom w))
  /\ (forall env', play env' w = w /\ resume env' w = w).
Proof.
  apply (first_init_leaves_autoplay_idle plainElement desktopEnv desktopEnv [100; 100]
           (freshWidget desktopEnv)).
  - vm_compute. reflexivity.
  - reflexivity.
Defined.

Lemma animate_classes (env : Env) (timestamp : Q) (w : Widget) :
  classes (dom (animate env timestamp w)) = classes (dom w).
Proof.
  unfold animate, wrapOffset.
  destruct (playing (state w)); cbn [negb]; case_tests; reflexivity.
Qed.

(** [play] only ever removes [is-paused] from the classes. *)
Lemma play_classes (env : Env) (w : Widget) (c : string) :
  c ∈ classes (dom (play env w)) -> c ∈ classes (dom w).
Proof.
  unfold play. destruct (negb _ || _ || _); [tauto|].
  unfold track, dispatchEvent.
  cbn [dom with_dom classes set_classes add_dispatched add_tracked].
  rewrite animate_classes. unfold classList_remove. cbn.
  rewrite elem_of_difference. tauto.
Qed.

Lemma pause_classes (w : Widget) (c : string) :
  c ∈ classes (dom (pause w)) -> c = "is-paused"%string \/ c ∈ classes (dom w).
Proof.
  case_pause w; cbn; unfold classList_add;
    rewrite ?elem_of_union, ?elem_of_singleton; tauto.
Qed.

(** X19.  When the element leaves the viewport, or the tab is hidden,
    the instance is paused and no frame of the loop stays requested;
    while the element is out of view [resume] changes nothing. *)
Theorem out_of_view_stops_loop (env : Env) (w : Widget) :
  reachable w ->
  (let w1 := handleIntersection env false w in
   visible (state w1) = false
   /\ playing (state w1) = false
   /\ animateFrames w1 = []
   /\ forall env', resume env' w1 = w1)
  /\ (docHidden env = true ->
      playing (state (handleVisibilityChange env w)) = false
      /\ animateFrames (handleVisibilityChange env w) = []).
Proof.
  intros Hr. apply reachable_invariant in Hr. split.
  - cbv zeta. unfold handleIntersection. cbn [andb].
    set (w0 := with_state (set_visible false) w).
    assert (H0 : loopInvariant w0) by (subst w0; inv_auto).
    destruct (pause_stops w0 H0) as (_ & Hp & Hf).
    destruct (pause_keeps_state w0) as (_ & Hv & _).
    split; [rewrite Hv; reflexivity|]. split; [exact Hp|]. split; [exact Hf|].
    intros env'. unfold resume. rewrite Hv. cbn.
    now rewrite orb_true_r.
  - intros Hh. unfold handleVisibilityChange. rewrite Hh.
    destruct (pause_stops w Hr) as (_ & Hp & Hf). auto.
Qed.

Lemma out_of_view_stops_loop_witness :
  (let w1 := handleIntersection desktopEnv false scrolling in
   visible (state w1) = false
   /\ playing (state w1) = false
   /\ animateFrames w1 = []
   /\ forall env', resume env' w1 = w1)
  /\ (docHidden desktopEnv = true ->
      playing (state (handleVisibilityChange desktopEnv scrolling)) = false
      /\ animateFrames (handleVisibilityChange desktopEnv scrolling) = []).
Proof. apply (out_of_view_stops_loop desktopEnv scrolling), scrolling_reachable. Defined.

Lemma handleMotionChange_on (env : Env) (w : Widget) :
  handleMotionChange env true w
  = enableStaticMode (pause (with_config (set_reducedMotion true) w)).
Proof. reflexivity. Qed.

Lemma handleMotionChange_off (env : Env) (w : Widget) :
  handleMotionChange env false w
  = if autoplay (config w)
    then play env (disableStaticMode (with_config (set_reducedMotion false) w))
    else disableStaticMode (with_config (set_reducedMotion false) w).
Proof. reflexivity. Qed.

Lemma play_config (env : Env) (w : Widget) : config (play env w) = config w.
Proof.
  unfold play. destruct (negb _ || _ || _); [reflexivity|].
  unfold track, dispatchEvent, animate, wrapOffset.
  destruct (negb _); [reflexivity|]. case_tests; reflexivity.
Qed.

(** X20.  When the reduced-motion preference turns on, the instance is
    paused, no frame of the loop stays requested, the static-mode class
    is set, and [play] and [resume] change nothing; when it turns off
    again the class is removed and an initialised autoplay instance
    plays, with one frame of the loop requested. *)
Theorem reduced_motion_toggle (env : Env) (w : Widget) :
  reachable w ->
  let w1 := handleMotionChange env true w in
  let w2 := handleMotionChange env false w1 in
  (reducedMotion (config w1) = true
   /\ playing (state w1) = false
   /\ animateFrames w1 = []
   /\ ("rbc-static-mode"%string ∈ classes (dom w1))
   /\ forall env', play env' w1 = w1 /\ resume env' w1 = w1)
  /\ (reducedMotion (config w2) = false
      /\ ("rbc-static-mode"%string ∉ classes (dom w2))
      /\ (autoplay (config w) = true -> initialized (state w) = true ->
          playing (state w2) = true
          /\ animateFrames w2 = [(nextFrame w1, CbAnimate)])).
Proof.
  intros Hr. apply reachable_invariant in Hr. cbv zeta.
  rewrite handleMotionChange_on.
  set (wc := with_config (set_reducedMotion true) w).
  assert (Hc : loopInvariant wc) by (subst wc; inv_auto).
  destruct (pause_stops wc Hc) as (Hi1 & Hp & Hf).
  destruct (pause_keeps_state wc) as (Hinit & _).
  pose proof (pause_config wc) as Hcfg.
  set (w1 := enableStaticMode (pause wc)).
  assert (Hr1 : reducedMotion (config w1) = true).
  { subst w1. unfold enableStaticMode. cbn [config with_dom]. rewrite Hcfg. reflexivity. }
  assert (Ha : autoplay (config w1) = autoplay (config w)).
  { subst w1. unfold enableStaticMode. cbn [config with_dom]. rewrite Hcfg. reflexivity. }
  split.
  - split; [exact Hr1|]. split; [exact Hp|]. split; [exact Hf|]. split.
    + subst w1. unfold enableStaticMode, classList_add. cbn.
      rewrite elem_of_union, elem_of_singleton. now left.
    + intros env'. split; [now apply play_reduced_motion | now apply resume_reduced_motion].
  - rewrite handleMotionChange_off, Ha.
    set (x := disableStaticMode (with_config (set_reducedMotion false) w1)).
    assert (Hxc : config x = set_reducedMotion false (config w1)) by reflexivity.
    assert (Hxs : "rbc-static-mode"%string ∉ classes (dom x)).
    { subst x. unfold disableStaticMode, classList_remove. cbn.
      rewrite elem_of_difference, elem_of_singleton. tauto. }
    destruct (autoplay (config w)) eqn:Eauto.
    + split; [|split].
      * rewrite play_config, Hxc. reflexivity.
      * intros Hin. apply Hxs. now apply (play_classes env x).
      * intros _ Hinit'.
        assert (Hix : initialized (state x) = true).
        { change (initialized (state (pause wc)) = true). rewrite Hinit. exact Hinit'. }
        destruct (play_starts env x Hix Hp) as (Hfr & _ & _ & Hpl); [now rewrite Hxc|].
        split; [exact Hpl|]. unfold animateFrames. rewrite Hfr, List.filter_app.
        change (List.filter isAnimate (frames x)) with (animateFrames (pause wc)).
        rewrite Hf. reflexivity.
    + split; [reflexivity|]. split; [exact Hxs|]. discriminate.
Qed.

Lemma reduced_motion_toggle_witness :
  let w1 := handleMotionChange desktopEnv true scrolling in
  let w2 := handleMotionChange desktopEnv false w1 in
  (reducedMotion (config w1) = true
   /\ playing (state w1) = false
   /\ animateFrames w1 = []
   /\ ("rbc-static-mode"%string ∈ classes (dom w1))
   /\ forall env', play env' w1 = w1 /\ resume env' w1 = w1)
  /\ (reducedMotion (config w2) = false
      /\ ("rbc-static-mode"%string ∉ classes (dom w2))
      /\ (autoplay (config scrolling) = true -> initialized (state scrolling) = true ->
          playing (state w2) = true
          /\ animateFrames w2 = [(nextFrame w1, CbAnimate)])).
Proof. apply (reduced_motion_toggle desktopEnv scrolling), scrolling_reachable. Defined.

Lemma destroy_stops (b : bool) (w : Widget) :
  loopInvariant w ->
  loopInvariant (destroy b w)
  /\ playing (state (destroy b w)) = false
  /\ animateFrames (destroy b w) = [].
Proof.
  intros H. destruct (pause_stops w H) as (_ & _ & Hf).
  split; [now apply destroy_invariant|]. split; [apply destroy_not_playing|].
  unfold destroy. destruct b; exact Hf.
Qed.

Lemma destroy_keeps (b : bool) (w : Widget) :
  config (destroy b w) = config w
  /\ initialized (state (destroy b w)) = initialized (state w)
  /\ offset (state (destroy b w)) = offset (state w)
  /\ slides (state (destroy b w)) = slides (state w).
Proof.
  destruct (pause_keeps_state w) as (H1 & _ & _ & H2 & H3 & _).
  pose proof (pause_config w) as Hc.
  unfold destroy. destruct b; cbn [config state with_dom dispatchEvent]; auto.
Qed.

(** X21.  [destroy] leaves the instance paused with no frame of the
    loop requested, the transform and the cursor cleared, the observers
    disconnected and the classes [rbc-ready], [is-paused],
    [rbc-dragging] and [rbc-static-mode] removed, and dispatches the
    destroy event.  It keeps the offset, the slides and [initialized]:
    a later [play] starts the loop again unless reduced motion is on. *)
Theorem destroy_resets_page (env : Env) (b : bool) (w : Widget) :
  reachable w ->
  let w1 := destroy b w in
  playing (state w1) = false
  /\ animateFrames w1 = []
  /\ transform (dom w1) = None
  /\ cursor (dom w1) = ""%string
  /\ observing (dom w1) = false
  /\ (b = true -> listening (dom w1) = false)
  /\ (forall c, c ∈ ["rbc-ready"; "is-paused"; "rbc-dragging"; "rbc-static-mode"]%string ->
                c ∉ classes (dom w1))
  /\ List.last (dispatched (dom w1)) ""%string = "rbc:destroy"%string
  /\ offset (state w1) = offset (state w)
  /\ slides (state w1) = slides (state w)
  /\ (initialized (state w) = true -> reducedMotion (config w) = false ->
      playing (state (play env w1)) = true).
Proof.
  intros Hr. apply reachable_invariant in Hr. cbv zeta.
  destruct (destroy_stops b w Hr) as (_ & Hp & Hf).
  destruct (destroy_keeps b w) as (Hc & Hi & Ho & Hs).
  split; [exact Hp|]. split; [exact Hf|].
  split; [unfold destroy; destruct b; reflexivity|].
  split; [unfold destroy; destruct b; reflexivity|].
  split; [unfold destroy; destruct b; reflexivity|].
  split; [intros ->; reflexivity|].
  split.
  - intros c Hc'. unfold destroy, classList_remove.
    destruct b; cbn [dom with_dom dispatchEvent classes set_classes add_dispatched
                     set_cursor set_transform set_cloneNodes set_observing set_listening];
      rewrite !elem_of_difference, !elem_of_singleton;
      repeat (apply elem_of_cons in Hc' as [->|Hc']; [tauto|]);
      apply elem_of_nil in Hc'; contradiction.
  - split; [unfold destroy; destruct b; cbn; apply List.last_last|].
    split; [exact Ho|]. split; [exact Hs|].
    intros Hi' Hr'. apply play_playing; [now rewrite Hi | exact Hp | now rewrite Hc].
Qed.

Lemma destroy_resets_page_witness :
  let w1 := destroy true scrolling in
  playing (state w1) = false
  /\ animateFrames w1 = []
  /\ transform (dom w1) = None
  /\ cursor (dom w1) = ""%string
  /\ observing (dom w1) = false
  /\ (true = true -> listening (dom w1) = false)
  /\ (forall c, c ∈ ["rbc-ready"; "is-paused"; "rbc-dragging"; "rbc-static-mode"]%string ->
                c ∉ classes (dom w1))
  /\ List.last (dispatched (dom w1)) ""%string = "rbc:destroy"%string
  /\ offset (state w1) = offset (state scrolling)
  /\ slides (state w1) = slides (state scrolling)
  /\ (initialized (state scrolling) = true -> reducedMotion (config scrolling) = false ->
      playing (state (play desktopEnv w1)) = true).
Proof. apply (destroy_resets_page desktopEnv true scrolling), scrolling_reachable. Defined.

Lemma animate_keeps_state (env : Env) (timestamp : Q) (w : Widget) :
  initialized (state (animate env timestamp w)) = initialized (state w)
  /\ slides (state (animate env timestamp w)) = slides (state w)
  /\ visible (state (animate env timestamp w)) = visible (state w)
  /\ dragging (state (animate env timestamp w)) = dragging (state w).
Proof.
  unfold animate, wrapOffset.
  destruct (playing (state w)); cbn [negb]; case_tests; repeat split.
Qed.

Lemma play_keeps_state (env : Env) (w : Widget) :
  initialized (state (play env w)) = initialized (state w)
  /\ slides (state (play env w)) = slides (state w)
  /\ visible (state (play env w)) = visible (state w)
  /\ dragging (state (play env w)) = dragging (state w).
Proof.
  unfold play. destruct (negb _ || _ || _); [repeat split|].
  unfold track, dispatchEvent. rewrite !state_with_dom.
  destruct (animate_keeps_state env (perfNow env)
              (with_state (set_lastTimestamp (perfNow env))
                 (with_state (set_playing true) w))) as (H1 & H2 & H3 & H4).
  rewrite H1, H2, H3, H4. repeat split.
Qed.

(** What [init] has done when it reaches its [play]. *)
Lemma initResume_prefix (children : list Q) (d : Widget) :
  let x := with_state (set_initialized true)
             (with_dom (set_observing true)
                (setupControls
                   (with_dom (set_listening true)
                      (createClones (measureDimensions (setupStructure children d)))))) in
  slides (state x) = children
  /\ initialized (state x) = true
  /\ playing (state x) = playing (state d)
  /\ config x = config d
  /\ nextFrame x = (nextFrame d + 1)%Z
  /\ frames x = frames d ++ [(nextFrame d, CbMeasure)].
Proof.
  cbv zeta. unfold setupControls, createClones, measureDimensions, setupStructure.
  destruct children; cbn; repeat split.
Qed.

(** X14.  A re-initialisation, unlike the first initialisation, does
    start the loop of an autoplay carousel: [destroy] has paused the
    instance, so the [play] of [init] passes its guard and requests one
    frame, after the measuring frame. *)
Theorem reinitialize_starts_loop (env : Env) (children : list Q) (w : Widget) :
  reachable w ->
  autoplay (config w) = true ->
  reducedMotion (config w) = false ->
  let w' := reinitialized env children w in
  initialized (state w') = true
  /\ playing (state w') = true
  /\ slides (state w') = children
  /\ animateFrames w' = [((nextFrame w + 1)%Z, CbAnimate)]
  /\ animationId (state w') = Some (nextFrame w + 1)%Z
  /\ In (nextFrame w, CbMeasure) (frames w').
Proof.
  intros Hr Ha Hm. apply reachable_invariant in Hr. cbv zeta.
  unfold reinitialized, reinitialize.
  destruct (destroy_stops false w Hr) as (Hinv & Hp & Hf).
  destruct (destroy_keeps false w) as (Hc & _).
  assert (Hn : nextFrame (destroy false w) = nextFrame w).
  { unfold destroy. cbn. case_pause w; reflexivity. }
  set (d := destroy false w) in *. clearbody d.
  unfold initResume. cbv zeta.
  destruct (initResume_prefix children (initBegin d)) as (Hxs & Hxi & Hxp & Hxc & Hxn & Hxf).
  cbv zeta in Hxs, Hxi, Hxp, Hxc, Hxn, Hxf.
  set (x := with_state (set_initialized true) _) in *.
  change (playing (state (initBegin d))) with (playing (state d)) in Hxp.
  change (config (initBegin d)) with (config d) in Hxc.
  change (nextFrame (initBegin d)) with (nextFrame d) in Hxn, Hxf.
  change (frames (initBegin d)) with (frames d) in Hxf.
  rewrite Hp in Hxp. rewrite Hc in Hxc. rewrite Hn in Hxn, Hxf.
  clearbody x.
  set (y := with_dom (set_classes (classList_add "rbc-ready"))
              (with_dom (set_classes (classList_remove "rbc-initializing")) x)).
  assert (Hyc : config y = config w) by exact Hxc.
  assert (Hyi : initialized (state y) = true) by exact Hxi.
  assert (Hyp : playing (state y) = false) by exact Hxp.
  assert (Hys : slides (state y) = children) by exact Hxs.
  assert (Hyn : nextFrame y = (nextFrame w + 1)%Z) by exact Hxn.
  assert (Hyf : frames y = frames d ++ [(nextFrame w, CbMeasure)]) by exact Hxf.
  clearbody y. rewrite Hyc, Ha, Hm. cbn [negb andb].
  destruct (play_starts env y Hyi Hyp) as (Hfr & _ & Hid & Hpl); [now rewrite Hyc|].
  destruct (play_keeps_state env y) as (Hi & Hs & _).
  unfold track, dispatchEvent, animateFrames. rewrite !state_with_dom.
  cbn [frames with_dom].
  split; [now rewrite Hi|]. split; [exact Hpl|]. split; [now rewrite Hs|].
  rewrite Hfr, Hyf, Hyn, !List.filter_app.
  split; [|split; [now rewrite Hid, Hyn|]].
  - change (List.filter isAnimate (frames d)) with (animateFrames d).
    rewrite Hf. reflexivity.
  - apply in_or_app. left. apply in_or_app. right. now left.
Qed.

Lemma reinitialize_starts_loop_witness :
  let w' := reinitialized desktopEnv [100; 100; 100] scrolling in
  initialized (state w') = true
  /\ playing (state w') = true
  /\ slides (state w') = [100; 100; 100]
  /\ animateFrames w' = [((nextFrame scrolling + 1)%Z, CbAnimate)]
  /\ animationId (state w') = Some (nextFrame scrolling + 1)%Z
  /\ In (nextFrame scrolling, CbMeasure) (frames w').
Proof.
  apply (reinitialize_starts_loop desktopEnv [100; 100; 100] scrolling).
  - exact scrolling_reachable.
  - reflexivity.
  - reflexivity.
Defined.

(** X16.  A pointer-down on a link or button, or with dragging
    disabled, changes nothing; otherwise it starts a drag at the
    pointer position and suspends autoplay: the instance is paused and
    no frame of the loop stays requested. *)
Theorem pointer_down_suspends_autoplay (clientX : Q) (onLinkOrButton : bool) (w : Widget) :
  reachable w ->
  let w1 := handlePointerDown clientX onLinkOrButton w in
  (dragEnabled (config w) = false \/ onLinkOrButton = true -> w1 = w)
  /\ (dragEnabled (config w) = true -> onLinkOrButton = false ->
      dragging (state w1) = true
      /\ playing (state w1) = false
      /\ animateFrames w1 = []
      /\ startX (state w1) = clientX /\ lastX (state w1) = clientX
      /\ offset (state w1) = offset (state w)
      /\ ("rbc-dragging"%string ∈ classes (dom w1))
      /\ cursor (dom w1) = "grabbing"%string
      /\ List.last (tracked (dom w1)) TrackPlay = TrackDragStart).
Proof.
  intros Hr. apply reachable_invariant in Hr. cbv zeta. unfold handlePointerDown. split.
  - intros [-> | ->]; [reflexivity | now rewrite orb_true_r].
  - intros -> ->. cbn [negb orb]. cbv zeta.
    set (w0 := with_state (set_dragging true) w).
    assert (H0 : loopInvariant w0) by (subst w0; inv_auto).
    destruct (pause_stops w0 H0) as (_ & Hp & Hf).
    destruct (pause_keeps_state w0) as (_ & _ & Hd & Ho & _).
    unfold track. cbn [state dom with_dom with_state set_startX set_lastX dragging playing
                       startX lastX offset classes cursor tracked set_classes set_cursor
                       add_tracked].
    split; [rewrite Hd; reflexivity|]. split; [exact Hp|]. split; [exact Hf|].
    split; [reflexivity|]. split; [reflexivity|]. split; [exact Ho|].
    split; [unfold classList_add; rewrite elem_of_union, elem_of_singleton; now left|].
    split; [reflexivity | apply List.last_last].
Qed.

Lemma pointer_down_suspends_autoplay_witness :
  let w1 := handlePointerDown 100 false scrolling in
  (dragEnabled (config scrolling) = false \/ false = true -> w1 = scrolling)
  /\ (dragEnabled (config scrolling) = true -> false = false ->
      dragging (state w1) = true
      /\ playing (state w1) = false
      /\ animateFrames w1 = []
      /\ startX (state w1) = 100 /\ lastX (state w1) = 100
      /\ offset (state w1) = offset (state scrolling)
      /\ ("rbc-dragging"%string ∈ classes (dom w1))
      /\ cursor (dom w1) = "grabbing"%string
      /\ List.last (tracked (dom w1)) TrackPlay = TrackDragStart).
Proof. apply (pointer_down_suspends_autoplay 100 false scrolling), scrolling_reachable. Defined.

(** *** A drag from pointer-down to pointer-up *)

Lemma handlePointerMove_dragging (x : Q) (w : Widget) :
  dragging (state w) = true ->
  dragging (state (handlePointerMove x w)) = true
  /\ offset (state (handlePointerMove x w)) = offset (state w) + (x - lastX (state w))
  /\ lastX (state (handlePointerMove x w)) = x
  /\ startX (state (handlePointerMove x w)) = startX (state w)
  /\ transform (dom (handlePointerMove x w))
     = Some (offset (state (handlePointerMove x w)))
  /\ frames (handlePointerMove x w) = frames w
  /\ playing (state (handlePointerMove x w)) = playing (state w).
Proof. intros H. unfold handlePointerMove. rewrite H. repeat split; exact H. Qed.

Lemma last_cons {A} (x : A) (xs : list A) (d : A) :
  List.last (x :: xs) d = List.last xs x.
Proof.
  revert x d. induction xs as [|y ys IH]; intros x d; [reflexivity|].
  change (List.last (x :: y :: ys) d) with (List.last (y :: ys) d).
  now rewrite !IH.
Qed.

Lemma dragThrough_offset (xs : list Q) :
  forall w : Widget,
    dragging (state w) = true ->
    dragging (state (dragThrough xs w)) = true
    /\ offset (state (dragThrough xs w))
       == offset (state w) + (List.last xs (lastX (state w)) - lastX (state w))
    /\ lastX (state (dragThrough xs w)) = List.last xs (lastX (state w))
    /\ startX (state (dragThrough xs w)) = startX (state w)
    /\ frames (dragThrough xs w) = frames w
    /\ playing (state (dragThrough xs w)) = playing (state w)
    /\ (xs <> [] -> transform (dom (dragThrough xs w))
                    = Some (offset (state (dragThrough xs w)))).
Proof.
  induction xs as [|x xs IH]; intros w Hd.
  - cbn. repeat split; auto; [ring | congruence].
  - unfold dragThrough. cbn [fold_left]. fold (dragThrough xs (handlePointerMove x w)).
    destruct (handlePointerMove_dragging x w Hd) as (H1 & H2 & H3 & H4 & H5 & H6 & H7).
    destruct (IH _ H1) as (I1 & I2 & I3 & I4 & I5 & I6 & I7).
    rewrite H3 in I2, I3. rewrite H2 in I2. rewrite H4 in I4. rewrite H6 in I5.
    rewrite H7 in I6.
    rewrite (last_cons x xs (lastX (state w))). split; [exact I1|]. split; [rewrite I2; ring|].
    split; [exact I3|]. split; [exact I4|]. split; [exact I5|]. split; [exact I6|].
    intros _. destruct xs as [|y ys]; [exact H5 | apply I7; discriminate].
Qed.

(** The positions handed to [handlePointerMove] during a drag: after
    pointer-down at [a] and calls of the handler with [xs], the offset
    has changed by the last of them minus [a], whatever the positions in
    between; pointer-up then ends the drag, removes the dragging class
    and records the distance between the last position and [a]. *)
Lemma dragThrough_release (a : Q) (xs : list Q) (w : Widget) :
  dragEnabled (config w) = true ->
  let w2 := dragThrough xs (handlePointerDown a false w) in
  let w3 := handlePointerUp w2 in
  dragging (state w2) = true
  /\ offset (state w2) == offset (state w) + (List.last xs a - a)
  /\ lastX (state w2) = List.last xs a
  /\ dragDistance w2 == Qabs (List.last xs a - a)
  /\ (xs <> [] -> transform (dom w2) = Some (offset (state w2)))
  /\ dragging (state w3) = false
  /\ ("rbc-dragging"%string ∉ classes (dom w3))
  /\ cursor (dom w3) = ""%string
  /\ List.last (tracked (dom w3)) TrackPlay = TrackDragEnd (dragDistance w2).
Proof.
  intros He. cbv zeta.
  set (w1 := handlePointerDown a false w).
  assert (H1 : dragging (state w1) = true /\ startX (state w1) = a
               /\ lastX (state w1) = a /\ offset (state w1) = offset (state w)).
  { subst w1. unfold handlePointerDown. rewrite He. cbn [negb orb]. cbv zeta.
    destruct (pause_keeps_state (with_state (set_dragging true) w))
      as (_ & _ & Hd & Ho & _).
    unfold track. cbn. rewrite Hd, Ho. repeat split. }
  destruct H1 as (Hd & Hsx & Hlx & Ho).
  destruct (dragThrough_offset xs w1 Hd) as (D1 & D2 & D3 & D4 & _ & _ & D7).
  rewrite Hlx in D2, D3. rewrite Ho in D2. rewrite Hsx in D4.
  set (w2 := dragThrough xs w1) in *.
  assert (Hdist : dragDistance w2 = Qabs (List.last xs a - a)).
  { unfold dragDistance. now rewrite D3, D4. }
  split; [exact D1|]. split; [exact D2|]. split; [exact D3|].
  split; [now rewrite Hdist|].
  split; [exact D7|].
  rewrite (handlePointerUp_dragging w2 D1). cbv zeta.
  assert (Hm : forall m u, dragging (state (momentumAnimation m u)) = dragging (state u)
                           /\ classes (dom (momentumAnimation m u)) = classes (dom u)
                           /\ cursor (dom (momentumAnimation m u)) = cursor (dom u)).
  { intros m u. unfold momentumAnimation. destruct (Qltb _ _); repeat split. }
  unfold track, addMomentum.
  destruct (Qltb 50 (dragDistance w2));
    cbn [state dom with_dom tracked add_tracked classes cursor];
    rewrite ?(proj1 (Hm _ _)), ?(proj1 (proj2 (Hm _ _))), ?(proj2 (proj2 (Hm _ _)));
    (split; [reflexivity|]);
    (split; [cbn; unfold classList_remove;
             rewrite elem_of_difference, elem_of_singleton; tauto|]);
    (split; [reflexivity | apply List.last_last]).
Qed.


(** *** Navigation, focus and announcements *)


Example navigateTo_announces :
  announcements (dom (navigateTo NavNext twoSlides)) = [(2%Z, 2%Z)]
  /\ navigateTo NavPrev twoSlides = twoSlides
  /\ navigateTo NavNext (navigateTo NavNext twoSlides) = navigateTo NavNext twoSlides.
Proof. vm_compute. repeat split. Qed.

(** *** The registry *)

(** X22.  [initCarousel] registers the element: on an element that
    already has an instance it changes nothing and constructs nothing;
    otherwise it registers the newly constructed instance.  No other
    element's entry is touched. *)
Theorem initCarousel_registers_once (key other : nat) (el : Element) (env : Env) (p : Page) :
  let p' := initCarousel key el env p in
  is_Some (instances p' !! key)
  /\ (is_Some (instances p !! key) -> p' = p)
  /\ (instances p !! key = None -> instances p' !! key = Some (construct el env))
  /\ (other <> key -> instances p' !! other = instances p !! other)
  /\ released p' = released p
  /\ (forall el' env', initCarousel key el' env' p' = p').
Proof.
  cbv zeta. unfold initCarousel.
  destruct (instances p !! key) as [i|] eqn:E.
  - repeat split; try (rewrite E; eauto; fail); try discriminate.
  - cbn [instances released]. rewrite lookup_insert_eq.
    split; [eauto|]. split; [intros [x Hx]; discriminate|].
    split; [reflexivity|]. split; [intros Hne; now rewrite lookup_insert_ne|].
    split; [reflexivity|].
    intros el' env'. reflexivity.
Qed.

(** X23.  A [destroyCarousel] that returns removes the element's entry
    and touches no other element; [initCarousel] on the element then
    constructs and registers a new instance. *)
Theorem destroyCarousel_removes_entry (key other : nat) (p p' : Page) :
  destroyCarousel key p = Normal p' ->
  instances p' !! key = None
  /\ (other <> key -> instances p' !! other = instances p !! other
                      /\ released p' !! other = released p !! other)
  /\ (forall w, instances p !! key = Some (Built w) ->
                released p' !! key = Some (destroy true w))
  /\ (forall el env,
        instances (initCarousel key el env p') !! key = Some (construct el env)).
Proof.
  intros H.
  assert (Hnone : instances p' !! key = None).
  { revert H. unfold destroyCarousel.
    destruct (instances p !! key) as [i|] eqn:E.
    - destruct (destroyInstance i); [|discriminate].
      intros [= <-]. cbn. apply lookup_delete_eq.
    - now intros [= <-]. }
  split; [exact Hnone|]. split; [|split].
  - intros Hne. revert H. unfold destroyCarousel.
    destruct (instances p !! key) as [i|] eqn:E.
    + destruct (destroyInstance i); [|discriminate].
      intros [= <-]. cbn. now rewrite lookup_delete_ne, lookup_insert_ne.
    + now intros [= <-].
  - intros w Hw. revert H. unfold destroyCarousel. rewrite Hw. cbn.
    intros [= <-]. cbn. apply lookup_insert_eq.
  - intros el env. unfold initCarousel. rewrite Hnone. cbn. apply lookup_insert_eq.
Qed.

Lemma destroyCarousel_removes_entry_witness :
  let p' := {| instances := delete 0%nat (instances livePage);
               released := <[0%nat := destroy true (freshWidget desktopEnv)]>
                             (released livePage) |} in
  instances p' !! 0%nat = None
  /\ (1%nat <> 0%nat -> instances p' !! 1%nat = instances livePage !! 1%nat
                        /\ released p' !! 1%nat = released livePage !! 1%nat)
  /\ (forall w, instances livePage !! 0%nat = Some (Built w) ->
                released p' !! 0%nat = Some (destroy true w))
  /\ (forall el env,
        instances (initCarousel 0 el env p') !! 0%nat = Some (construct el env)).
Proof.
  apply (destroyCarousel_removes_entry 0 1 livePage).
  vm_compute. reflexivity.
Defined.

(** *** Properties kept along every run *)

Lemma run_keeps (P : Widget -> Prop) :
  (forall env e w, P w -> P (step env e w)) ->
  forall events w, P w -> P (run events w).
Proof.
  intros Hstep events. induction events as [|[env e] rest IH]; intros w H; cbn;
    [exact H | now apply IH, Hstep].
Qed.

Section Kept.
Context {V1 V2 : Type} (viewS : State -> V1) (viewD : Dom -> V2) (R : V1 -> V2 -> Prop).

Lemma holds_dom (f : Dom -> Dom) (w : Widget) :
  (forall d, viewD (f d) = viewD d) ->
  holds viewS viewD R w -> holds viewS viewD R (with_dom f w).
Proof. unfold holds. cbn. intros ->. tauto. Qed.

Lemma holds_state (f : State -> State) (w : Widget) :
  (forall s, viewS (f s) = viewS s) ->
  holds viewS viewD R w -> holds viewS viewD R (with_state f w).
Proof. unfold holds. cbn. intros ->. tauto. Qed.

Lemma holds_config (f : Config -> Config) (w : Widget) :
  holds viewS viewD R w -> holds viewS viewD R (with_config f w).
Proof. exact (fun H => H). Qed.

Lemma holds_request (cb : Callback) (w : Widget) :
  holds viewS viewD R w -> holds viewS viewD R (snd (requestAnimationFrame cb w)).
Proof. exact (fun H => H). Qed.

Lemma holds_cancel (id : Z) (w : Widget) :
  holds viewS viewD R w -> holds viewS viewD R (cancelAnimationFrame id w).
Proof. exact (fun H => H). Qed.

(** [animate] keeps every view that does not read the offset, the time
    stamp, the frame handle or the transform. *)
Lemma holds_animate (env : Env) (timestamp : Q) (w : Widget) :
  (forall s x, viewS (set_offset x s) = viewS s) ->
  (forall s x, viewS (set_lastTimestamp x s) = viewS s) ->
  (forall s x, viewS (set_animationId x s) = viewS s) ->
  (forall d x, viewD (set_transform x d) = viewD d) ->
  holds viewS viewD R w -> holds viewS viewD R (animate env timestamp w).
Proof.
  intros H1 H2 H3 H4. unfold holds, animate, wrapOffset.
  destruct (negb (playing (state w))); [tauto|].
  case_tests; rewrite ?H3, ?H1, ?H2, ?H4; tauto.
Qed.

End Kept.

(** One step of a proof that a view is kept: peel the outermost
    operation, leaving to [leaf] the operations that write the view. *)
Ltac keep_step leaf :=
  match goal with
  | H : ?P ?w |- ?P ?w => exact H
  | |- holds _ _ _ (if ?b then _ else _) => destruct b eqn:?
  | |- holds _ _ _ (match ?x with _ => _ end) => destruct x eqn:?
  | |- holds _ _ _ (with_dom _ _) => apply holds_dom; [intros; reflexivity|]
  | |- holds _ _ _ (with_state _ _) => apply holds_state; [intros; reflexivity|]
  | |- holds _ _ _ (with_config _ _) => apply holds_config
  | |- holds _ _ _ (snd (requestAnimationFrame _ _)) => apply holds_request
  | |- holds _ _ _ (cancelAnimationFrame _ _) => apply holds_cancel
  | |- _ => first [ progress unfold transformShown
                  | progress unfold renderedSince
                  | progress unfold listenersAre
                  | progress unfold clonesBounded
                  | progress unfold playPauseBalanced ]
  | |- _ => leaf
  end.

Ltac keep leaf := cbv zeta; repeat keep_step leaf.

(** The handlers, unfolded down to [play], [pause], [animate],
    [updateTransform] and [createClones]. *)
Ltac unfold_handlers :=
  repeat first
    [ progress unfold initResume
    | progress unfold initBegin
    | progress unfold reinitialize
    | progress unfold updateConfig
    | progress unfold resume
    | progress unfold handlePointerDown
    | progress unfold handlePointerMove
    | progress unfold handlePointerUp
    | progress unfold addMomentum
    | progress unfold momentumAnimation
    | progress unfold dragTimer
    | progress unfold handleKeyDown
    | progress unfold navigateTo
    | progress unfold focusSlide
    | progress unfold announceSlide
    | progress unfold handlePlayPauseClick
    | progress unfold handleIntersection
    | progress unfold handleResize
    | progress unfold handleVisibilityChange
    | progress unfold handleMotionChange
    | progress unfold enableStaticMode
    | progress unfold disableStaticMode
    | progress unfold destroy
    | progress unfold setupStructure
    | progress unfold setupControls
    | progress unfold measureDimensions
    | progress unfold measureCallback
    | progress unfold dispatchEvent
    | progress unfold track ].

(** **** The transform shows the offset *)

Lemma shown_updateTransform (w : Widget) : transformShown (updateTransform w).
Proof. right. reflexivity. Qed.

Lemma shown_cleared (w : Widget) : transformShown (with_dom (set_transform None) w).
Proof. left. reflexivity. Qed.

Lemma shown_animate (env : Env) (timestamp : Q) (w : Widget) :
  transformShown w -> transformShown (animate env timestamp w).
Proof.
  intros H. unfold animate. destruct (negb (playing (state w))); [exact H|].
  right. reflexivity.
Qed.

Ltac shown_leaf :=
  idtac;
  match goal with
  | |- holds _ _ _ (updateTransform _) => apply shown_updateTransform
  | |- holds _ _ _ (with_dom (set_transform None) _) => apply shown_cleared
  | |- holds _ _ _ (animate _ _ _) => apply shown_animate
  end.

Lemma shown_pause (w : Widget) : transformShown w -> transformShown (pause w).
Proof. intros H. unfold transformShown in *. unfold pause, dispatchEvent, track. keep shown_leaf. Qed.

Lemma shown_play (env : Env) (w : Widget) : transformShown w -> transformShown (play env w).
Proof. intros H. unfold transformShown in *. unfold play, dispatchEvent, track. keep shown_leaf. Qed.

Lemma shown_createClones (w : Widget) : transformShown w -> transformShown (createClones w).
Proof. intros H. unfold transformShown in *. unfold createClones. keep shown_leaf. Qed.

Ltac shown_ops :=
  idtac;
  match goal with
  | |- holds _ _ _ (pause _) => apply shown_pause
  | |- holds _ _ _ (play _ _) => apply shown_play
  | |- holds _ _ _ (createClones _) => apply shown_createClones
  | |- _ => shown_leaf
  end.

Lemma shown_step (env : Env) (e : Event) (w : Widget) :
  transformShown w -> transformShown (step env e w).
Proof.
  intros H. unfold transformShown in *.
  destruct e; cbn [step]; try (unfold_handlers; keep shown_ops; fail).
  unfold runFrame. destruct (List.find _ _) as [[id' cb]|]; [|exact H].
  destruct cb; cbn [runCallback]; unfold_handlers; keep shown_ops.
Qed.

Lemma construct_dom (el : Element) (env : Env) (w0 : Widget) :
  construct el env = Built w0 ->
  config w0 = parseConfig (dataset el) env
  /\ state w0 = initialState (config w0)
  /\ dom w0 = set_classes (classList_add "rbc-initializing") (elementDom el).
Proof.
  unfold construct. destruct (negb _ || negb _); [discriminate|].
  intros [= <-]. repeat split.
Qed.

Lemma rendered_animate (o : Q) (env : Env) (timestamp : Q) (w : Widget) :
  renderedSince o w -> renderedSince o (animate env timestamp w).
Proof.
  intros H. unfold animate. destruct (negb (playing (state w))); [exact H|].
  right. reflexivity.
Qed.

Ltac rendered_leaf :=
  idtac;
  match goal with
  | |- holds _ _ _ (updateTransform _) => right; reflexivity
  | |- holds _ _ _ (animate _ _ _) => apply rendered_animate
  end.

Lemma rendered_pause (o : Q) (w : Widget) : renderedSince o w -> renderedSince o (pause w).
Proof.
  intros H. unfold renderedSince in *. unfold pause, dispatchEvent, track.
  keep rendered_leaf.
Qed.

Lemma rendered_play (o : Q) (env : Env) (w : Widget) :
  renderedSince o w -> renderedSince o (play env w).
Proof.
  intros H. unfold renderedSince in *. unfold play, dispatchEvent, track.
  keep rendered_leaf.
Qed.

Lemma rendered_createClones (o : Q) (w : Widget) :
  renderedSince o w -> renderedSince o (createClones w).
Proof. intros H. unfold renderedSince in *. unfold createClones. keep rendered_leaf. Qed.

Ltac rendered_ops :=
  idtac;
  match goal with
  | |- holds _ _ _ (pause _) => apply rendered_pause
  | |- holds _ _ _ (play _ _) => apply rendered_play
  | |- holds _ _ _ (createClones _) => apply rendered_createClones
  | |- _ => rendered_leaf
  end.

Lemma pause_offset (w : Widget) : offset (state (pause w)) = offset (state w).
Proof.
  unfold pause, dispatchEvent, track. destruct (negb (playing (state w))); [reflexivity|].
  cbn. destruct (animationId (state w)) as [id|]; [|reflexivity].
  destruct (id =? 0)%Z; reflexivity.
Qed.

Lemma destroy_offset (b : bool) (w : Widget) :
  offset (state (destroy b w)) = offset (state w).
Proof.
  unfold destroy, dispatchEvent. cbn. destruct b; cbn; apply pause_offset.
Qed.

(** A step leaves the offset as it was or renders it. *)
Lemma rendered_step (env : Env) (e : Event) (w : Widget) :
  renderedSince (offset (state w)) (step env e w).
Proof.
  assert (H : renderedSince (offset (state w)) w) by (left; reflexivity).
  set (o := offset (state w)) in *. unfold renderedSince in *.
  destruct e; cbn [step];
    try (unfold_handlers; keep rendered_ops; fail);
    try (left; apply destroy_offset).
  unfold runFrame. destruct (List.find _ _) as [[id' cb]|]; [|exact H].
  destruct cb; cbn [runCallback]; unfold_handlers; keep rendered_ops.
Qed.

(** X25.  Along every run of an instance built on an element whose
    track has no transform yet, the track's transform is either empty
    or the translation by the current offset, and no handler changes
    the offset without rendering it: after a step that changed the
    offset the transform is the translation by the new offset. *)
Theorem transform_shows_offset (el : Element) (env env' : Env)
    (events : list (Env * Event)) (e : Event) (w0 : Widget) :
  construct el env = Built w0 ->
  transform (elementDom el) = None ->
  let w := run events w0 in
  (transform (dom w) = None \/ transform (dom w) = Some (offset (state w)))
  /\ (offset (state (step env' e w)) <> offset (state w) ->
      transform (dom (step env' e w)) = Some (offset (state (step env' e w)))).
Proof.
  intros Hc Ht w. split.
  - apply (run_keeps transformShown); [intros; now apply shown_step|].
    destruct (construct_dom el env w0 Hc) as (_ & _ & Hd).
    left. rewrite Hd. exact Ht.
  - intros Hne. destruct (rendered_step env' e w) as [H|H]; [contradiction | exact H].
Qed.

Lemma transform_shows_offset_witness :
  let w := run shortDrag (freshWidget desktopEnv) in
  (transform (dom w) = None \/ transform (dom w) = Some (offset (state w)))
  /\ (offset (state (step desktopEnv (EvFrame 2 16) w)) <> offset (state w) ->
      transform (dom (step desktopEnv (EvFrame 2 16) w))
      = Some (offset (state (step desktopEnv (EvFrame 2 16) w)))).
Proof.
  apply (transform_shows_offset plainElement desktopEnv desktopEnv shortDrag (EvFrame 2 16)).
  - vm_compute. reflexivity.
  - reflexivity.
Defined.

(** The frame of the witness is a momentum frame, which moves the
    offset. *)
Example momentum_frame_rendered :
  let w := run shortDrag (freshWidget desktopEnv) in
  frames w = [(2%Z, CbMomentum ((70 - 0) * 0.1 * 0.95))]
  /\ offset (state w) == 77
  /\ offset (state (step desktopEnv (EvFrame 2 16) w)) == 83.65
  /\ offset (state (step desktopEnv (EvFrame 2 16) w)) <> offset (state w).
Proof.
  split; [vm_compute; reflexivity|]. split; [vm_compute; reflexivity|].
  split; [vm_compute; reflexivity|]. vm_compute. discriminate.
Qed.

(** **** Clone groups *)

Lemma clones_dom (f : Dom -> Dom) (w : Widget) :
  (forall d, (cloneNodes (f d) <= cloneNodes d)%nat) ->
  clonesBounded w -> clonesBounded (with_dom f w).
Proof.
  unfold clonesBounded, holds. cbn. intros Hf (H1 & H2 & H3).
  specialize (Hf (dom w)). repeat split; [lia | exact H2 | exact H3].
Qed.

Lemma clones_createClones (w : Widget) : clonesBounded w -> clonesBounded (createClones w).
Proof.
  unfold clonesBounded, holds, createClones. cbn. intros (H1 & H2 & H3).
  destruct (slides (state w)); cbn; lia.
Qed.

Lemma clones_animate (env : Env) (timestamp : Q) (w : Widget) :
  clonesBounded w -> clonesBounded (animate env timestamp w).
Proof. apply holds_animate; reflexivity. Qed.

Ltac clones_leaf :=
  idtac;
  match goal with
  | |- holds _ _ _ (createClones _) => apply clones_createClones
  | |- holds _ _ _ (animate _ _ _) => apply clones_animate
  | |- holds _ _ _ (with_dom _ _) => apply clones_dom; [intros; cbn; lia|]
  end.

Lemma clones_pause (w : Widget) : clonesBounded w -> clonesBounded (pause w).
Proof. intros H. unfold clonesBounded in *. unfold pause, dispatchEvent, track. keep clones_leaf. Qed.

Lemma clones_play (env : Env) (w : Widget) : clonesBounded w -> clonesBounded (play env w).
Proof. intros H. unfold clonesBounded in *. unfold play, dispatchEvent, track. keep clones_leaf. Qed.

Ltac clones_ops :=
  idtac;
  match goal with
  | |- holds _ _ _ (pause _) => apply clones_pause
  | |- holds _ _ _ (play _ _) => apply clones_play
  | |- _ => clones_leaf
  end.

Lemma clones_step (env : Env) (e : Event) (w : Widget) :
  clonesBounded w -> clonesBounded (step env e w).
Proof.
  intros H. unfold clonesBounded in *.
  destruct e; cbn [step]; try (unfold_handlers; unfold updateTransform; keep clones_ops; fail).
  unfold runFrame. destruct (List.find _ _) as [[id' cb]|]; [|exact H].
  destruct cb; cbn [runCallback]; unfold_handlers; unfold updateTransform; keep clones_ops.
Qed.

(** X26.  Along every run of an instance built on an element with no
    clone group attached, at most three clone groups are attached to the
    track, never more than the instance references: rebuilding the
    clones on resize or re-initialisation does not pile them up. *)
Theorem clones_never_pile_up (el : Element) (env : Env)
    (events : list (Env * Event)) (w0 : Widget) :
  construct el env = Built w0 ->
  cloneNodes (elementDom el) = 0%nat ->
  (cloneNodes (dom (run events w0)) <= clones (state (run events w0)))%nat
  /\ (clones (state (run events w0)) <= 3)%nat.
Proof.
  intros Hc Hn.
  assert (H : clonesBounded (run events w0)).
  { apply (run_keeps clonesBounded); [intros; now apply clones_step|].
    destruct (construct_dom el env w0 Hc) as (Hcfg & Hs & Hd).
    unfold clonesBounded, holds. rewrite Hd, Hs. cbn. lia. }
  destruct H as (H1 & H2 & H3). cbn in H1, H2, H3. lia.
Qed.

Lemma clones_never_pile_up_witness :
  (cloneNodes (dom (run resizes (freshWidget desktopEnv)))
   <= clones (state (run resizes (freshWidget desktopEnv))))%nat
  /\ (clones (state (run resizes (freshWidget desktopEnv))) <= 3)%nat.
Proof.
  apply (clones_never_pile_up plainElement desktopEnv).
  - vm_compute. reflexivity.
  - reflexivity.
Defined.

(** **** Play and pause events *)

Lemma occurrences_snoc (name x : string) (l : list string) :
  occurrences name (l ++ [x])
  = (occurrences name l + (if String.eqb name x then 1 else 0))%Z.
Proof.
  unfold occurrences. rewrite List.filter_app, length_app. cbn.
  destruct (String.eqb name x); cbn; lia.
Qed.

Lemma recorded_snoc (f : AnalyticsEvent -> bool) (x : AnalyticsEvent)
    (l : list AnalyticsEvent) :
  recorded f (l ++ [x]) = (recorded f l + (if f x then 1 else 0))%Z.
Proof.
  unfold recorded. rewrite List.filter_app, length_app. cbn.
  destruct (f x); cbn; lia.
Qed.

Lemma balanced_add_dispatched (start : bool) (name : string) (w : Widget) :
  name <> "rbc:play"%string -> name <> "rbc:pause"%string ->
  playPauseBalanced start w ->
  playPauseBalanced start (with_dom (add_dispatched name) w).
Proof.
  intros H1 H2. unfold playPauseBalanced, holds, balance. cbn.
  rewrite !occurrences_snoc.
  destruct (String.eqb_spec "rbc:play" name) as [E|_]; [congruence|].
  destruct (String.eqb_spec "rbc:pause" name) as [E|_]; [congruence|].
  rewrite !Z.add_0_r. tauto.
Qed.

Lemma balanced_add_tracked (start : bool) (e : AnalyticsEvent) (w : Widget) :
  isTrackPlay e = false -> isTrackPause e = false ->
  playPauseBalanced start w ->
  playPauseBalanced start (with_dom (add_tracked e) w).
Proof.
  intros H1 H2. unfold playPauseBalanced, holds, balance. cbn.
  rewrite !recorded_snoc, H1, H2, !Z.add_0_r. tauto.
Qed.

Lemma balanced_animate (start : bool) (env : Env) (timestamp : Q) (w : Widget) :
  playPauseBalanced start w -> playPauseBalanced start (animate env timestamp w).
Proof. apply holds_animate; reflexivity. Qed.

Lemma animate_logs (env : Env) (timestamp : Q) (w : Widget) :
  dispatched (dom (animate env timestamp w)) = dispatched (dom w)
  /\ tracked (dom (animate env timestamp w)) = tracked (dom w).
Proof.
  unfold animate, wrapOffset.
  destruct (playing (state w)); cbn [negb]; case_tests; split; reflexivity.
Qed.

Lemma balanced_play (start : bool) (env : Env) (w : Widget) :
  playPauseBalanced start w -> playPauseBalanced start (play env w).
Proof.
  intros H. unfold play.
  destruct (negb _ || _ || _) eqn:Hg; [exact H|].
  apply orb_false_iff in Hg as [Hg _]. apply orb_false_iff in Hg as [_ Hp].
  set (x := with_state (set_lastTimestamp (perfNow env)) (with_state (set_playing true) w)).
  destruct (animate_logs env (perfNow env) x) as [Hd Ht].
  pose proof (animate_playing env (perfNow env) x) as Hpl.
  unfold playPauseBalanced, holds, balance in *. unfold track, dispatchEvent.
  cbn [state dom with_dom dispatched tracked add_dispatched add_tracked set_classes fst snd].
  rewrite Hd, Ht, Hpl. cbn [x state dom with_state playing set_playing set_lastTimestamp].
  rewrite Hp in H. cbn [fst snd Z.b2z] in H.
  rewrite !occurrences_snoc, !recorded_snoc. cbn. lia.
Qed.

Lemma balanced_pause (start : bool) (w : Widget) :
  playPauseBalanced start w -> playPauseBalanced start (pause w).
Proof.
  intros H. destruct (playing (state w)) eqn:Hp; [|now rewrite pause_idle].
  unfold playPauseBalanced, holds, balance in *.
  rewrite Hp in H. cbn [fst snd Z.b2z] in H.
  unfold pause. rewrite Hp. cbn [negb with_state state set_playing animationId].
  destruct (animationId (state w)) as [id|]; [destruct (id =? 0)%Z|];
    unfold track, dispatchEvent; cbn;
    rewrite !occurrences_snoc, !recorded_snoc; cbn; lia.
Qed.

Ltac balanced_leaf :=
  idtac;
  match goal with
  | |- holds _ _ _ (pause _) => apply balanced_pause
  | |- holds _ _ _ (play _ _) => apply balanced_play
  | |- holds _ _ _ (animate _ _ _) => apply balanced_animate
  | |- holds _ _ _ (with_dom (add_dispatched _) _) =>
      apply balanced_add_dispatched; [discriminate | discriminate |]
  | |- holds _ _ _ (with_dom (add_tracked _) _) =>
      apply balanced_add_tracked; [reflexivity | reflexivity |]
  end.

Lemma balanced_createClones (start : bool) (w : Widget) :
  playPauseBalanced start w -> playPauseBalanced start (createClones w).
Proof. intros H. unfold createClones. keep balanced_leaf. Qed.

Ltac balanced_ops :=
  idtac;
  match goal with
  | |- holds _ _ _ (createClones _) => apply balanced_createClones
  | |- _ => balanced_leaf
  end.

Lemma balanced_step (start : bool) (env : Env) (e : Event) (w : Widget) :
  playPauseBalanced start w -> playPauseBalanced start (step env e w).
Proof.
  intros H. unfold playPauseBalanced in *.
  destruct e; cbn [step];
    try (unfold_handlers; unfold updateTransform; keep balanced_ops; fail).
  unfold runFrame. destruct (List.find _ _) as [[id' cb]|]; [|exact H].
  destruct cb; cbn [runCallback]; unfold_handlers; unfold updateTransform;
    keep balanced_ops.
Qed.

(** X24.  Along every run from construction, every dispatched play
    event has its analytics record and so has every pause event, and
    the two alternate: the plays minus the pauses is 1, 0 or -1,
    according to whether the instance is playing now and whether it was
    constructed with autoplay. *)
Theorem play_pause_events_alternate (el : Element) (env : Env)
    (events : list (Env * Event)) (w0 : Widget) :
  construct el env = Built w0 ->
  dispatched (elementDom el) = [] ->
  tracked (elementDom el) = [] ->
  let w := run events w0 in
  let plays := occurrences "rbc:play" (dispatched (dom w)) in
  let pauses := occurrences "rbc:pause" (dispatched (dom w)) in
  plays = recorded isTrackPlay (tracked (dom w))
  /\ pauses = recorded isTrackPause (tracked (dom w))
  /\ (plays - pauses = Z.b2z (playing (state w)) - Z.b2z (autoplay (config w0)))%Z.
Proof.
  intros Hc Hd Ht. cbv zeta.
  apply (run_keeps (playPauseBalanced (autoplay (config w0))));
    [intros; now apply balanced_step|].
  destruct (construct_dom el env w0 Hc) as (Hcfg & Hs & Hdom).
  unfold playPauseBalanced, holds, balance. rewrite Hdom, Hs. cbn.
  rewrite Hd, Ht. cbn. repeat split. destruct (autoplay (config w0)); reflexivity.
Qed.

Lemma play_pause_events_alternate_witness :
  let w := run hovers (freshWidget desktopEnv) in
  let plays := occurrences "rbc:play" (dispatched (dom w)) in
  let pauses := occurrences "rbc:pause" (dispatched (dom w)) in
  plays = recorded isTrackPlay (tracked (dom w))
  /\ pauses = recorded isTrackPause (tracked (dom w))
  /\ (plays - pauses
      = Z.b2z (playing (state w)) - Z.b2z (autoplay (config (freshWidget desktopEnv))))%Z.
Proof.
  apply (play_pause_events_alternate plainElement desktopEnv hovers
           (freshWidget desktopEnv)).
  - vm_compute. reflexivity.
  - reflexivity.
  - reflexivity.
Defined.

Example hovers_events :
  dispatched (dom (run hovers (freshWidget desktopEnv)))
  = ["rbc:ready"; "rbc:pause"; "rbc:play"; "rbc:pause"; "rbc:play"]%string.
Proof. vm_compute. reflexivity. Qed.

(** *** Controls and resize *)













(** After a re-initialisation the control has two listeners: a click
    pauses the instance and starts it again, and a click on the paused
    instance starts it and pauses it again. *)
Example click_after_reinitialisation :
  let w := run reinitialisation (freshWidget desktopEnv) in
  playPauseListeners (dom w) = Some 2%nat
  /\ playing (state w) = true
  /\ playing (state (clickPlayPause desktopEnv w)) = true
  /\ dispatched (dom (clickPlayPause desktopEnv w))
     = dispatched (dom w) ++ ["rbc:pause"; "rbc:play"]%string
  /\ playing (state (clickPlayPause desktopEnv (pause w))) = false.
Proof. vm_compute. repeat split. Qed.

(** X28.  A resize before initialisation changes nothing; after it, it
    requests one measuring frame, rebuilds the clone groups (as many as
    [cloneCount], none without slides) and leaves the playing flag, the
    offset and the frames of the loop as they are. *)
Theorem resize_remeasures (env : Env) (w : Widget) :
  (initialized (state w) = false -> handleResize env w = w)
  /\ (initialized (state w) = true ->
      frames (handleResize env w) = frames w ++ [(nextFrame w, CbMeasure)]
      /\ animateFrames (handleResize env w) = animateFrames w
      /\ playing (state (handleResize env w)) = playing (state w)
      /\ offset (state (handleResize env w)) = offset (state w)
      /\ clones (state (handleResize env w))
         = match slides (state w) with [] => 0%nat | _ => cloneCount (state w) end).
Proof.
  unfold handleResize. split; intros Hi; rewrite Hi; [reflexivity|]. cbn [negb].
  set (x := createClones (measureDimensions w)).
  assert (Hx : frames x = frames w ++ [(nextFrame w, CbMeasure)]
               /\ playing (state x) = playing (state w)
               /\ offset (state x) = offset (state w)
               /\ clones (state x)
                  = match slides (state w) with [] => 0%nat | _ => cloneCount (state w) end).
  { subst x. unfold createClones, measureDimensions. cbn.
    destruct (slides (state w)); repeat split. }
  destruct Hx as (Hf & Hp & Ho & Hc).
  destruct (playing (state x)) eqn:Hpx.
  - rewrite (play_idle env x Hpx). rewrite Hpx.
    split; [exact Hf|]. split; [|auto].
    unfold animateFrames. rewrite Hf, List.filter_app. cbn. apply app_nil_r.
  - split; [exact Hf|]. split; [|rewrite Hpx; auto].
    unfold animateFrames. rewrite Hf, List.filter_app. cbn. apply app_nil_r.
Qed.

End CarouselFacts.

(** ** Utilities *)

Module UtilsFacts.
Import Utils.



Lemma throttle_run_invariant {A : Type} (es : list (TimedCall A)) :
  forall t : Throttle A,
    clearTimers t = (if inThrottle t then 1 else 0)%nat ->
    let t' := fold_left throttleStep es t in
    clearTimers t' = (if inThrottle t' then 1 else 0)%nat
    /\ (length (applied t') + (if inThrottle t' then 0 else 1)
        <= length (applied t) + (if inThrottle t then 0 else 1)
           + length (List.filter isTimeout es))%nat
    /\ exists added, applied t' = applied t ++ added /\ sublist added (callsOf es).
Proof.
  induction es as [|e es IH]; intros t Ht; cbn [fold_left].
  - cbn. split; [exact Ht|]. split; [lia|]. exists []. split; [now rewrite app_nil_r|constructor].
  - destruct e as [a|].
    + cbn [throttleStep]. unfold throttleCall.
      destruct (inThrottle t) eqn:E; cbn [negb].
      * destruct (IH t) as (H1 & H2 & added & H3 & H4); [now rewrite E|].
        rewrite E in H2. split; [exact H1|]. split; [exact H2|].
        exists added. split; [exact H3|]. cbn. now apply sublist_cons.
      * match goal with |- context [fold_left throttleStep es ?u] =>
          destruct (IH u) as (H1 & H2 & added & H3 & H4) end.
        { cbn. now rewrite Ht. }
        cbn [inThrottle applied] in H2, H3. rewrite length_app in H2. cbn in H2.
        split; [exact H1|]. split; [cbn; lia|].
        exists (a :: added). split.
        -- rewrite H3, <- app_assoc. reflexivity.
        -- cbn. now apply sublist_skip.
    + cbn [throttleStep]. unfold throttleTimeout. rewrite Ht.
      destruct (inThrottle t) eqn:E.
      * match goal with |- context [fold_left throttleStep es ?u] =>
          destruct (IH u) as (H1 & H2 & added & H3 & H4) end.
        { reflexivity. }
        cbn [inThrottle applied] in H2, H3.
        split; [exact H1|]. split; [cbn; lia|].
        exists added. split; [exact H3 | exact H4].
      * destruct (IH t) as (H1 & H2 & added & H3 & H4); [now rewrite E|].
        rewrite E in H2. split; [exact H1|]. split; [cbn; lia|].
        exists added. split; [exact H3 | exact H4].
Qed.

(** X3.  Whatever the calls and timer expirations, a throttled
    function is applied to some of the calls' arguments, in order, at
    most once more than timers have expired, with at most one timer
    pending; the first call always goes through. *)
Theorem throttle_limits_calls {A : Type} (es : list (TimedCall A)) :
  let t := fold_left throttleStep es throttle in
  sublist (applied t) (callsOf es)
  /\ (length (applied t) <= 1 + length (List.filter isTimeout es))%nat
  /\ (clearTimers t <= 1)%nat
  /\ (forall a rest, es = Call a :: rest -> hd_error (applied t) = Some a).
Proof.
  destruct (throttle_run_invariant es throttle eq_refl) as (H1 & H2 & added & H3 & H4).
  cbv zeta. cbn in H2, H3. subst added.
  split; [exact H4|]. split; [lia|]. split.
  - rewrite H1. destruct (inThrottle _); lia.
  - intros a rest ->. cbn [fold_left throttleStep]. unfold throttleCall. cbn.
    match goal with |- context [fold_left throttleStep rest ?u] =>
      destruct (throttle_run_invariant rest u eq_refl) as (_ & _ & added & -> & _) end.
    reflexivity.
Qed.

Lemma debounce_calls {A : Type} (calls : list A) :
  forall (d : Debounce A) (a : A),
    let d' := fold_left debounceStep (List.map Call (calls ++ [a])) d in
    armed d' = Some a /\ fired d' = fired d.
Proof.
  induction calls as [|c calls IH]; intros d a; cbn.
  - split; reflexivity.
  - destruct (IH (debounceCall c d) a) as [H1 H2]. split; [exact H1 | exact H2].
Qed.

(** X4.  After a burst of calls with no timer expiring in between, the
    timer applies the debounced function once, to the arguments of the
    last call; a further expiry does nothing. *)
Theorem debounce_last_call_wins {A : Type} (d : Debounce A) (calls : list A) (a : A) :
  let d' := fold_left debounceStep (List.map Call (calls ++ [a])) d in
  fired (debounceTimeout d') = fired d ++ [a]
  /\ armed (debounceTimeout d') = None
  /\ debounceTimeout (debounceTimeout d') = debounceTimeout d'.
Proof.
  destruct (debounce_calls calls d a) as [H1 H2]. cbv zeta.
  set (d' := fold_left debounceStep _ d) in *.
  assert (H : debounceTimeout d' = {| armed := None; fired := fired d ++ [a] |}).
  { unfold debounceTimeout. now rewrite H1, H2. }
  rewrite H. repeat split.
Qed.

End UtilsFacts.

(** ** The throttled pointer listener *)

Module PointerFacts.
Import Carousel.
Import Utils.
Import Pointer.
Import CarouselFacts.
Import UtilsFacts.

(** The listener hands on what the throttle applies, in order. *)
Lemma pointerMoves_applied (es : list (TimedCall Q)) :
  forall (t : Throttle Q) (w : Widget),
    fst (pointerMoves es (t, w)) = fold_left throttleStep es t
    /\ exists delivered,
         applied (fold_left throttleStep es t) = applied t ++ delivered
         /\ snd (pointerMoves es (t, w)) = dragThrough delivered w.
Proof.
  unfold pointerMoves.
  induction es as [|e es IH]; intros t w; cbn [fold_left].
  - split; [reflexivity|]. exists []. split; [now rewrite app_nil_r | reflexivity].
  - destruct e as [x|]; cbn [pointerMove throttleStep fst snd].
    + unfold throttleCall. destruct (inThrottle t) eqn:E; cbn [negb].
      * apply IH.
      * match goal with |- context [fold_left pointerMove es (?u, ?v)] =>
          destruct (IH u v) as (H1 & delivered & H2 & H3) end.
        split; [exact H1|]. exists (x :: delivered). split.
        -- rewrite H2. cbn [applied]. now rewrite <- app_assoc.
        -- exact H3.
    + destruct (IH (throttleTimeout t) w) as (H1 & delivered & H2 & H3).
      split; [exact H1|]. exists delivered. split; [|exact H3].
      rewrite H2. f_equal. unfold throttleTimeout. now destruct (clearTimers t).
Qed.

(** X15.  During a drag the offset follows the pointer positions the
    16 ms throttle of the move listener lets through: after pointer-down
    at [a] and any sequence of moves and timer expirations, the offset
    has changed by the last delivered position minus [a]; a move that
    arrives before the timer of the last delivered one expired is
    dropped, so the offset can stay behind the pointer.  Pointer-up then
    ends the drag, removes the dragging class and records the distance
    between the last delivered position and [a]. *)
Theorem drag_follows_pointer (a : Q) (es : list (TimedCall Q)) (t : Throttle Q)
    (w : Widget) :
  dragEnabled (config w) = true ->
  timerPending t ->
  let s := pointerMoves es (t, handlePointerDown a false w) in
  let w2 := snd s in
  let w3 := handlePointerUp w2 in
  exists delivered,
    applied (fst s) = applied t ++ delivered
    /\ sublist delivered (callsOf es)
    /\ (length delivered + (if inThrottle (fst s) then 0 else 1)
        <= (if inThrottle t then 0 else 1) + length (List.filter isTimeout es))%nat
    /\ (inThrottle t = false ->
        forall x rest, es = Call x :: rest -> hd_error delivered = Some x)
    /\ (inThrottle (fst s) = true -> forall x, snd (pointerMove s (Call x)) = w2)
    /\ dragging (state w2) = true
    /\ offset (state w2) == offset (state w) + (List.last delivered a - a)
    /\ lastX (state w2) = List.last delivered a
    /\ dragDistance w2 == Qabs (List.last delivered a - a)
    /\ (delivered <> [] -> transform (dom w2) = Some (offset (state w2)))
    /\ dragging (state w3) = false
    /\ ("rbc-dragging"%string ∉ classes (dom w3))
    /\ cursor (dom w3) = ""%string
    /\ List.last (tracked (dom w3)) TrackPlay = TrackDragEnd (dragDistance w2).
Proof.
  intros He Ht. cbv zeta.
  destruct (pointerMoves_applied es t (handlePointerDown a false w))
    as (H1 & delivered & H2 & H3).
  destruct (throttle_run_invariant es t Ht) as (_ & Hlen & added & H4 & H5).
  cbv zeta in Hlen.
  assert (added = delivered) by (rewrite H2 in H4; now apply app_inv_head in H4).
  subst added. rewrite H1, H3.
  exists delivered. split; [exact H2|]. split; [exact H5|].
  split; [rewrite H2, length_app in Hlen; lia|].
  split.
  { intros Hf x rest ->. revert H2. cbn [fold_left throttleStep]. unfold throttleCall.
    rewrite Hf. cbn [negb].
    match goal with |- context [fold_left throttleStep rest ?u] =>
      destruct (pointerMoves_applied rest u w) as (_ & d' & Hd' & _) end.
    rewrite Hd'. cbn [applied]. rewrite <- app_assoc. intros H.
    apply app_inv_head in H. now subst delivered. }
  split.
  { intros Hin x. cbn [pointerMove fst snd]. rewrite H1, Hin. cbn [negb snd]. exact H3. }
  exact (dragThrough_release a delivered w He).
Qed.

Lemma drag_follows_pointer_witness :
  let s := pointerMoves quickMoves (throttle, handlePointerDown 100 false scrolling) in
  let w2 := snd s in
  let w3 := handlePointerUp w2 in
  exists delivered,
    applied (fst s) = applied throttle ++ delivered
    /\ sublist delivered (callsOf quickMoves)
    /\ (length delivered + (if inThrottle (fst s) then 0 else 1)
        <= (if inThrottle (@throttle Q) then 0 else 1)
           + length (List.filter isTimeout quickMoves))%nat
    /\ (inThrottle (@throttle Q) = false ->
        forall x rest, quickMoves = Call x :: rest -> hd_error delivered = Some x)
    /\ (inThrottle (fst s) = true -> forall x, snd (pointerMove s (Call x)) = w2)
    /\ dragging (state w2) = true
    /\ offset (state w2) == offset (state scrolling) + (List.last delivered 100 - 100)
    /\ lastX (state w2) = List.last delivered 100
    /\ dragDistance w2 == Qabs (List.last delivered 100 - 100)
    /\ (delivered <> [] -> transform (dom w2) = Some (offset (state w2)))
    /\ dragging (state w3) = false
    /\ ("rbc-dragging"%string ∉ classes (dom w3))
    /\ cursor (dom w3) = ""%string
    /\ List.last (tracked (dom w3)) TrackPlay = TrackDragEnd (dragDistance w2).
Proof.
  apply (drag_follows_pointer 100 quickMoves throttle scrolling).
  - reflexivity.
  - reflexivity.
Defined.

(** Two moves within one window: the second is dropped, and the offset
    stays 60 px behind the pointer; the release sees a drag of 20 px
    and adds no momentum.  With a timer expiry between the moves both
    are delivered. *)
Example quick_moves_dropped :
  let quick := snd (pointerMoves quickMoves (throttle, handlePointerDown 100 false scrolling)) in
  let slow := snd (pointerMoves slowMoves (throttle, handlePointerDown 100 false scrolling)) in
  offset (state quick) == offset (state scrolling) + 20
  /\ lastX (state quick) = 120
  /\ dragDistance quick == 20
  /\ frames (handlePointerUp quick) = frames quick
  /\ offset (state slow) == offset (state scrolling) + 80
  /\ dragDistance slow == 80
  /\ List.find isMomentum (frames (handlePointerUp slow)) <> None.
Proof.
  cbv zeta.
  split; [vm_compute; reflexivity|]. split; [vm_compute; reflexivity|].
  split; [vm_compute; reflexivity|]. split; [vm_compute; reflexivity|].
  split; [vm_compute; reflexivity|]. split; [vm_compute; reflexivity|].
  vm_compute. discriminate.
Qed.

End PointerFacts.

(** ** The image loader *)

Module ImageLoaderFacts.
Import ImageLoader.

Lemma loadImage_request (img img1 : Img) (s : string) :
  loadImage img = (img1, Some s) ->
  truthy (dataLoaded img) = false
  /\ s = sourceOf img /\ s <> ""%string
  /\ img1 = {| dataSrc := dataSrc img; src := src img; dataLoaded := dataLoaded img;
               imgClasses := classList_add "loading" (imgClasses img) |}.
Proof.
  unfold loadImage. destruct (truthy (dataLoaded img)); [discriminate|].
  destruct (String.eqb_spec (sourceOf img) "") as [E|E]; [discriminate|].
  intros [= <- <-]. auto.
Qed.

(** X5.  When [loadImage] requests an address and the load succeeds,
    the image carries [loaded] and not [loading], its [src] is the
    requested address if it came from [data-src], and [loadImage] on it
    requests nothing more. *)
Theorem load_then_loaded (img img1 : Img) (s : string) :
  loadImage img = (img1, Some s) ->
  let img2 := onload s img1 in
  loadImage img2 = (img2, None)
  /\ ("loaded"%string ∈ imgClasses img2)
  /\ ("loading"%string ∉ imgClasses img2)
  /\ s = sourceOf img
  /\ (truthy (dataSrc img) = true -> src img2 = s)
  /\ (truthy (dataSrc img) = false -> src img2 = src img).
Proof.
  intros H. destruct (loadImage_request img img1 s H) as (_ & Hs & _ & ->).
  cbv zeta. unfold onload, loadImage. cbn.
  split; [reflexivity|]. unfold classList_add, classList_remove.
  repeat (rewrite elem_of_union || rewrite elem_of_difference
          || rewrite elem_of_singleton).
  split; [now left|]. split; [intros [E|[_ E]]; [discriminate E | now apply E]|].
  split; [exact Hs|]. split; intros E; rewrite E; reflexivity.
Qed.

Lemma load_then_loaded_witness :
  let img1 := fst (loadImage lazyImg) in
  let img2 := onload "review.jpg" img1 in
  loadImage img2 = (img2, None)
  /\ ("loaded"%string ∈ imgClasses img2)
  /\ ("loading"%string ∉ imgClasses img2)
  /\ "review.jpg"%string = sourceOf lazyImg
  /\ (truthy (dataSrc lazyImg) = true -> src img2 = "review.jpg"%string)
  /\ (truthy (dataSrc lazyImg) = false -> src img2 = src lazyImg).
Proof.
  apply (load_then_loaded lazyImg (fst (loadImage lazyImg)) "review.jpg").
  reflexivity.
Defined.

(** X6.  When the load fails the image loses [loading] and is not
    marked as loaded, so [loadImage] on it requests the same address
    again; an image with neither [data-src] nor [src] is never
    requested. *)
Theorem error_then_retry (img img1 : Img) (s : string) :
  loadImage img = (img1, Some s) ->
  ("loading"%string ∉ imgClasses (onerror img1))
  /\ dataLoaded (onerror img1) = dataLoaded img
  /\ snd (loadImage (onerror img1)) = Some s
  /\ (forall i, sourceOf i = ""%string -> loadImage i = (i, None)).
Proof.
  intros H. destruct (loadImage_request img img1 s H) as (Hl & Hs & Hne & ->).
  split; [|split; [reflexivity|split]].
  - unfold onerror, classList_remove. cbn. rewrite elem_of_difference, elem_of_singleton.
    tauto.
  - unfold loadImage, onerror. cbn. rewrite Hl.
    change (sourceOf _) with (sourceOf img). rewrite <- Hs.
    destruct (String.eqb_spec s "") as [E|_]; [contradiction | reflexivity].
  - intros i Hi. unfold loadImage. rewrite Hi. cbn. now destruct (truthy (dataLoaded i)).
Qed.

Lemma error_then_retry_witness :
  ("loading"%string ∉ imgClasses (onerror (fst (loadImage lazyImg))))
  /\ dataLoaded (onerror (fst (loadImage lazyImg))) = dataLoaded lazyImg
  /\ snd (loadImage (onerror (fst (loadImage lazyImg)))) = Some "review.jpg"%string
  /\ (forall i, sourceOf i = ""%string -> loadImage i = (i, None)).
Proof.
  apply (error_then_retry lazyImg (fst (loadImage lazyImg)) "review.jpg").
  reflexivity.
Defined.

End ImageLoaderFacts.
